(** * xarmour: splitting armoured text and piping each block to a command

    A shallow embedding of [xarmour.c].  The parent process is a loop
    over the lines that [fgets] delivers; what the operating system
    answers to [pipe], [fork], [write] and [waitpid] is an explicit
    input of the model, and the children the parent creates, with
    everything it writes to them, are recorded in the state.  A run
    ends with [main] returning a status or, when a [write] finds the
    child gone, with SIGPIPE ending the parent. *)

From Stdlib Require Import ZArith Ascii String DecimalString.
From stdpp Require Import base list strings gmap.

Local Open Scope Z_scope.

(** ** Bytes and C strings *)

(** Literal byte strings of the examples. *)
Definition B (s : string) : list ascii := list_ascii_of_string s.

Definition NUL : ascii := "000"%char.
Definition NL : ascii := "010"%char.
Definition DASH : ascii := "-"%char.

(** A line of the examples: the text and its newline. *)
Definition Ln (s : string) : list ascii := B s ++ [NL].

(** The string a [char *] denotes: the bytes before the first NUL. *)
Fixpoint cstr (buf : list ascii) : list ascii :=
  match buf with
  | [] => []
  | c :: rest => if Ascii.eqb c NUL then [] else c :: cstr rest
  end.

Definition strlen (buf : list ascii) : nat := length (cstr buf).

(** [strcmp] on two C strings: the difference of the first pair of
    bytes (as unsigned char) that differ, 0 when there is none. *)
Fixpoint strcmp (a b : list ascii) : Z :=
  match a, b with
  | [], [] => 0
  | [], y :: _ => - Z.of_N (N_of_ascii y)
  | x :: _, [] => Z.of_N (N_of_ascii x)
  | x :: a', y :: b' =>
      if Ascii.eqb x y then strcmp a' b'
      else Z.of_N (N_of_ascii x) - Z.of_N (N_of_ascii y)
  end.

(** ** Reading lines: [fgets] *)

(** #define MAX_LINE 1024 *)
Definition MAX_LINE : nat := 1024.

(** The bytes [fgets] stores when it may still store [room] of them:
    it stops after a newline, at end of file, or when the room is
    used up.  Returns what was stored and what is left on the stream. *)
Fixpoint fgets_store (room : nat) (stream : list ascii) {struct stream}
    : list ascii * list ascii :=
  match room, stream with
  | O, _ => ([], stream)
  | _, [] => ([], [])
  | S room', c :: rest =>
      if Ascii.eqb c NL then ([c], rest)
      else let '(stored, unread) := fgets_store room' rest in (c :: stored, unread)
  end.

(** [fgets(buffer, size, stream)]: NULL ([None]) at end of file when
    no byte was read; otherwise at most [size - 1] bytes are stored (a
    terminating NUL takes the last place) and the rest of the stream
    stays unread. *)
Definition fgets (size : nat) (stream : list ascii) : option (list ascii * list ascii) :=
  match stream with
  | [] => None
  | _ :: _ => Some (fgets_store (size - 1) stream)
  end.

(** ** Matching the markers: [sscanf] *)

(** The directives the two formats of [main] are made of. *)
Inductive directive :=
  | Lit (c : ascii)              (* an ordinary character *)
  | White                       (* white space in the format *)
  | ScanNot (width : nat) (c : ascii).   (* %<width>[^c] *)

Definition isspace (c : ascii) : bool :=
  let n := N_of_ascii c in
  (N.eqb n 32 || (N.leb 9 n && N.leb n 13))%bool.

Fixpoint skip_space (s : list ascii) : list ascii :=
  match s with
  | c :: rest => if isspace c then skip_space rest else s
  | [] => []
  end.

(** The longest prefix of at most [width] bytes different from [c]. *)
Fixpoint scan_not (width : nat) (c : ascii) (s : list ascii) : list ascii :=
  match width, s with
  | S w, x :: rest => if Ascii.eqb x c then [] else x :: scan_not w c rest
  | _, _ => []
  end.

Definition EOF : Z := -1.

(** [sscanf(s, fmt, out)] for a format with at most one conversion.
    [out] is the current content of the array the conversion assigns
    to; the result is the return value and the array afterwards.
    White space in the format skips any white space of the input, also
    none; an ordinary character must be the next one of the input; the
    scan set needs at least one byte.  Running out of input before the
    conversion is an input failure (EOF), a wrong byte a matching
    failure (0); after the conversion nothing changes the count. *)
Fixpoint sscanf_from (fmt : list directive) (s : list ascii) (out : list ascii)
    (assigned : Z) : Z * list ascii :=
  match fmt with
  | [] => (assigned, out)
  | Lit c :: fmt' =>
      match s with
      | [] => (if assigned =? 0 then EOF else assigned, out)
      | x :: s' =>
          if Ascii.eqb x c then sscanf_from fmt' s' out assigned
          else (assigned, out)
      end
  | White :: fmt' => sscanf_from fmt' (skip_space s) out assigned
  | ScanNot width c :: fmt' =>
      match s with
      | [] => (if assigned =? 0 then EOF else assigned, out)
      | _ :: _ =>
          let got := scan_not width c s in
          match got with
          | [] => (assigned, out)
          | _ :: _ => sscanf_from fmt' (drop (length got) s) got (assigned + 1)
          end
      end
  end.

Definition sscanf (buffer : list ascii) (fmt : list directive) (out : list ascii)
    : Z * list ascii :=
  sscanf_from fmt (cstr buffer) out 0.

(** const char *begin = "-----BEGIN %1000[^-]-----"; *)
Definition begin : list directive :=
  map Lit (B "-----BEGIN") ++ [White; ScanNot 1000 DASH] ++ map Lit (B "-----").

(** const char *end = "-----END %1000[^-]-----"; *)
Definition end_ : list directive :=
  map Lit (B "-----END") ++ [White; ScanNot 1000 DASH] ++ map Lit (B "-----").

(** ** The operating system *)

Definition EXIT_SUCCESS : Z := 0.
Definition EXIT_FAILURE : Z := 1.
(** <sysexits.h> *)
Definition EX_OSERR : Z := 71.

(** <signal.h>: the signal [write] raises on a pipe that has no reader
    left.  [main] sets no handler for it (line 194 is about SIGCHLD only),
    so it ends the parent unless the parent was started with it
    ignored. *)
Definition SIGPIPE : Z := 13.

(** Modelled from the spec: the status word [waitpid] stores and the
    macros of <sys/wait.h> that take it apart are not part of the
    sources.  The status is the tagged termination outcome of the
    specification: a normal exit with its code, death by a signal with
    its number, or anything else [waitpid] may report. *)
Inductive wstatus :=
  | W_EXITED (code : Z)
  | W_SIGNALED (sig : Z)
  | W_OTHER.

Definition WIFEXITED (status : wstatus) : bool :=
  match status with W_EXITED _ => true | _ => false end.

Definition WEXITSTATUS (status : wstatus) : Z :=
  match status with W_EXITED code => code | _ => 0 end.

Definition WIFSIGNALED (status : wstatus) : bool :=
  match status with W_SIGNALED _ => true | _ => false end.

Definition WTERMSIG (status : wstatus) : Z :=
  match status with W_SIGNALED sig => sig | _ => 0 end.

(** What the system does with one child: whether [pipe] fails, the
    process id [fork] returns to the parent ([None]: fork returns -1),
    how many [waitpid] calls a signal interrupts (EINTR) before the
    call that settles it, what that call reports ([None]: it fails
    with another errno), and how the writes on its pipe end.

    The parent closes its own read end (line 237), so the child is the
    only reader of the pipe.  [sigpipe_after = Some n]: the child has
    closed its standard input, or has exited, by the time the parent
    has handed [n] bytes to [write]; the next [write] of at least one
    byte raises SIGPIPE, which ends the parent.  [None]: no [write] on
    this pipe raises SIGPIPE; the child keeps its standard input open
    until the parent closes the pipe, or the parent was started with
    SIGPIPE ignored, so that the [write] only fails with EPIPE, which
    line 249 does not look at.

    Every call is taken at its return: a child that never reads or
    never exits leaves the parent waiting in [write] or [waitpid], and
    no run of this model describes that. *)
Record fate := {
  pipe_fails : bool;
  fork_pid : option positive;
  wait_eintr : nat;
  wait_status : option wstatus;
  sigpipe_after : option nat
}.

(** A child as the parent made it and fed it. *)
Record child := {
  c_pid : Z;
  c_argv : list string;
  c_env : gmap string string;
  c_stdin : list ascii;          (* the bytes handed to write(2) on its pipe,
                                    whether or not the child took them *)
  c_pipe_open : bool;            (* the parent still holds the write end *)
  c_status : option wstatus      (* stored by the waitpid that returned its pid *)
}.

Definition child_write (data : list ascii) (c : child) : child :=
  {| c_pid := c_pid c; c_argv := c_argv c; c_env := c_env c;
     c_stdin := c_stdin c ++ data;
     c_pipe_open := c_pipe_open c; c_status := c_status c |}.

Definition child_close (c : child) : child :=
  {| c_pid := c_pid c; c_argv := c_argv c; c_env := c_env c;
     c_stdin := c_stdin c;
     c_pipe_open := false; c_status := c_status c |}.

Definition child_reap (status : wstatus) (c : child) : child :=
  {| c_pid := c_pid c; c_argv := c_argv c; c_env := c_env c;
     c_stdin := c_stdin c;
     c_pipe_open := c_pipe_open c; c_status := Some status |}.

(** The bytes handed to [write] on the pipe of child number [fd] so
    far. *)
Definition written (fd : nat) (ps : list child) : nat :=
  from_option (λ c, length (c_stdin c)) O (ps !! fd).

(** Whether a [write] of [n] bytes raises SIGPIPE on a pipe that has
    been handed [before] bytes.  A [write] of no bytes returns 0
    before the pipe is looked at. *)
Definition broken_pipe (ft : fate) (before n : nat) : bool :=
  match sigpipe_after ft with
  | Some gone => (gone <=? before)%nat && (0 <? n)%nat
  | None => false
  end.

(** The children once [n] bytes of [buf] have been handed to [write]
    for child number [fd]. *)
Definition handed (fd : nat) (buf : list ascii) (n : nat) (ps : list child)
    : list child :=
  alter (child_write (take n buf)) fd ps.

(** How a call of [write] ends: it returns, with a value line 249 does
    not look at, or it raises SIGPIPE. *)
Inductive write_result :=
  | Wrote (ps : list child)
  | Sigpipe (ps : list child).

(** [write(fd, buf, n)] on the write end of the pipe of child number
    [fd], whose fate is [ft]. *)
Definition write (ft : fate) (fd : nat) (buf : list ascii) (n : nat)
    (ps : list child) : write_result :=
  if broken_pipe ft (written fd ps) n
  then Sigpipe (handed fd buf n ps)
  else Wrote (handed fd buf n ps).

(** [close(fd)] on the write end of the pipe of child number [fd], and
    the bookkeeping of a successful [waitpid]. *)
Definition close (fd : nat) (ps : list child) : list child :=
  alter child_close fd ps.

Definition reaped (fd : nat) (status : wstatus) (ps : list child) : list child :=
  alter (child_reap status) fd ps.

(** The do/while around [waitpid(f, &status, 0)]: a call interrupted
    by a signal (w == -1, errno == EINTR) goes round again, any other
    result leaves the loop.  [None] stands for w == -1. *)
Fixpoint waitpid_loop (interrupted : nat) (final : option wstatus)
    : option wstatus :=
  match interrupted with
  | O => final
  | S n => waitpid_loop n final
  end.

(** snprintf(buf, sizeof(buf), "%ld", n) *)
Definition ld (n : Z) : string := NilZero.string_of_int (Z.to_int n).

(** ** The program state *)

(** The two counters are [long int] in the source and integers here:
    they only ever grow by one, at most once per line read
    ([counters_bounded] below), so that they stay far from the range
    where C leaves the increment undefined. *)

Record state := {
  f : Z;                  (* pid_t f: the child of the open block, or -1 *)
  blabel : list ascii;    (* label of the last BEGIN marker acted upon *)
  index : Z;              (* long int *)
  count : Z;              (* long int *)
  pipefd : nat;           (* the child whose pipe pipefd[WRITE_FD] is *)
  procs : list child      (* every child forked so far, oldest first *)
}.

(** One pass through the loop body either falls through to the next
    [fgets], or returns from [main], or is cut short by a signal that
    ends the process. *)
Inductive flow :=
  | Next (s : state)
  | Return (code : Z) (s : state)
  | Killed_by (sig : Z) (s : state).

Definition flow_state (r : flow) : state :=
  match r with Next s => s | Return _ s => s | Killed_by _ s => s end.

(** Where the parent is: about to call [fgets] on the unread input, or
    returned from [main], either below the loop ([at_eof]) or from
    inside it, or ended by a signal without returning from [main]. *)
Inductive config :=
  | Running (s : state) (unread : list ascii)
  | Exited (code : Z) (at_eof : bool) (s : state) (unread : list ascii)
  | Killed (sig : Z) (s : state) (unread : list ascii).

Definition config_state (c : config) : state :=
  match c with Running s _ => s | Exited _ _ s _ => s | Killed _ s _ => s end.

Definition unread (c : config) : list ascii :=
  match c with Running _ u => u | Exited _ _ _ u => u | Killed _ _ u => u end.

(** The value [main] returned. *)
Definition exit_code (c : config) : option Z :=
  match c with Exited code _ _ _ => Some code | _ => None end.

Definition ended_at_eof (c : config) : bool :=
  match c with Exited _ e _ _ => e | _ => false end.

(** The signal that ended the parent. *)
Definition signalled (c : config) : option Z :=
  match c with Killed sig _ _ => Some sig | _ => None end.

Definition killed (c : config) : bool :=
  match c with Killed _ _ _ => true | _ => false end.

(** The parent is still in the loop, about to call [fgets]. *)
Definition in_loop (c : config) : bool :=
  match c with Running _ _ => true | _ => false end.

Definition children (c : config) : list child := procs (config_state c).

Section Main.

(** [times] as the option loop leaves it (0: no -t), the command
    line from [argv + optind], the environment of the parent and the
    fate of the k-th child. *)
Variable times : Z.
Variable command : list string.
Variable environ : gmap string string.
Variable os : nat -> fate.

(** The four [setenv] calls of the child, on top of what it inherits. *)
Definition child_env (s : state) (label : list ascii) : gmap string string :=
  <["XARMOUR_LABEL" := string_of_list_ascii label]>
    (<["XARMOUR_TIMES" := ld times]>
      (<["XARMOUR_COUNT" := ld (count s)]>
        (<["XARMOUR_INDEX" := ld (index s)]> environ))).

(** Lines 178-243: seeking the start of the armour. *)
Definition seek_begin (buffer : list ascii) (s : state) : flow :=
  if f s <? 0 then
    let '(n, label) := sscanf buffer begin (blabel s) in
    let s1 := {| f := f s; blabel := label; index := index s;
                 count := count s; pipefd := pipefd s; procs := procs s |} in
    if n =? 1 then
      let k := length (procs s) in
      if pipe_fails (os k) then Return EXIT_FAILURE s1
      else
        match fork_pid (os k) with
        | None =>
            Return EXIT_FAILURE
              {| f := -1; blabel := label; index := index s;
                 count := count s; pipefd := k; procs := procs s |}
        | Some pid =>
            Next {| f := Z.pos pid; blabel := label; index := index s;
                    count := count s; pipefd := k;
                    procs := procs s ++
                      [ {| c_pid := Z.pos pid; c_argv := command;
                           c_env := child_env s label; c_stdin := [];
                           c_pipe_open := true; c_status := None |} ] |}
        end
    else Next s1
  else Next s.

(** Lines 245-323: writing the armour and seeking its end.  When the
    [write] of line 249 raises SIGPIPE nothing below it is reached;
    when it returns, its result is not looked at.  The array [elabel]
    is read only after [sscanf] has assigned it. *)
Definition seek_end (buffer : list ascii) (s : state) : flow :=
  if 0 <=? f s then
    match write (os (pipefd s)) (pipefd s) buffer (strlen buffer) (procs s) with
    | Sigpipe ps =>
        Killed_by SIGPIPE
          {| f := f s; blabel := blabel s; index := index s;
             count := count s; pipefd := pipefd s; procs := ps |}
    | Wrote ps =>
        let '(n, elabel) := sscanf buffer end_ [] in
        if (n =? 1) && (strcmp (blabel s) elabel =? 0) then
          let ps := close (pipefd s) ps in
          let ft := os (pipefd s) in
          let at_wait f' count' ps' :=
            {| f := f'; blabel := blabel s; index := index s + 1;
               count := count'; pipefd := pipefd s; procs := ps' |} in
          match waitpid_loop (wait_eintr ft) (wait_status ft) with
          | None => Return EXIT_FAILURE (at_wait (f s) (count s) ps)
          | Some status =>
              let ps := reaped (pipefd s) status ps in
              if WIFEXITED status && (WEXITSTATUS status =? EXIT_SUCCESS) then
                Next (at_wait (-1) (count s + 1) ps)
              else if negb (times =? 0) then
                Next (at_wait (-1) (count s) ps)
              else if WIFEXITED status then
                Return (WEXITSTATUS status) (at_wait (f s) (count s) ps)
              else if WIFSIGNALED status then
                Return (WTERMSIG status + 128) (at_wait (f s) (count s) ps)
              else
                Return EX_OSERR (at_wait (f s) (count s) ps)
          end
        else
          Next {| f := f s; blabel := blabel s; index := index s;
                  count := count s; pipefd := pipefd s; procs := ps |}
    end
  else Next s.

(** The body of [while (fgets(buffer, sizeof(buffer), stdin))]. *)
Definition loop_body (buffer : list ascii) (s : state) : flow :=
  match seek_begin buffer s with
  | Return code s' => Return code s'
  | Killed_by sig s' => Killed_by sig s'
  | Next s' => seek_end buffer s'
  end.

(** Lines 327-340: the status once [fgets] has returned NULL. *)
Definition after_loop (s : state) : Z :=
  if negb (times =? 0) then
    if count s <? times then EXIT_FAILURE else EXIT_SUCCESS
  else EXIT_SUCCESS.

(** One turn of the loop: the [fgets] test, then the body. *)
Definition turn (c : config) : config :=
  match c with
  | Exited _ _ _ _ => c
  | Killed _ _ _ => c
  | Running s input =>
      match fgets MAX_LINE input with
      | None => Exited (after_loop s) true s input
      | Some (buffer, rest) =>
          match loop_body buffer s with
          | Return code s' => Exited code false s' rest
          | Killed_by sig s' => Killed sig s' rest
          | Next s' => Running s' rest
          end
      end
  end.

Definition start : state :=
  {| f := -1; blabel := []; index := 0; count := 0; pipefd := O; procs := [] |}.

(** The parent after [n] turns of the loop. *)
Definition run_for (n : nat) (stdin : list ascii) : config :=
  Nat.iter n turn (Running start stdin).

(** [main] from line 176 on.  Every turn that does not end the run
    takes at least one byte off the input, so one turn more than the
    input has bytes is enough to see the run end. *)
Definition xarmour (stdin : list ascii) : config :=
  run_for (S (length stdin)) stdin.

End Main.

(** ** The option loop *)

(** What [getopt_long] hands to the switch.  For 't' the value [strtol]
    computed and whether the argument was accepted otherwise ([errno]
    clear and no character left over). *)
Inductive option_seen :=
  | opt_t (value : Z) (clean : bool)
  | opt_h
  | opt_v
  | opt_other.

(** Lines 146-169: [inl code] when an option makes [main] return,
    [inr times] when the loop runs to its end. *)
Fixpoint getopt_loop (opts : list option_seen) (times : Z) : Z + Z :=
  match opts with
  | [] => inr times
  | opt_t value clean :: opts' =>
      if negb clean || (value <? 1) then inl EXIT_FAILURE
      else getopt_loop opts' value
  | opt_h :: _ => inl 0
  | opt_v :: _ => inl 0
  | opt_other :: _ => inl EXIT_FAILURE
  end.

Definition main (opts : list option_seen) (command : list string)
    (environ : gmap string string) (os : nat -> fate) (stdin : list ascii)
    : config :=
  match getopt_loop opts 0 with
  | inl code => Exited code false start stdin
  | inr times =>
      match command with
      | [] => Exited EXIT_FAILURE false start stdin
      | _ :: _ => xarmour times command environ os stdin
      end
  end.

(** * Notions used to state the properties *)

(** [main] has returned. *)
Definition returned (c : config) : Prop :=
  ∃ code eof s u, c = Exited code eof s u.

(** The run is over: [main] has returned, or SIGPIPE has ended the
    parent. *)
Definition ended (c : config) : Prop :=
  returned c ∨ ∃ s u, c = Killed SIGPIPE s u.

(** ** What the two formats accept *)

Fixpoint strip_prefix (p s : list ascii) : option (list ascii) :=
  match p, s with
  | [], _ => Some s
  | _ :: _, [] => None
  | c :: p', x :: s' => if Ascii.eqb x c then strip_prefix p' s' else None
  end.

(** The label a marker format assigns on the C string [s], if any:
    the keyword, any white space, then the run of bytes other than
    dashes, which must not be empty. *)
Definition marker_label (kw s : list ascii) : option (list ascii) :=
  match strip_prefix kw s with
  | None => None
  | Some s' =>
      match scan_not 1000 DASH (skip_space s') with
      | [] => None
      | c :: l => Some (c :: l)
      end
  end.

Definition marker_format (kw tail : list ascii) : list directive :=
  map Lit kw ++ [White; ScanNot 1000 DASH] ++ map Lit tail.

(** The test [sscanf(buffer, fmt, label) == 1] of lines 182 and 255,
    with the label assigned when it holds. *)
Definition is_marker (fmt : list directive) (buffer : list ascii)
    : option (list ascii) :=
  let '(n, label) := sscanf buffer fmt [] in
  if n =? 1 then Some label else None.

(** ** Children and what becomes of them *)

(** A child the parent is done with: its pipe is closed and [waitpid]
    has returned its status.  A live child has neither happened to. *)
Definition finished (ch : child) : Prop :=
  c_pipe_open ch = false ∧ is_Some (c_status ch).

Definition live (ch : child) : Prop :=
  c_pipe_open ch = true ∧ c_status ch = None.

(** WIFEXITED(status) && WEXITSTATUS(status) == EXIT_SUCCESS *)
Definition exit_ok (status : wstatus) : bool :=
  WIFEXITED status && (WEXITSTATUS status =? EXIT_SUCCESS).

Definition exited_ok (ch : child) : bool :=
  match c_status ch with Some status => exit_ok status | None => false end.

(** The blocks whose child exited 0. *)
Definition successes (ps : list child) : Z :=
  Z.of_nat (length (List.filter exited_ok ps)).

(** Forked and not yet reaped. *)
Definition is_active (ch : child) : bool :=
  match c_status ch with None => true | Some _ => false end.

Definition active (ps : list child) : nat := length (List.filter is_active ps).

Definition open_pipes (ps : list child) : nat :=
  length (List.filter c_pipe_open ps).

(** The status [main] returns for a child that did not exit 0 when
    no threshold is set (lines 292-316). *)
Definition translated (status : wstatus) : Z :=
  match status with
  | W_EXITED code => code
  | W_SIGNALED sig => sig + 128
  | W_OTHER => EX_OSERR
  end.

(** ** The invariant of the loop *)

Section LoopInvariant.

Variable times : Z.
Variable os : nat -> fate.

Definition knows_times (ch : child) : Prop :=
  c_env ch !! "XARMOUR_TIMES" = Some (ld times).

(** In a run without threshold no child that was reaped failed:
    the first that does ends the run. *)
Definition none_failed (ps : list child) : Prop :=
  times = 0 → Forall (λ ch, c_status ch = None ∨ exited_ok ch = true) ps.

(** What holds whenever the parent is about to call [fgets]. *)
Record wf (s : state) : Prop := {
  wf_env : Forall knows_times (procs s);
  wf_count : count s = successes (procs s);
  wf_label : NUL ∉ blabel s;
  wf_idle : f s < 0 → Forall finished (procs s);
  wf_open : 0 ≤ f s →
    ∃ ps ch, procs s = ps ++ [ch] ∧ pipefd s = length ps ∧
             Forall finished ps ∧ live ch;
  wf_strict : none_failed (procs s)
}.

(** The ways [main] returns, with what is then known of the state. *)
Inductive returns : Z → bool → state → Prop :=
  | ret_eof s :
      wf s → returns (after_loop times s) true s
  | ret_spawn s :
      wf s → f s < 0 →
      pipe_fails (os (length (procs s))) = true ∨
        fork_pid (os (length (procs s))) = None →
      returns EXIT_FAILURE false s
  | ret_wait s ps ch :
      procs s = ps ++ [ch] → Forall finished ps →
      Forall knows_times (procs s) → none_failed (procs s) →
      c_pipe_open ch = false → c_status ch = None →
      wait_status (os (length ps)) = None →
      returns EXIT_FAILURE false s
  | ret_status s ps ch status :
      times = 0 →
      procs s = ps ++ [ch] → Forall finished ps →
      Forall knows_times (procs s) → none_failed ps →
      c_pipe_open ch = false → c_status ch = Some status →
      exit_ok status = false →
      returns (translated status) false s.

(** What is known of the state when a [write] has ended the parent: a
    block was open, and its child was bound to hang up. *)
Definition cut_short (sig : Z) (s : state) : Prop :=
  sig = SIGPIPE ∧ wf s ∧ 0 ≤ f s ∧ is_Some (sigpipe_after (os (pipefd s))).

Definition good (c : config) : Prop :=
  match c with
  | Running s _ => wf s
  | Exited code eof s _ => returns code eof s
  | Killed sig s _ => cut_short sig s
  end.

End LoopInvariant.


(** The status the parent has for the [k]-th child, once reaped. *)
Definition status_of (c : config) (k : nat) : option wstatus :=
  children c !! k ≫= c_status.

(** The label of the block that is open, when the parent is in the
    loop with a block open. *)
Definition open_label (c : config) : option (list ascii) :=
  match c with
  | Running s _ => if 0 <=? f s then Some (blabel s) else None
  | Exited _ _ _ _ => None
  | Killed _ _ _ => None
  end.

(** What has been written to the youngest child. *)
Definition last_stdin (c : config) : list ascii :=
  from_option c_stdin [] (last (children c)).

(** ** The lines of an input *)

(** What successive calls of [fgets] return on a stream; every call
    takes at least one byte, so as many calls as there are bytes
    reach the end. *)
Fixpoint read_lines (calls : nat) (stream : list ascii) : list (list ascii) :=
  match calls with
  | O => []
  | S calls' =>
      match fgets MAX_LINE stream with
      | None => []
      | Some (line, rest) => line :: read_lines calls' rest
      end
  end.

Definition fgets_lines (stream : list ascii) : list (list ascii) :=
  read_lines (length stream) stream.

(** ** The scanner of the specification *)

(** The blocks of a sequence of lines, following the words of the
    specification and not the code: no block is open at first; while
    none is open a line matching the BEGIN pattern opens one with its
    label; while one is open every line belongs to it, the BEGIN line
    included, and a line matching the END pattern with an identical
    label closes it.  [sc_done] holds the text of the closed blocks,
    [sc_open] the label and the text so far of the open one. *)
Record scanner := {
  sc_done : list (list ascii);
  sc_open : option (list ascii * list ascii)
}.

Definition scan_line (sc : scanner) (line : list ascii) : scanner :=
  match sc_open sc with
  | None =>
      match is_marker begin line with
      | Some label => {| sc_done := sc_done sc; sc_open := Some (label, line) |}
      | None => sc
      end
  | Some (label, text) =>
      if decide (is_marker end_ line = Some label)
      then {| sc_done := sc_done sc ++ [text ++ line]; sc_open := None |}
      else {| sc_done := sc_done sc; sc_open := Some (label, text ++ line) |}
  end.

Definition scan (lines : list (list ascii)) : scanner :=
  fold_left scan_line lines {| sc_done := []; sc_open := None |}.

(** The text of every block, the one still open at the end last. *)
Definition block_texts (sc : scanner) : list (list ascii) :=
  sc_done sc ++
  match sc_open sc with Some (_, text) => [text] | None => [] end.

Definition armoured_blocks (stdin : list ascii) : list (list ascii) :=
  block_texts (scan (fgets_lines stdin)).

(** A text that starts with one of the lines, and that line a BEGIN
    marker. *)
Definition starts_at_begin (lines : list (list ascii)) (text : list ascii)
    : Prop :=
  ∃ line more, text = line ++ more ∧ line ∈ lines ∧
               is_Some (is_marker begin line).

(** Every text of the first list is the beginning of the text at the
    same place in the second. *)
Definition fed_within (texts blocks : list (list ascii)) : Prop :=
  ∀ k text, texts !! k = Some text →
    ∃ b, blocks !! k = Some b ∧ text `prefix_of` b.

(** The state of the parent and the state of the scanner agree: a
    block is open in one when it is in the other, with the same label,
    and the children have been given the texts of the blocks. *)
Definition agrees (s : state) (sc : scanner) : Prop :=
  map c_stdin (procs s) = block_texts sc ∧
  if 0 <=? f s
  then ∃ text, sc_open sc = Some (blabel s, text)
  else sc_open sc = None.

(** The last line read asked for a child that could not be made: no
    block was open after the lines [fed] before it, the line is a BEGIN
    marker, [pipe] or [fork] failed and [main] returned 1 (lines
    186-204) before the line was written to anyone. *)
Definition no_child_for (os : nat → fate) (fed : list (list ascii))
    (line : list ascii) (c : config) : Prop :=
  sc_open (scan (map cstr fed)) = None ∧
  is_Some (is_marker begin line) ∧
  exit_code c = Some EXIT_FAILURE ∧
  (pipe_fails (os (length (children c))) = true ∨
   fork_pid (os (length (children c))) = None).

(** What the children have been given, that is what has been handed
    to [write] for them, when the parent has read the lines [read]:
    the blocks of these lines, unless the last of them asked for a
    child that could not be made. *)
Definition given_blocks (os : nat → fate) (read : list (list ascii))
    (c : config) : Prop :=
  map c_stdin (children c) = block_texts (scan (map cstr read)) ∨
  ∃ fed line, read = fed ++ [line] ∧
    map c_stdin (children c) = block_texts (scan (map cstr fed)) ∧
    no_child_for os fed line c.

(** What the children have been given, at every point of a run, in
    terms of the lines read so far. *)
Definition follows_scanner (os : nat → fate) (lines : list (list ascii))
    (c : config) : Prop :=
  ∃ read, lines = read ++ fgets_lines (unread c) ∧
    match c with
    | Running s _ => agrees s (scan (map cstr read))
    | Exited _ true s _ => agrees s (scan (map cstr read)) ∧ read = lines
    | Exited _ false _ _ => given_blocks os read c
    | Killed _ s _ =>
        read ≠ [] ∧
        map c_stdin (procs s) = block_texts (scan (map cstr read))
    end.

(** A block with a NUL byte in its second line. *)
Definition with_NUL : list ascii :=
  Ln "-----BEGIN ONE-----" ++ B "ab" ++ [NUL] ++ Ln "cd" ++
  Ln "-----END ONE-----".

(** The pipe to child number [j] has been closed. *)
Definition pipe_closed (j : nat) (ps : list child) : Prop :=
  ∃ ch, ps !! j = Some ch ∧ c_pipe_open ch = false.

(** Two systems that treat every child alike, except for what
    [waitpid] would do with child number [j]. *)
Definition same_but_wait (j : nat) (os os' : nat → fate) : Prop :=
  ∀ k, pipe_fails (os' k) = pipe_fails (os k) ∧
       fork_pid (os' k) = fork_pid (os k) ∧
       sigpipe_after (os' k) = sigpipe_after (os k) ∧
       (k ≠ j → os' k = os k).

(** ** Inputs and systems of the examples *)

Definition exits (code : Z) : fate :=
  {| pipe_fails := false; fork_pid := Some 4711%positive;
     wait_eintr := 1; wait_status := Some (W_EXITED code);
     sigpipe_after := None |}.

Definition killed_by (sig : Z) : fate :=
  {| pipe_fails := false; fork_pid := Some 4711%positive;
     wait_eintr := 0; wait_status := Some (W_SIGNALED sig);
     sigpipe_after := None |}.

Definition wait_fails : fate :=
  {| pipe_fails := false; fork_pid := Some 4711%positive;
     wait_eintr := 0; wait_status := None;
     sigpipe_after := None |}.

Definition fork_fails : fate :=
  {| pipe_fails := false; fork_pid := None;
     wait_eintr := 0; wait_status := Some (W_EXITED 0);
     sigpipe_after := None |}.

Definition pipe_fails_here : fate :=
  {| pipe_fails := true; fork_pid := Some 4711%positive;
     wait_eintr := 0; wait_status := Some (W_EXITED 0);
     sigpipe_after := None |}.

(** A child that exits with [code] without reading all of its
    standard input: it is gone once the parent has written [bytes]
    bytes to it. *)
Definition exits_after (bytes : nat) (code : Z) : fate :=
  {| pipe_fails := false; fork_pid := Some 4711%positive;
     wait_eintr := 0; wait_status := Some (W_EXITED code);
     sigpipe_after := Some bytes |}.

(** The first child gets [first], every later one exits 0. *)
Definition first_then_ok (first : fate) (k : nat) : fate :=
  match k with O => first | S _ => exits 0 end.

Definition block (label body : string) : list ascii :=
  Ln (String.append "-----BEGIN " (String.append label "-----")) ++
  Ln body ++
  Ln (String.append "-----END " (String.append label "-----")).

Definition two_blocks : list ascii :=
  block "ONE" "b25l" ++ Ln "in between" ++ block "TWO" "dHdv".

Definition three_blocks : list ascii :=
  Ln "preamble" ++ block "ONE" "b25l" ++ block "TWO" "dHdv" ++
  block "THREE" "dGhyZWU=".

Definition gpg : list string := ["gpg"; "--verify"]%string.

(** A block that is never closed. *)
Definition unterminated : list ascii :=
  block "ONE" "b25l" ++ Ln "-----BEGIN TWO-----" ++ Ln "dHdv".

(** A line of 1041 bytes, 1023 of them before a BEGIN marker. *)
Definition long_line : list ascii :=
  repeat "x"%char 1023 ++ Ln "-----BEGIN ONE-----" ++ Ln "-----END ONE-----".

(** A block labelled ALPHA with a BEGIN line and an END line of other
    blocks inside. *)
Definition nested : list ascii :=
  Ln "-----BEGIN ALPHA-----" ++ Ln "-----BEGIN BETA-----" ++
  Ln "-----END BETA-----" ++ Ln "-----END ALPHA-----" ++ Ln "trailer".

(** * The rest of [main]: help, version and the messages before the loop *)

(** The two streams of <stdio.h> that [main] prints on. *)
Inductive output := stdout | stderr.

(** [strrchr(s, c)]: what is left of [s] from the last [c] on. *)
Fixpoint strrchr (s : list ascii) (c : ascii) : option (list ascii) :=
  match s with
  | [] => None
  | x :: s' =>
      match strrchr s' c with
      | Some r => Some r
      | None => if Ascii.eqb x c then Some s else None
      end
  end.

(** Lines 48-56 of [help]: the name without its directories. *)
Definition program_name (name : list ascii) : list ascii :=
  match strrchr name "/"%char with
  | None => name
  | Some r => drop 1 r
  end.

Definition unlines (ls : list string) : string :=
  fold_right (λ l rest, l +:+ String NL rest) EmptyString ls.

(** The format of [help], line by line, with its three arguments in
    place. *)
Definition help_text (msg n : string) : string :=
  unlines [
    msg;
    EmptyString;
    "NAME";
    "  " +:+ n +:+ " - Split armoured data and process each one through a command.";
    EmptyString;
    "SYNOPSIS";
    "  " +:+ n +:+ " [-t times] [-v] [-h] [--] command [options]";
    EmptyString;
    "DESCRIPTION";
    EmptyString;
    "  The xarmour command parses multiple armoured text blocks containing";
    "  PEM encoded or PGP armoured data, and passes each one to the command";
    "  specified via stdin.";
    EmptyString;
    "  All text outside the armoured text block is ignored.";
    EmptyString;
    "OPTIONS";
    "  -t, --times t  Number of times command must be successful for xarmour to";
    "                 return success. If unset, xarmour will give up on first";
    "                 failure.";
    "  -h, --help     Display this help message.";
    EmptyString;
    "  -v, --version  Display the version number.";
    EmptyString;
    "ENVIRONMENT";
    "  The xarmour tool adds the following environment variables, which can be";
    "  used by scripts or for further processing.";
    EmptyString;
    "  XARMOUR_INDEX  Index of armoured text, starting at zero.";
    "  XARMOUR_COUNT  Command successes so far.";
    "  XARMOUR_TIMES  Times, if set.";
    "  XARMOUR_LABEL  Label of the armoured text.";
    EmptyString;
    "RETURN VALUE";
    "  The xarmour tool returns the return code from the";
    "  first executable to fail.";
    EmptyString;
    "  If the executable was interrupted with a signal, the return";
    "  code is the signal number plus 128.";
    EmptyString;
    "  If the executable could not be executed, or if the options";
    "  are invalid, the status 1 is returned.";
    EmptyString;
    "  If the times option is specified, we count the number of times the command";
    "  was successful. If the threshold was reached, we return 0. If the threshold";
    "  was not reached, we return 1. In this mode we process all armoured data even";
    "  if we could end early.";
    EmptyString;
    "EXAMPLES";
    "  In this trivial example, we print the label of each armoured text found.";
    EmptyString;
    String "009" "~$ cat chain.pem | xarmour -- printenv XARMOUR_LABEL";
    EmptyString;
    "  In this basic example, we split a series of detached PGP signatures,";
    "  passing each signature to the gpg command. If we find two valid signatures,";
    "  we succeed.";
    EmptyString;
    String "009" "~$ cat original_file.asc | xarmour -t 2 -- gpg --verify - original_file";
    EmptyString;
    "AUTHOR";
    "  Graham Leggett <minfrin@sharp.fm>"
  ].

(** [help(name, msg, code)]: what is printed, where, and the value
    returned.  [None] is the NULL message. *)
Definition help (name : list ascii) (msg : option string) (code : Z)
    : output * string * Z :=
  (if code =? 0 then stdout else stderr,
   help_text (from_option id EmptyString msg)
             (string_of_list_ascii (program_name name)),
   code).

(** [version()]; PACKAGE_STRING comes from config.h, which the
    sources do not include, and is a parameter here. *)
Definition version (package_string : string) : output * string * Z :=
  (stdout, package_string +:+ String NL EmptyString, 0).

(** Lines 146-174 with what they print: the option loop, then the
    test for a command.  [inl] is a return from [main] with its
    message, [inr] the value of [times] with which the input is read.
    (The message [getopt_long] itself prints for an option it does
    not know is not part of this.) *)
Fixpoint getopt_loop_io (name : list ascii) (package_string : string)
    (opts : list option_seen) (times : Z) : output * string * Z + Z :=
  match opts with
  | [] => inr times
  | opt_t value clean :: opts' =>
      if negb clean || (value <? 1)
      then inl (help name
                  (Some ("Count must be bigger than 0." +:+ String NL EmptyString))
                  EXIT_FAILURE)
      else getopt_loop_io name package_string opts' value
  | opt_h :: _ => inl (help name None 0)
  | opt_v :: _ => inl (version package_string)
  | opt_other :: _ => inl (help name None EXIT_FAILURE)
  end.

Definition startup (name : list ascii) (package_string : string)
    (opts : list option_seen) (command : list string)
    : output * string * Z + Z :=
  match getopt_loop_io name package_string opts 0 with
  | inl r => inl r
  | inr times =>
      match command with
      | [] => inl (stderr,
                   string_of_list_ascii name +:+
                     ": No command specified." +:+ String NL EmptyString,
                   EXIT_FAILURE)
      | _ :: _ => inr times
      end
  end.

(** * The books the parent keeps *)

(** The environment variables [main] sets for a child. *)
Definition XARMOUR : list string :=
  ["XARMOUR_INDEX"; "XARMOUR_COUNT"; "XARMOUR_TIMES"; "XARMOUR_LABEL"]%string.

(** The first line a child was given is a BEGIN marker, and the label
    in its environment is the label of that marker. *)
Definition labelled (ch : child) : Prop :=
  ∃ line more label,
    c_stdin ch = cstr line ++ more ∧
    is_marker begin line = Some label ∧
    c_env ch !! "XARMOUR_LABEL"%string = Some (string_of_list_ascii label).

Section Books.

Variable command : list string.
Variable environ : gmap string string.
Variable os : nat -> fate.

(** What holds of child number [k] among the children [ps], between
    two turns of the loop and at the end. *)
Record child_ok (ps : list child) (k : nat) (ch : child) : Prop := {
  ok_argv : c_argv ch = command;
  ok_pid : Some (c_pid ch) = Z.pos <$> fork_pid (os k);
  ok_index : c_env ch !! "XARMOUR_INDEX"%string = Some (ld (Z.of_nat k));
  ok_count : c_env ch !! "XARMOUR_COUNT"%string =
             Some (ld (successes (take k ps)));
  ok_inherit : ∀ v, v ∉ XARMOUR → c_env ch !! v = environ !! v;
  ok_label : labelled ch;
  ok_status : c_pipe_open ch = false → c_status ch = wait_status (os k);
  ok_open : c_pipe_open ch = true → c_status ch = None
}.

Record books (s : state) : Prop := {
  books_children : ∀ k ch, procs s !! k = Some ch → child_ok (procs s) k ch;
  books_count : count s = successes (procs s);
  books_index :
    index s = Z.of_nat (length (procs s) - open_pipes (procs s))
}.

End Books.

(** A system under which every child is made, no [write] to it raises
    SIGPIPE, and it exits 0. *)
Definition all_succeed (os : nat → fate) : Prop :=
  ∀ k, pipe_fails (os k) = false ∧ is_Some (fork_pid (os k)) ∧
       sigpipe_after (os k) = None ∧
       ∃ status, wait_status (os k) = Some status ∧ exit_ok status = true.

(** Two systems that differ at most in how often [waitpid] is
    interrupted. *)
Definition same_but_eintr (os os' : nat → fate) : Prop :=
  ∀ k, pipe_fails (os' k) = pipe_fails (os k) ∧
       fork_pid (os' k) = fork_pid (os k) ∧
       wait_status (os' k) = wait_status (os k) ∧
       sigpipe_after (os' k) = sigpipe_after (os k).

(** An option that lets the option loop go on: -t with a clean value
    of at least 1; and the value a -t carries. *)
Definition valid_count (o : option_seen) : Prop :=
  ∃ v, o = opt_t v true ∧ 1 ≤ v.

Definition t_value (o : option_seen) : option Z :=
  match o with opt_t v _ => Some v | _ => None end.

(** A label as [sscanf] assigns it: between 1 and 1000 bytes, none of
    them a dash or a NUL. *)
Definition label_shaped (label : list ascii) : Prop :=
  (1 ≤ length label ≤ 1000)%nat ∧ (DASH ∉ label) ∧ (NUL ∉ label).

(** A child that [waitpid] reports as neither exited nor killed. *)
Definition stopped : fate :=
  {| pipe_fails := false; fork_pid := Some 4711%positive;
     wait_eintr := 0; wait_status := Some W_OTHER;
     sigpipe_after := None |}.

(** The system of the examples, with [waitpid] interrupted three
    times for every child. *)
Definition interrupted (first : fate) (k : nat) : fate :=
  {| pipe_fails := pipe_fails (first_then_ok first k);
     fork_pid := fork_pid (first_then_ok first k);
     wait_eintr := 3;
     wait_status := wait_status (first_then_ok first k);
     sigpipe_after := sigpipe_after (first_then_ok first k) |}.

(** Text without armour. *)
Definition plain_text : list ascii :=
  Ln "Hello," ++ Ln "--- no armour here ---" ++ B "bye".
(** * Properties *)

(** Three lines and what the BEGIN format makes of them. *)
Example sscanf_begin_pem :
  sscanf (Ln "-----BEGIN CERTIFICATE-----") begin [] = (1, B "CERTIFICATE").
Proof. reflexivity. Qed.

Example sscanf_begin_plain : sscanf (Ln "MIIB") begin (B "old") = (0, B "old").
Proof. reflexivity. Qed.

Example sscanf_begin_short : sscanf (B "---") begin (B "old") = (EOF, B "old").
Proof. reflexivity. Qed.

(** ** [fgets] *)

Lemma fgets_store_app room stream stored rest :
  fgets_store room stream = (stored, rest) →
  stored ++ rest = stream ∧ (length stored ≤ room)%nat.
Proof.
  revert stream stored rest.
  induction room as [|room IH]; intros [|c stream] stored rest; simpl;
    try (intros [= <- <-]; simpl; split; [done | lia]).
  destruct (Ascii.eqb c NL).
  - intros [= <- <-]. simpl. split; [done | lia].
  - destruct (fgets_store room stream) as [st un] eqn:E.
    intros [= <- <-]. destruct (IH _ _ _ E) as [<- Hlen].
    simpl. split; [done | lia].
Qed.

Lemma fgets_store_nonempty room c stream :
  fst (fgets_store (S room) (c :: stream)) ≠ [].
Proof.
  cbn [fgets_store]. destruct (Ascii.eqb c NL); [done |].
  by destruct (fgets_store room stream).
Qed.

Lemma fgets_some stream line rest :
  fgets MAX_LINE stream = Some (line, rest) →
  line ++ rest = stream ∧ line ≠ [] ∧ (length line ≤ 1023)%nat.
Proof.
  unfold fgets. change (MAX_LINE - 1)%nat with (S 1022).
  destruct stream as [|c stream]; [done |]. intros E0.
  assert (E : fgets_store (S 1022) (c :: stream) = (line, rest)) by congruence.
  clear E0. pose proof (fgets_store_nonempty 1022 c stream) as Hne.
  rewrite E in Hne. apply fgets_store_app in E as [? ?]. done.
Qed.

Lemma fgets_none stream : fgets MAX_LINE stream = None ↔ stream = [].
Proof. destruct stream; simpl; split; done. Qed.

(** ** The run returns *)

Section Termination.

Variable times : Z.
Variable command : list string.
Variable environ : gmap string string.
Variable os : nat -> fate.

Local Notation "'turn1'" := (turn times command environ os).

Lemma turns_after_return n code eof s u :
  Nat.iter n turn1 (Exited code eof s u) = Exited code eof s u.
Proof. induction n as [|n IH]; simpl; [done | by rewrite IH]. Qed.

Lemma turns_after_signal n sig s u :
  Nat.iter n turn1 (Killed sig s u) = Killed sig s u.
Proof. induction n as [|n IH]; simpl; [done | by rewrite IH]. Qed.

(** The only signal the loop body lets end the parent is SIGPIPE. *)
Lemma loop_body_signal line s sig s' :
  loop_body times command environ os line s = Killed_by sig s' →
  sig = SIGPIPE.
Proof.
  unfold loop_body, seek_begin, seek_end. intros H.
  repeat case_match; simplify_eq; done.
Qed.

Lemma turns_enough n c :
  signalled c = None →
  (length (unread c) < n)%nat → ended (Nat.iter n turn1 c).
Proof.
  revert c. induction n as [|n IH]; intros c Hsig Hn; [lia |].
  rewrite Nat.iter_succ_r. destruct c as [s input | code eof s u | sig s u].
  - cbn [turn].
    destruct (fgets MAX_LINE input) as [[line rest]|] eqn:E.
    + apply fgets_some in E as (<- & Hne & _).
      assert (length rest < n)%nat.
      { simpl in Hn. rewrite length_app in Hn.
        destruct line; [done | simpl in Hn; lia]. }
      destruct (loop_body _ _ _ _ line s) as [s'|code s'|sig s'] eqn:Eb.
      * apply IH; [done | simpl; lia].
      * rewrite turns_after_return. left. by eexists _, _, _, _.
      * apply loop_body_signal in Eb as ->.
        rewrite turns_after_signal. right. by eexists _, _.
    + rewrite turns_after_return. left. by eexists _, _, _, _.
  - simpl. rewrite turns_after_return. left. by eexists _, _, _, _.
  - done.
Qed.

(** The run ends on every input, whatever the system answers: [main]
    returns, or SIGPIPE ends the parent. *)
Lemma xarmour_ends stdin :
  ended (xarmour times command environ os stdin).
Proof. apply turns_enough; [done | simpl; lia]. Qed.

Lemma ended_not_in_loop c : ended c → in_loop c = false.
Proof. by intros [(? & ? & ? & ? & ->)|(? & ? & ->)]. Qed.

Lemma turns_settled k c : in_loop c = false → Nat.iter k turn1 c = c.
Proof.
  destruct c as [s u|code eof s u|sig s u]; [done | |]; intros _.
  - apply turns_after_return.
  - apply turns_after_signal.
Qed.

(** Once the parent has left the loop, that is how the run ends. *)
Lemma run_for_settled n stdin :
  in_loop (run_for times command environ os n stdin) = false →
  xarmour times command environ os stdin =
  run_for times command environ os n stdin.
Proof.
  intros Hn. unfold xarmour, run_for in *.
  destruct (le_lt_dec n (S (length stdin))) as [Hle|Hlt].
  - replace (S (length stdin)) with ((S (length stdin) - n) + n)%nat by lia.
    rewrite Nat.iter_add. by apply turns_settled.
  - replace n with ((n - S (length stdin)) + S (length stdin))%nat by lia.
    rewrite Nat.iter_add. symmetry. apply turns_settled.
    apply ended_not_in_loop, xarmour_ends.
Qed.

End Termination.

(** ** What the two formats accept *)

Lemma strip_prefix_app p s s' : strip_prefix p s = Some s' ↔ s = p ++ s'.
Proof.
  revert s. induction p as [|c p IH]; intros s; simpl.
  - split; congruence.
  - destruct s as [|x s]; [split; done |].
    destruct (Ascii.eqb_spec x c) as [->|Hne].
    + rewrite IH. split; congruence.
    + split; congruence.
Qed.

Lemma sscanf_after_conversion tail s out n :
  n ≠ 0 → sscanf_from (map Lit tail) s out n = (n, out).
Proof.
  intros Hn. revert s. induction tail as [|c tail IH]; intros s; simpl; [done |].
  destruct s as [|x s].
  - destruct (Z.eqb_spec n 0); done.
  - destruct (Ascii.eqb x c); [apply IH | done].
Qed.

(** The model of [sscanf] on a marker format, in closed form: it
    returns 1 and assigns the label exactly when [marker_label] finds
    one, and otherwise returns 0 or EOF and leaves the array alone. *)
Lemma sscanf_marker_format kw tail s out :
  match marker_label kw s with
  | Some l => sscanf_from (marker_format kw tail) s out 0 = (1, l)
  | None =>
      snd (sscanf_from (marker_format kw tail) s out 0) = out ∧
      (fst (sscanf_from (marker_format kw tail) s out 0) = 0 ∨
       fst (sscanf_from (marker_format kw tail) s out 0) = EOF)
  end.
Proof.
  unfold marker_label, marker_format. revert s.
  induction kw as [|c kw IH]; intros s.
  - cbn [strip_prefix map app sscanf_from].
    destruct (skip_space s) as [|x t] eqn:Et.
    { replace (scan_not 1000 DASH []) with (@nil ascii) by done.
      simpl. auto. }
    destruct (scan_not 1000 DASH (x :: t)) as [|y l] eqn:Eg.
    { simpl. auto. }
    apply sscanf_after_conversion. done.
  - cbn [strip_prefix map app sscanf_from]. destruct s as [|x s].
    { simpl. auto. }
    destruct (Ascii.eqb x c); [apply IH | simpl; auto].
Qed.

Lemma begin_format : begin = marker_format (B "-----BEGIN") (B "-----").
Proof. reflexivity. Qed.

Lemma end_format : end_ = marker_format (B "-----END") (B "-----").
Proof. reflexivity. Qed.

Lemma sscanf_begin_cases buffer out :
  match marker_label (B "-----BEGIN") (cstr buffer) with
  | Some l => sscanf buffer begin out = (1, l)
  | None => snd (sscanf buffer begin out) = out ∧
            fst (sscanf buffer begin out) ≠ 1
  end.
Proof.
  unfold sscanf. rewrite begin_format.
  pose proof (sscanf_marker_format (B "-----BEGIN") (B "-----") (cstr buffer) out) as H.
  destruct (marker_label _ _); [done |].
  destruct H as [? [H|H]]; rewrite H; done.
Qed.

Lemma sscanf_end_cases buffer out :
  match marker_label (B "-----END") (cstr buffer) with
  | Some l => sscanf buffer end_ out = (1, l)
  | None => snd (sscanf buffer end_ out) = out ∧
            fst (sscanf buffer end_ out) ≠ 1
  end.
Proof.
  unfold sscanf. rewrite end_format.
  pose proof (sscanf_marker_format (B "-----END") (B "-----") (cstr buffer) out) as H.
  destruct (marker_label _ _); [done |].
  destruct H as [? [H|H]]; rewrite H; done.
Qed.

Lemma is_marker_begin buffer :
  is_marker begin buffer = marker_label (B "-----BEGIN") (cstr buffer).
Proof.
  unfold is_marker. pose proof (sscanf_begin_cases buffer []) as H.
  destruct (marker_label _ _).
  - by rewrite H.
  - destruct (sscanf buffer begin []) as [n l]. simpl in H.
    destruct H as [_ H]. by destruct (Z.eqb_spec n 1).
Qed.

Lemma is_marker_end buffer :
  is_marker end_ buffer = marker_label (B "-----END") (cstr buffer).
Proof.
  unfold is_marker. pose proof (sscanf_end_cases buffer []) as H.
  destruct (marker_label _ _).
  - by rewrite H.
  - destruct (sscanf buffer end_ []) as [n l]. simpl in H.
    destruct H as [_ H]. by destruct (Z.eqb_spec n 1).
Qed.

(** A line that the BEGIN format accepts is not accepted by the END
    format: after the five dashes one wants a B and the other an E. *)
Lemma begin_is_not_end s l :
  marker_label (B "-----BEGIN") s = Some l → marker_label (B "-----END") s = None.
Proof.
  unfold marker_label.
  destruct (strip_prefix (B "-----BEGIN") s) as [s'|] eqn:E; [|done].
  apply strip_prefix_app in E as ->. done.
Qed.

Lemma N_of_ascii_NUL x : N_of_ascii x = 0%N → x = NUL.
Proof.
  intros H. rewrite <- (ascii_N_embedding x), H. reflexivity.
Qed.

(** On C strings, which hold no NUL, [strcmp] is 0 exactly for equal
    byte sequences. *)
Lemma strcmp_eq a b : NUL ∉ a → NUL ∉ b → strcmp a b = 0 ↔ a = b.
Proof.
  revert b. induction a as [|x a IH]; intros [|y b] Ha Hb; simpl.
  - done.
  - split; [|done]. intros H. destruct Hb.
    assert (y = NUL) as -> by (apply N_of_ascii_NUL; lia). left.
  - split; [|done]. intros H. destruct Ha.
    assert (x = NUL) as -> by (apply N_of_ascii_NUL; lia). left.
  - apply not_elem_of_cons in Ha as [_ Ha]. apply not_elem_of_cons in Hb as [_ Hb].
    destruct (Ascii.eqb_spec x y) as [->|Hne].
    + rewrite (IH b Ha Hb). split; congruence.
    + split; [|congruence]. intros H. exfalso. apply Hne.
      rewrite <- (ascii_N_embedding x), <- (ascii_N_embedding y).
      f_equal. lia.
Qed.

Lemma cstr_no_NUL buf : NUL ∉ cstr buf.
Proof.
  induction buf as [|c buf IH]; simpl; [apply not_elem_of_nil |].
  destruct (Ascii.eqb_spec c NUL); [apply not_elem_of_nil |].
  apply not_elem_of_cons. done.
Qed.

Lemma cstr_id buf : NUL ∉ buf → cstr buf = buf.
Proof.
  induction buf as [|c buf IH]; simpl; [done |].
  intros [Hc Hb]%not_elem_of_cons.
  destruct (Ascii.eqb_spec c NUL); [done |]. by rewrite IH.
Qed.

Lemma cstr_idemp buf : cstr (cstr buf) = cstr buf.
Proof. apply cstr_id, cstr_no_NUL. Qed.

Lemma take_strlen buf : take (strlen buf) buf = cstr buf.
Proof.
  unfold strlen. induction buf as [|c buf IH]; simpl; [done |].
  destruct (Ascii.eqb c NUL); simpl; [done | by rewrite IH].
Qed.

Lemma skip_space_suffix s : ∃ ws, s = ws ++ skip_space s ∧ Forall (λ c, isspace c = true) ws.
Proof.
  induction s as [|c s (ws & IH & Hws)]; simpl.
  - by exists [].
  - destruct (isspace c) eqn:E.
    + exists (c :: ws). split; [simpl; congruence | by constructor].
    + by exists [].
Qed.

Lemma scan_not_prefix width c s : ∃ tail, s = scan_not width c s ++ tail.
Proof.
  revert s. induction width as [|w IH]; intros [|x s]; simpl; eauto.
  destruct (Ascii.eqb x c); simpl; eauto.
  destruct (IH s) as [tail Ht]. exists tail. congruence.
Qed.

Lemma marker_label_no_NUL kw s l :
  NUL ∉ s → marker_label kw s = Some l → NUL ∉ l.
Proof.
  unfold marker_label. intros Hs.
  destruct (strip_prefix kw s) as [s'|] eqn:E; [|done].
  apply strip_prefix_app in E as ->.
  destruct (skip_space_suffix s') as (ws & Hws & _).
  destruct (scan_not_prefix 1000 DASH (skip_space s')) as [tail Ht].
  destruct (scan_not 1000 DASH (skip_space s')) as [|c l'] eqn:Eg; [done |].
  intros [= <-]. rewrite Hws, Ht in Hs.
  rewrite !not_elem_of_app in Hs. tauto.
Qed.

(** ** Children and what becomes of them *)

Lemma alter_last {A} (g : A → A) (ps : list A) (ch : A) :
  alter g (length ps) (ps ++ [ch]) = ps ++ [g ch].
Proof.
  replace (length ps) with (length ps + 0)%nat by lia.
  by rewrite alter_app_r.
Qed.

Lemma successes_app ps qs : successes (ps ++ qs) = successes ps + successes qs.
Proof. unfold successes. rewrite List.filter_app, length_app. lia. Qed.

Lemma successes_one ch : successes [ch] = if exited_ok ch then 1 else 0.
Proof. unfold successes. simpl. by destruct (exited_ok ch). Qed.

Lemma finished_not_active ps : Forall finished ps → active ps = O.
Proof.
  unfold active. induction 1 as [|ch ps [_ [st Hst]] _ IH]; simpl; [done |].
  unfold is_active. by rewrite Hst.
Qed.

Lemma finished_not_open ps : Forall finished ps → open_pipes ps = O.
Proof.
  unfold open_pipes. induction 1 as [|ch ps [Hp _] _ IH]; simpl; [done |].
  by rewrite Hp.
Qed.

Lemma active_app ps qs : active (ps ++ qs) = (active ps + active qs)%nat.
Proof. unfold active. by rewrite List.filter_app, length_app. Qed.

Lemma open_pipes_app ps qs :
  open_pipes (ps ++ qs) = (open_pipes ps + open_pipes qs)%nat.
Proof. unfold open_pipes. by rewrite List.filter_app, length_app. Qed.

Lemma active_one ch : (active [ch] ≤ 1)%nat.
Proof. unfold active. simpl. destruct (is_active ch); simpl; lia. Qed.

Lemma open_pipes_one ch : (open_pipes [ch] ≤ 1)%nat.
Proof. unfold open_pipes. simpl. destruct (c_pipe_open ch); simpl; lia. Qed.

(** ** The invariant of the loop *)

Section Preservation.

Variable times : Z.
Variable command : list string.
Variable environ : gmap string string.
Variable os : nat -> fate.

Local Notation "'seek_begin1'" := (seek_begin times command environ os).
Local Notation "'seek_end1'" := (seek_end times os).
Local Notation "'loop_body1'" := (loop_body times command environ os).
Local Notation "'turn1'" := (turn times command environ os).
Local Notation "'run_for1'" := (run_for times command environ os).
Local Notation "'xarmour1'" := (xarmour times command environ os).
Local Notation "'wf1'" := (wf times).
Local Notation "'returns1'" := (returns times os).
Local Notation "'good1'" := (good times os).
Local Notation "'cut_short1'" := (cut_short times os).
Local Notation "'knows_times1'" := (knows_times times).
Local Notation "'none_failed1'" := (none_failed times).

Lemma wf_start : wf1 start.
Proof.
  split; simpl.
  - constructor.
  - done.
  - apply not_elem_of_nil.
  - intros _. constructor.
  - lia.
  - intros _. constructor.
Qed.

Lemma waitpid_loop_final n final : waitpid_loop n final = final.
Proof. induction n; simpl; done. Qed.

Lemma child_env_times s label :
  child_env times environ s label !! "XARMOUR_TIMES" = Some (ld times).
Proof.
  unfold child_env. rewrite lookup_insert_ne by done.
  by rewrite lookup_insert_eq.
Qed.

Lemma sscanf_begin_label buffer out n label :
  NUL ∉ out → sscanf buffer begin out = (n, label) → NUL ∉ label.
Proof.
  intros Hout E. pose proof (sscanf_begin_cases buffer out) as H.
  destruct (marker_label _ _) as [l|] eqn:El.
  - rewrite E in H. injection H as _ ->.
    eapply marker_label_no_NUL; [apply cstr_no_NUL | done].
  - rewrite E in H. simpl in H. destruct H as [-> _]. done.
Qed.

Lemma broken_pipe_some ft before n :
  broken_pipe ft before n = true → is_Some (sigpipe_after ft).
Proof. unfold broken_pipe. destruct (sigpipe_after ft); [by eexists | done]. Qed.

Lemma broken_pipe_never ft before n :
  sigpipe_after ft = None → broken_pipe ft before n = false.
Proof. unfold broken_pipe. by intros ->. Qed.

Lemma seek_begin_good buffer s :
  wf1 s →
  match seek_begin1 buffer s with
  | Next s' => wf1 s'
  | Return code s' => returns1 code false s'
  | Killed_by _ _ => False
  end.
Proof.
  intros Hs. unfold seek_begin.
  destruct (Z.ltb_spec (f s) 0) as [Hf|Hf]; [|done].
  destruct (sscanf buffer begin (blabel s)) as [n label] eqn:E.
  assert (Hl : NUL ∉ label).
  { eapply sscanf_begin_label; [apply (wf_label _ _ Hs) | done]. }
  destruct Hs as [Henv Hcount _ Hidle _ Hstrict].
  specialize (Hidle Hf).
  assert (Hwf : ∀ f' fd, f' < 0 →
    wf1 {| f := f'; blabel := label; index := index s; count := count s;
          pipefd := fd; procs := procs s |}).
  { intros f' fd Hf'. split; simpl; try done. lia. }
  destruct (n =? 1); [|by apply Hwf].
  destruct (pipe_fails (os (length (procs s)))) eqn:Ep.
  { apply ret_spawn; [by apply Hwf | done | by left]. }
  destruct (fork_pid (os (length (procs s)))) as [pid|] eqn:Ef.
  - split; simpl.
    + apply Forall_app. split; [done |].
      constructor; [|done]. apply child_env_times.
    + rewrite successes_app, successes_one. simpl. lia.
    + done.
    + lia.
    + intros _. eexists _, _. repeat split; done.
    + intros Ht. apply Forall_app. split; [by apply Hstrict |].
      constructor; [|done]. by left.
  - apply ret_spawn; [apply Hwf; lia | simpl; lia | by right].
Qed.

Lemma seek_end_good buffer s :
  wf1 s →
  match seek_end1 buffer s with
  | Next s' => wf1 s'
  | Return code s' => returns1 code false s'
  | Killed_by sig s' => cut_short1 sig s'
  end.
Proof.
  intros Hs. unfold seek_end.
  destruct (Z.leb_spec 0 (f s)) as [Hf|Hf]; [|done].
  destruct Hs as [Henv Hcount Hlabel _ Hopen Hstrict].
  destruct (Hopen Hf) as (ps & ch & Hps & Hfd & Hfin & Hpipe & Hst).
  rewrite Hps in Henv, Hcount, Hstrict.
  apply Forall_app in Henv as [Henv Hch]. apply Forall_cons in Hch as [Hch _].
  assert (Hstrict' : none_failed1 ps).
  { intros Ht. by apply Hstrict, Forall_app in Ht as [? _]. }
  rewrite successes_app, successes_one in Hcount.
  unfold exited_ok in Hcount. rewrite Hst in Hcount.
  rewrite Hps, Hfd. unfold write, handed, close, reaped. rewrite alter_last.
  assert (Hin : wf1 {| f := f s; blabel := blabel s; index := index s;
    count := count s; pipefd := length ps;
    procs := ps ++ [child_write (take (strlen buffer) buffer) ch] |}).
  { split; simpl.
    + apply Forall_app. split; [done |]. by constructor.
    + rewrite successes_app, successes_one. unfold exited_ok. simpl.
      rewrite Hst. lia.
    + done.
    + lia.
    + intros _. eexists _, _. repeat split; done.
    + intros Ht. apply Forall_app. split; [by apply Hstrict' |].
      constructor; [|done]. by left. }
  destruct (broken_pipe _ _ _) eqn:Ebp; cbv iota.
  { split; [done |]. split; [done |]. split; [done |].
    by apply broken_pipe_some in Ebp. }
  destruct (sscanf buffer end_ []) as [n elabel].
  destruct ((n =? 1) && (strcmp (blabel s) elabel =? 0)); [|done].
  - rewrite alter_last, waitpid_loop_final.
    destruct (wait_status (os (length ps))) as [status|] eqn:Ew.
    + rewrite alter_last.
      assert (Hfin' : Forall finished
        (ps ++ [child_reap status (child_close (child_write (take (strlen buffer) buffer) ch))])).
      { apply Forall_app. split; [done |]. constructor; [|done].
        split; simpl; [done | by eexists]. }
      assert (Henv' : Forall knows_times1
        (ps ++ [child_reap status (child_close (child_write (take (strlen buffer) buffer) ch))])).
      { apply Forall_app. split; [done |]. by constructor. }
      destruct (exit_ok status) eqn:Eok.
      * fold (exit_ok status). rewrite Eok.
        split; simpl.
        -- done.
        -- rewrite successes_app, successes_one. unfold exited_ok. simpl.
           rewrite Eok. lia.
        -- done.
        -- done.
        -- lia.
        -- intros Ht. apply Forall_app. split; [by apply Hstrict' |].
           constructor; [|done]. right. unfold exited_ok. simpl. done.
      * fold (exit_ok status). rewrite Eok.
        destruct (Z.eqb_spec times 0) as [Ht|Ht]; simpl.
        -- assert (Hret : ∀ f' fd, returns1 (translated status) false
             {| f := f'; blabel := blabel s; index := index s + 1;
                count := count s; pipefd := fd;
                procs := ps ++ [child_reap status (child_close
                  (child_write (take (strlen buffer) buffer) ch))] |}).
           { intros f' fd. eapply ret_status; simpl; done. }
           destruct status as [code|sig|]; simpl; apply Hret.
        -- split; simpl.
           ++ done.
           ++ rewrite successes_app, successes_one. unfold exited_ok. simpl.
              rewrite Eok. lia.
           ++ done.
           ++ done.
           ++ lia.
           ++ intros Ht'. contradiction.
    + eapply ret_wait; simpl; try done.
      * apply Forall_app. split; [done |]. by constructor.
      * intros Ht. apply Forall_app. split; [by apply Hstrict' |].
        constructor; [|done]. by left.
Qed.

Lemma loop_body_good buffer s :
  wf1 s →
  match loop_body1 buffer s with
  | Next s' => wf1 s'
  | Return code s' => returns1 code false s'
  | Killed_by sig s' => cut_short1 sig s'
  end.
Proof.
  intros Hs. unfold loop_body.
  pose proof (seek_begin_good buffer s Hs) as H1.
  destruct (seek_begin1 buffer s) as [s1|code s1|sig s1]; [|done..].
  by apply seek_end_good.
Qed.

Lemma turn_good c : good1 c → good1 (turn1 c).
Proof.
  destruct c as [s input|code eof s u|sig s u]; simpl; [|done..].
  intros Hs. destruct (fgets MAX_LINE input) as [[line rest]|].
  - pose proof (loop_body_good line s Hs) as H.
    by destruct (loop_body1 line s).
  - by apply ret_eof.
Qed.

Lemma run_for_good n stdin : good1 (run_for1 n stdin).
Proof.
  unfold run_for. induction n as [|n IH]; simpl.
  - apply wf_start.
  - by apply turn_good.
Qed.

Lemma xarmour_good stdin : good1 (xarmour1 stdin).
Proof. apply run_for_good. Qed.

End Preservation.

(** ** The counters *)

Section Counters.

Variable times : Z.
Variable command : list string.
Variable environ : gmap string string.
Variable os : nat -> fate.

Lemma loop_body_counters buffer s :
  let s' := flow_state (loop_body times command environ os buffer s) in
  count s ≤ count s' ∧ index s ≤ index s' ≤ index s + 1 ∧
  count s' - count s ≤ index s' - index s.
Proof.
  cbv zeta. unfold loop_body, seek_begin, seek_end.
  repeat case_match; simplify_eq; simpl; lia.
Qed.

(** After [n] turns of the loop neither counter is above [n]. *)
Lemma counters_bounded n stdin :
  let s := config_state (run_for times command environ os n stdin) in
  0 ≤ count s ≤ index s ∧ index s ≤ Z.of_nat n.
Proof.
  unfold run_for. induction n as [|n IH]; [simpl; lia |].
  rewrite Nat2Z.inj_succ. simpl.
  destruct (Nat.iter n _ _) as [s u|code eof s u|sig s u]; simpl in *; [|lia..].
  destruct (fgets MAX_LINE u) as [[line rest]|]; simpl; [|lia].
  pose proof (loop_body_counters line s) as H. simpl in H.
  destruct (loop_body times command environ os line s); simpl in *; lia.
Qed.

End Counters.

(** ** The option loop *)

Lemma getopt_loop_times opts t0 times :
  getopt_loop opts t0 = inr times →
  (times = t0 ∧ ∀ v b, opt_t v b ∉ opts) ∨
  (1 ≤ times ∧ ∃ b, opt_t times b ∈ opts).
Proof.
  revert t0. induction opts as [|o opts IH]; intros t0; simpl.
  - intros [= <-]. left. split; [done |]. intros v b H. by apply elem_of_nil in H.
  - destruct o as [v b| | |]; try done.
    destruct (negb b || (v <? 1)) eqn:E; [done |].
    apply orb_false_elim in E as [_ Hv]. apply Z.ltb_ge in Hv.
    intros H. destruct (IH _ H) as [[-> _]|[Ht [b' Hin]]].
    + right. split; [done |]. exists b. left.
    + right. split; [done |]. exists b'. by right.
Qed.

Lemma ld_0 : ld 0 = "0"%string.
Proof. reflexivity. Qed.

(** ** What the invariant gives at the end of a run *)

Section Outcome.

Variable times : Z.
Variable command : list string.
Variable environ : gmap string string.
Variable os : nat -> fate.

Local Notation "'xarmour1'" := (xarmour times command environ os).
Local Notation "'run_for1'" := (run_for times command environ os).

Lemma good_knows_times c :
  good times os c → Forall (knows_times times) (children c).
Proof.
  destruct c as [s u|code eof s u|sig s u]; unfold children; simpl.
  - apply wf_env.
  - destruct 1; try done; by apply wf_env.
  - intros (_ & Hs & _). by apply wf_env.
Qed.

Lemma eof_all_read n stdin :
  ended_at_eof (run_for1 n stdin) = true → unread (run_for1 n stdin) = [].
Proof.
  unfold run_for. induction n as [|n IH]; simpl; [done |].
  destruct (Nat.iter n _ _) as [s u|code eof s u|sig s u]; simpl; [|done..].
  destruct (fgets MAX_LINE u) as [[line rest]|] eqn:E.
  - by destruct (loop_body _ _ _ _ line s).
  - intros _. by apply fgets_none.
Qed.

End Outcome.

(** ** The scan set *)

Lemma scan_not_spec width c s :
  ∃ rest, s = scan_not width c s ++ rest ∧ (c ∉ scan_not width c s) ∧
          (length (scan_not width c s) ≤ width)%nat ∧
          (length (scan_not width c s) = width ∨ rest = [] ∨
           head rest = Some c).
Proof.
  revert s. induction width as [|w IH]; intros [|x s]; simpl.
  - exists []. split; [done |]. split; [apply not_elem_of_nil |]. auto.
  - exists (x :: s). split; [done |]. split; [apply not_elem_of_nil |]. auto.
  - exists []. split; [done |]. split; [apply not_elem_of_nil |].
    split; [lia | auto].
  - destruct (Ascii.eqb_spec x c) as [->|Hne].
    + exists (c :: s). split; [done |]. split; [apply not_elem_of_nil |].
      simpl. split; [lia | auto].
    + destruct (IH s) as (rest & Hs & Hno & Hlen & Hmax). exists rest.
      split; [simpl; congruence |]. split.
      { apply not_elem_of_cons. split; [congruence | done]. }
      simpl. split; [lia |]. destruct Hmax as [?|[?|?]]; auto.
Qed.


(** ** One turn of the loop with a block open *)

Section OpenBlock.

Variable times : Z.
Variable command : list string.
Variable environ : gmap string string.
Variable os : nat -> fate.

Local Notation "'turn1'" := (turn times command environ os).
Local Notation "'run_for1'" := (run_for times command environ os).

(** The test of line 255 holds exactly when the line is an END marker
    with the label of the open block. *)
Lemma end_test label buffer :
  NUL ∉ label →
  (let '(n, elabel) := sscanf buffer end_ [] in
   (n =? 1) && (strcmp label elabel =? 0)) =
  bool_decide (is_marker end_ buffer = Some label).
Proof.
  intros Hl. unfold is_marker.
  pose proof (sscanf_end_cases buffer []) as H.
  destruct (marker_label (B "-----END") (cstr buffer)) as [l|] eqn:El.
  - rewrite H. simpl.
    assert (Hnl : NUL ∉ l).
    { eapply marker_label_no_NUL; [apply cstr_no_NUL | done]. }
    destruct (Z.eqb_spec (strcmp label l) 0) as [E|E].
    + apply strcmp_eq in E as ->; [|done..]. by rewrite bool_decide_eq_true_2.
    + rewrite bool_decide_eq_false_2; [done |]. intros [= ->].
      apply E. by apply strcmp_eq.
  - destruct (sscanf buffer end_ []) as [n elabel]. simpl in H.
    destruct H as [_ Hn]. destruct (Z.eqb_spec n 1); [done |]. done.
Qed.

Lemma seek_begin_open buffer s :
  0 ≤ f s → seek_begin times command environ os buffer s = Next s.
Proof.
  intros Hf. unfold seek_begin. destruct (Z.ltb_spec (f s) 0); [lia | done].
Qed.

Lemma written_last ps ch : written (length ps) (ps ++ [ch]) = length (c_stdin ch).
Proof. unfold written. by rewrite list_lookup_middle. Qed.

(** A [write] that raises SIGPIPE: the line has been handed to it and
    the parent is no more. *)
Lemma loop_body_broken buffer s ps ch :
  0 ≤ f s → procs s = ps ++ [ch] → pipefd s = length ps →
  broken_pipe (os (length ps)) (length (c_stdin ch)) (strlen buffer) = true →
  loop_body times command environ os buffer s =
    Killed_by SIGPIPE
      {| f := f s; blabel := blabel s; index := index s; count := count s;
         pipefd := pipefd s;
         procs := ps ++ [child_write (cstr buffer) ch] |}.
Proof.
  intros Hf Hps Hfd Hbp. unfold loop_body.
  rewrite seek_begin_open by done. unfold seek_end.
  destruct (Z.leb_spec 0 (f s)); [|lia].
  unfold write. rewrite Hps, Hfd, written_last, Hbp. cbv iota.
  unfold handed. by rewrite alter_last, take_strlen.
Qed.

(** A line that does not end the open block: it is written to the
    child and nothing else changes. *)
Lemma loop_body_inside buffer s ps ch :
  wf times s → 0 ≤ f s → procs s = ps ++ [ch] → pipefd s = length ps →
  broken_pipe (os (length ps)) (length (c_stdin ch)) (strlen buffer) = false →
  is_marker end_ buffer ≠ Some (blabel s) →
  loop_body times command environ os buffer s =
    Next {| f := f s; blabel := blabel s; index := index s; count := count s;
            pipefd := pipefd s;
            procs := ps ++ [child_write (cstr buffer) ch] |}.
Proof.
  intros Hwf Hf Hps Hfd Hbp Hne. unfold loop_body.
  rewrite seek_begin_open by done. unfold seek_end.
  destruct (Z.leb_spec 0 (f s)); [|lia].
  pose proof (end_test (blabel s) buffer (wf_label _ _ Hwf)) as Ht.
  unfold write. rewrite Hps, Hfd, written_last, Hbp. cbv iota.
  destruct (sscanf buffer end_ []) as [n elabel].
  rewrite Ht, bool_decide_eq_false_2 by done.
  unfold handed. by rewrite alter_last, take_strlen.
Qed.

(** The line that ends the open block: it is written to the child,
    the pipe is closed, and the block is open no more, whether [main]
    goes on or returns. *)
Lemma loop_body_end buffer s ps ch :
  wf times s → 0 ≤ f s → procs s = ps ++ [ch] → pipefd s = length ps →
  broken_pipe (os (length ps)) (length (c_stdin ch)) (strlen buffer) = false →
  is_marker end_ buffer = Some (blabel s) →
  ∃ ch', procs (flow_state (loop_body times command environ os buffer s))
           = ps ++ [ch'] ∧
         c_stdin ch' = c_stdin ch ++ cstr buffer ∧
         c_pipe_open ch' = false ∧
         match loop_body times command environ os buffer s with
         | Next s' => f s' = -1
         | Return _ _ => True
         | Killed_by _ _ => False
         end.
Proof.
  intros Hwf Hf Hps Hfd Hbp Heq. unfold loop_body.
  rewrite seek_begin_open by done. unfold seek_end.
  destruct (Z.leb_spec 0 (f s)); [|lia].
  pose proof (end_test (blabel s) buffer (wf_label _ _ Hwf)) as Ht.
  unfold write. rewrite Hps, Hfd, written_last, Hbp. cbv iota.
  destruct (sscanf buffer end_ []) as [n elabel].
  rewrite Ht, bool_decide_eq_true_2 by done.
  unfold handed, close, reaped. rewrite !alter_last, take_strlen.
  rewrite waitpid_loop_final.
  destruct (wait_status (os (length ps))) as [status|].
  - rewrite alter_last.
    exists (child_reap status (child_close (child_write (cstr buffer) ch))).
    destruct (WIFEXITED status && (WEXITSTATUS status =? EXIT_SUCCESS));
      [simpl; done |].
    destruct (negb (times =? 0)); [simpl; done |].
    destruct (WIFEXITED status); [simpl; done |].
    destruct (WIFSIGNALED status); simpl; done.
  - exists (child_close (child_write (cstr buffer) ch)). simpl. done.
Qed.

(** The line that ends the open block, in full: what [main] does
    with what [waitpid] reports. *)
Lemma loop_body_end_flow buffer s ps ch :
  wf times s → 0 ≤ f s → procs s = ps ++ [ch] → pipefd s = length ps →
  broken_pipe (os (length ps)) (length (c_stdin ch)) (strlen buffer) = false →
  is_marker end_ buffer = Some (blabel s) →
  let fed := child_close (child_write (cstr buffer) ch) in
  let at_wait f' count' ch' :=
    {| f := f'; blabel := blabel s; index := index s + 1; count := count';
       pipefd := pipefd s; procs := ps ++ [ch'] |} in
  loop_body times command environ os buffer s =
    match wait_status (os (length ps)) with
    | None => Return EXIT_FAILURE (at_wait (f s) (count s) fed)
    | Some status =>
        if exit_ok status
        then Next (at_wait (-1) (count s + 1) (child_reap status fed))
        else if negb (times =? 0)
        then Next (at_wait (-1) (count s) (child_reap status fed))
        else Return (translated status)
               (at_wait (f s) (count s) (child_reap status fed))
    end.
Proof.
  intros Hwf Hf Hps Hfd Hbp Heq. cbv zeta. unfold loop_body.
  rewrite seek_begin_open by done. unfold seek_end.
  destruct (Z.leb_spec 0 (f s)); [|lia].
  pose proof (end_test (blabel s) buffer (wf_label _ _ Hwf)) as Ht.
  unfold write. rewrite Hps, Hfd, written_last, Hbp. cbv iota.
  destruct (sscanf buffer end_ []) as [n elabel].
  rewrite Ht, bool_decide_eq_true_2 by done.
  unfold handed, close, reaped. rewrite !alter_last, take_strlen.
  rewrite waitpid_loop_final.
  destruct (wait_status (os (length ps))) as [status|]; [|done].
  rewrite alter_last. fold (exit_ok status).
  destruct (exit_ok status) eqn:Eok; [done |].
  destruct (negb (times =? 0)); [done |].
  destruct status as [code|sig|]; simpl; done.
Qed.

(** A BEGIN marker read while no block is open, and [pipe] or [fork]
    failing: [main] returns 1 and no child is made. *)
Lemma seek_begin_fails buffer s L :
  f s < 0 → is_marker begin buffer = Some L →
  pipe_fails (os (length (procs s))) = true ∨
    fork_pid (os (length (procs s))) = None →
  ∃ s', loop_body times command environ os buffer s = Return EXIT_FAILURE s' ∧
        procs s' = procs s.
Proof.
  intros Hf Hm Hos. unfold loop_body, seek_begin.
  destruct (Z.ltb_spec (f s) 0); [|lia].
  rewrite is_marker_begin in Hm.
  pose proof (sscanf_begin_cases buffer (blabel s)) as Hs.
  rewrite Hm in Hs. rewrite Hs. simpl.
  destruct (pipe_fails (os (length (procs s)))) eqn:Ep; [by eexists |].
  destruct Hos as [Hos|Hos]; [done |]. rewrite Hos. by eexists.
Qed.

Lemma active_bound ps ch :
  Forall finished ps → (active (ps ++ [ch]) ≤ 1 ∧ open_pipes (ps ++ [ch]) ≤ 1)%nat.
Proof.
  intros Hfin. rewrite active_app, open_pipes_app.
  rewrite finished_not_active, finished_not_open by done.
  pose proof (active_one ch). pose proof (open_pipes_one ch). simpl. lia.
Qed.

(** At every point of every run at most one child has not been reaped
    and at most one pipe is open. *)
Lemma good_one_child c :
  good times os c →
  (active (children c) ≤ 1 ∧ open_pipes (children c) ≤ 1)%nat.
Proof.
  assert (Hwf : ∀ s, wf times s →
    (active (procs s) ≤ 1 ∧ open_pipes (procs s) ≤ 1)%nat).
  { intros s Hs. destruct (Z.lt_ge_cases (f s) 0) as [Hf|Hf].
    - pose proof (wf_idle _ _ Hs Hf) as Hfin.
      rewrite finished_not_active, finished_not_open by done. lia.
    - destruct (wf_open _ _ Hs Hf) as (ps & ch & -> & _ & Hfin & _).
      by apply active_bound. }
  destruct c as [s u|code eof s u|sig s u]; unfold children; simpl;
    [apply Hwf | | intros (_ & Hs & _); by apply Hwf].
  destruct 1 as [s Hs|s Hs|s ps ch Hps Hfin|s ps ch st _ Hps Hfin];
    try (by apply Hwf); rewrite Hps; by apply active_bound.
Qed.

(** Seeking the start of the armour: a line that is no BEGIN marker
    changes nothing that matters; a BEGIN marker makes a child with an
    empty input and the marker's label, or ends the run when [pipe] or
    [fork] fails. *)
Lemma seek_begin_cases buffer s :
  f s < 0 →
  match seek_begin times command environ os buffer s with
  | Next s' =>
      (is_marker begin buffer = None ∧ f s' < 0 ∧ procs s' = procs s ∧
       count s' = count s) ∨
      (is_marker begin buffer = Some (blabel s') ∧ 0 ≤ f s' ∧
       pipefd s' = length (procs s) ∧ count s' = count s ∧
       ∃ ch, procs s' = procs s ++ [ch] ∧ c_stdin ch = [] ∧
             c_pipe_open ch = true ∧ c_status ch = None)
  | Return code s' =>
      is_Some (is_marker begin buffer) ∧ procs s' = procs s ∧
      code = EXIT_FAILURE ∧
      (pipe_fails (os (length (procs s))) = true ∨
       fork_pid (os (length (procs s))) = None)
  | Killed_by _ _ => False
  end.
Proof.
  intros Hf. unfold seek_begin. destruct (Z.ltb_spec (f s) 0); [|lia].
  rewrite is_marker_begin.
  pose proof (sscanf_begin_cases buffer (blabel s)) as Hs.
  destruct (marker_label (B "-----BEGIN") (cstr buffer)) as [l|].
  - rewrite Hs. simpl.
    destruct (pipe_fails (os (length (procs s)))) eqn:Ep; [by eauto 6 |].
    destruct (fork_pid (os (length (procs s)))) as [pid|] eqn:Ef;
      [|by eauto 6].
    right. simpl. split; [done |]. split; [lia |]. split; [done |].
    split; [done |]. by eexists.
  - destruct (sscanf buffer begin (blabel s)) as [n label]. simpl in Hs.
    destruct Hs as [_ Hn]. destruct (Z.eqb_spec n 1); [done |].
    left. simpl. done.
Qed.

Lemma begin_line_is_no_end buffer l label :
  is_marker begin buffer = Some l → is_marker end_ buffer ≠ Some label.
Proof.
  rewrite is_marker_begin, is_marker_end. intros H.
  by rewrite (begin_is_not_end _ _ H).
Qed.

Lemma open_label_running n stdin L :
  open_label (run_for1 n stdin) = Some L →
  ∃ s u ps ch,
    run_for1 n stdin = Running s u ∧ wf times s ∧ 0 ≤ f s ∧ blabel s = L ∧
    procs s = ps ++ [ch] ∧ pipefd s = length ps ∧ Forall finished ps ∧
    live ch.
Proof.
  pose proof (run_for_good times command environ os n stdin) as Hgood.
  destruct (run_for1 n stdin) as [s u|code eof s u|sig s u]; simpl; [|done..].
  destruct (Z.leb_spec 0 (f s)) as [Hf|Hf]; [|done]. intros [= <-].
  destruct (wf_open _ _ Hgood Hf) as (ps & ch & Hps & Hfd & Hfin & Hlive).
  by exists s, u, ps, ch.
Qed.

Lemma last_stdin_running s u ps ch :
  procs s = ps ++ [ch] → last_stdin (Running s u) = c_stdin ch.
Proof. unfold last_stdin, children. simpl. intros ->. by rewrite last_snoc. Qed.

Lemma last_stdin_exited code eof s u ps ch :
  procs s = ps ++ [ch] → last_stdin (Exited code eof s u) = c_stdin ch.
Proof. unfold last_stdin, children. simpl. intros ->. by rewrite last_snoc. Qed.

Lemma last_stdin_killed sig s u ps ch :
  procs s = ps ++ [ch] → last_stdin (Killed sig s u) = c_stdin ch.
Proof. unfold last_stdin, children. simpl. intros ->. by rewrite last_snoc. Qed.

End OpenBlock.

(** The turn of the loop that reads a line while a block is open: the
    line is handed to [write] for the child of the block and no child
    is made; the block stays open unless the line is the END marker of
    its label or the [write] ends the parent. *)
Lemma open_block_turn times command environ os stdin n L line rest :
  open_label (run_for times command environ os n stdin) = Some L →
  fgets MAX_LINE (unread (run_for times command environ os n stdin))
    = Some (line, rest) →
  (open_label (run_for times command environ os (S n) stdin) = Some L ↔
     is_marker end_ line ≠ Some L ∧
     killed (run_for times command environ os (S n) stdin) = false) ∧
  (open_pipes (children (run_for times command environ os (S n) stdin)) = O ↔
     is_marker end_ line = Some L ∧
     killed (run_for times command environ os (S n) stdin) = false) ∧
  length (children (run_for times command environ os (S n) stdin)) =
    length (children (run_for times command environ os n stdin)) ∧
  last_stdin (run_for times command environ os (S n) stdin) =
    last_stdin (run_for times command environ os n stdin) ++ cstr line.
Proof.
  intros Hopen Hline.
  destruct (open_label_running _ _ _ _ _ _ _ Hopen)
    as (s & u & ps & ch & Hrun & Hwf & Hf & <- & Hps & Hfd & Hfin & Hlive).
  assert (Hnext : run_for times command environ os (S n) stdin =
            turn times command environ os (Running s u)).
  { unfold run_for in *. simpl. by rewrite Hrun. }
  rewrite Hnext, Hrun in *. simpl in Hline. cbn [turn]. rewrite Hline.
  rewrite (last_stdin_running s u ps ch Hps).
  unfold children at 3. simpl. rewrite Hps.
  assert (Hcases :
    let c' := match loop_body times command environ os line s with
              | Next s' => Running s' rest
              | Return code s' => Exited code false s' rest
              | Killed_by sig s' => Killed sig s' rest
              end in
    (open_label c' = Some (blabel s) ↔
       is_marker end_ line ≠ Some (blabel s) ∧ killed c' = false) ∧
    (open_pipes (children c') = O ↔
       is_marker end_ line = Some (blabel s) ∧ killed c' = false) ∧
    length (children c') = length (ps ++ [ch]) ∧
    last_stdin c' = c_stdin ch ++ cstr line).
  { assert (Hfed : open_pipes (ps ++ [child_write (cstr line) ch]) = 1%nat).
    { rewrite open_pipes_app, finished_not_open by done.
      unfold open_pipes. simpl. by destruct Hlive as [-> _]. }
    destruct (broken_pipe (os (length ps)) (length (c_stdin ch)) (strlen line))
      eqn:Hbp.
    { rewrite (loop_body_broken times command environ os line s ps ch
                 Hf Hps Hfd Hbp). simpl.
      erewrite last_stdin_killed by (simpl; reflexivity).
      unfold children. simpl. rewrite !length_app, Hfed. simpl.
      split; [split; [done | by intros [_ ?]] |].
      split; [split; [done | by intros [_ ?]] |]. done. }
    destruct (decide (is_marker end_ line = Some (blabel s))) as [Heq|Hne].
    - destruct (loop_body_end times command environ os line s ps ch
                  Hwf Hf Hps Hfd Hbp Heq) as (ch' & Hps' & Hin & Hclosed & Hf').
      assert (Hop : open_pipes (ps ++ [ch']) = O).
      { rewrite open_pipes_app, finished_not_open by done.
        unfold open_pipes. simpl. by rewrite Hclosed. }
      destruct (loop_body times command environ os line s) as [s'|code s'|sig s'];
        simpl in *; [| |done].
      + rewrite (last_stdin_running s' rest ps ch' Hps').
        unfold children. simpl. rewrite Hps', Hop, !length_app. simpl.
        destruct (Z.leb_spec 0 (f s')); [lia |].
        split; [split; [done | by intros [? _]] |]. repeat split; done.
      + rewrite (last_stdin_exited code false s' rest ps ch' Hps').
        unfold children. simpl. rewrite Hps', Hop, !length_app. simpl.
        split; [split; [done | by intros [? _]] |]. repeat split; done.
    - rewrite (loop_body_inside times command environ os line s ps ch
                 Hwf Hf Hps Hfd Hbp Hne). simpl.
      erewrite last_stdin_running by (simpl; reflexivity).
      unfold children. simpl. rewrite !length_app, Hfed. simpl.
      destruct (Z.leb_spec 0 (f s)); [|lia].
      split; [done |]. split; [split; [done | by intros [? _]] |]. done. }
  exact Hcases.
Qed.

(** The turn of the loop that reads the END marker of the open block,
    the [write] of the marker having returned. *)
Lemma end_of_block_turn times command environ os stdin n L line rest k :
  open_label (run_for times command environ os n stdin) = Some L →
  fgets MAX_LINE (unread (run_for times command environ os n stdin))
    = Some (line, rest) →
  is_marker end_ line = Some L →
  killed (run_for times command environ os (S n) stdin) = false →
  length (children (run_for times command environ os n stdin)) = S k →
  let c := run_for times command environ os n stdin in
  let c' := run_for times command environ os (S n) stdin in
  unread c' = rest ∧
  match wait_status (os k) with
  | None =>
      exit_code c' = Some EXIT_FAILURE ∧ ended_at_eof c' = false
  | Some status =>
      status_of c' k = Some status ∧
      (times ≠ 0 ∨ exit_ok status = true →
         in_loop c' = true ∧
         count (config_state c') =
           count (config_state c) + if exit_ok status then 1 else 0) ∧
      (times = 0 → exit_ok status = false →
         exit_code c' = Some (translated status) ∧ ended_at_eof c' = false)
  end.
Proof.
  intros Hopen Hline Hend Halive Hk.
  destruct (open_label_running _ _ _ _ _ _ _ Hopen)
    as (s & u & ps & ch & Hrun & Hwf & Hf & <- & Hps & Hfd & Hfin & Hlive).
  assert (Hnext : run_for times command environ os (S n) stdin =
            turn times command environ os (Running s u)).
  { unfold run_for in *. simpl. by rewrite Hrun. }
  cbv zeta. rewrite Hnext in *. rewrite Hrun in *. clear Hnext Hrun.
  simpl in Hline. cbn [turn] in *. rewrite Hline in *.
  unfold children in Hk. simpl in Hk. rewrite Hps, length_app in Hk.
  simpl in Hk. assert (k = length ps) as -> by lia.
  destruct (broken_pipe (os (length ps)) (length (c_stdin ch)) (strlen line))
    eqn:Hbp.
  { rewrite (loop_body_broken times command environ os line s ps ch
               Hf Hps Hfd Hbp) in Halive. done. }
  rewrite (loop_body_end_flow times command environ os line s ps ch
             Hwf Hf Hps Hfd Hbp Hend).
  destruct (wait_status (os (length ps))) as [status|]; [|done].
  assert (Hst : (ps ++ [child_reap status
             (child_close (child_write (cstr line) ch))]) !! length ps
             ≫= c_status = Some status).
  { by rewrite list_lookup_middle. }
  destruct (exit_ok status) eqn:Eok.
  { unfold status_of, children. simpl. rewrite Hst.
    repeat split; done. }
  destruct (Z.eqb_spec times 0) as [Ht|Ht]; simpl;
    unfold status_of, children; simpl; rewrite Hst.
  - split; [done |]. split; [done |]. split; [|done].
    intros [?|?]; done.
  - split; [done |]. split; [done |]. split; [|done].
    intros _. split; [done | lia].
Qed.

(** The turn of the loop that reads a BEGIN marker while no block is
    open, when [pipe] or [fork] fails. *)
Lemma spawn_failure_turn times command environ os stdin n L line rest :
  in_loop (run_for times command environ os n stdin) = true →
  open_label (run_for times command environ os n stdin) = None →
  fgets MAX_LINE (unread (run_for times command environ os n stdin))
    = Some (line, rest) →
  is_marker begin line = Some L →
  pipe_fails (os (length (children
      (run_for times command environ os n stdin)))) = true ∨
    fork_pid (os (length (children
      (run_for times command environ os n stdin)))) = None →
  let c' := run_for times command environ os (S n) stdin in
  exit_code c' = Some EXIT_FAILURE ∧ ended_at_eof c' = false ∧
  unread c' = rest ∧
  children c' = children (run_for times command environ os n stdin).
Proof.
  intros Hin Hidle Hline Hm Hos. cbv zeta. unfold run_for in *. simpl.
  destruct (Nat.iter n _ _) as [s u|code eof s u|sig s u]; [|done..].
  simpl in *. rewrite Hline. unfold children in *. simpl in *.
  destruct (Z.leb_spec 0 (f s)) as [|Hf]; [done |].
  destruct (seek_begin_fails times command environ os line s L Hf Hm Hos)
    as (s' & -> & Hps). simpl. done.
Qed.

(** The turn of the loop that opens a block. *)
Lemma block_opens_on_begin times command environ os stdin m L0 line0 rest0 :
  open_label (run_for times command environ os m stdin) = None →
  fgets MAX_LINE (unread (run_for times command environ os m stdin))
    = Some (line0, rest0) →
  open_label (run_for times command environ os (S m) stdin) = Some L0 →
  is_marker begin line0 = Some L0.
Proof.
  intros Hidle Hline0 Hopen0.
  pose proof (run_for_good times command environ os m stdin) as Hgood.
  unfold run_for in *. simpl in Hopen0.
  destruct (Nat.iter m _ _) as [s u|code eof s u|sig s u]; simpl in *; [|done..].
  destruct (Z.leb_spec 0 (f s)) as [|Hf]; [done |].
  rewrite Hline0 in Hopen0. unfold loop_body in Hopen0.
  pose proof (seek_begin_cases times command environ os line0 s Hf) as Hb.
  pose proof (seek_begin_good times command environ os line0 s Hgood) as Hg.
  destruct (seek_begin times command environ os line0 s) as [s1|code s1|sig s1];
    [|done..].
  destruct Hb as [(Hno & Hf1 & _)|(Hyes & Hf1 & Hfd1 & _ & ch1 & Hps1 & _)].
  - unfold seek_end in Hopen0. destruct (Z.leb_spec 0 (f s1)); [lia |].
    simpl in Hopen0. destruct (Z.leb_spec 0 (f s1)); [lia | done].
  - destruct (broken_pipe (os (length (procs s))) (length (c_stdin ch1))
                (strlen line0)) eqn:Hbp.
    { pose proof (loop_body_broken times command environ os line0 s1 (procs s)
                    ch1 Hf1 Hps1 Hfd1 Hbp) as Hin.
      unfold loop_body in Hin. rewrite seek_begin_open in Hin by done.
      by rewrite Hin in Hopen0. }
    pose proof (loop_body_inside times command environ os line0 s1 (procs s) ch1
                  Hg Hf1 Hps1 Hfd1 Hbp (begin_line_is_no_end _ _ _ Hyes)) as Hin.
    unfold loop_body in Hin. rewrite seek_begin_open in Hin by done.
    rewrite Hin in Hopen0. simpl in Hopen0.
    destruct (Z.leb_spec 0 (f s1)); [|lia]. by injection Hopen0 as <-.
Qed.

(** ** The lines of an input *)

Lemma read_lines_enough calls calls' stream :
  (length stream ≤ calls)%nat → (length stream ≤ calls')%nat →
  read_lines calls stream = read_lines calls' stream.
Proof.
  revert calls' stream. induction calls as [|calls IH]; intros calls' stream H1 H2.
  - destruct stream; [|simpl in H1; lia]. by destruct calls'.
  - destruct calls' as [|calls'].
    { destruct stream; [done | simpl in H2; lia]. }
    cbn [read_lines].
    destruct (fgets MAX_LINE stream) as [[line rest]|] eqn:E; [|done].
    apply fgets_some in E as (<- & Hne & _). rewrite length_app in H1, H2.
    destruct line; [done |]. simpl in H1, H2. f_equal. apply IH; lia.
Qed.

Lemma fgets_lines_cons stream line rest :
  fgets MAX_LINE stream = Some (line, rest) →
  fgets_lines stream = line :: fgets_lines rest.
Proof.
  intros E. unfold fgets_lines.
  destruct (fgets_some _ _ _ E) as (Happ & Hne & _).
  destruct (length stream) as [|n] eqn:En.
  { destruct stream; [done | simpl in En; lia]. }
  cbn [read_lines]. rewrite E. f_equal. apply read_lines_enough; [|done].
  rewrite <- Happ, length_app in En. destruct line; [done |]. simpl in En. lia.
Qed.

Lemma fgets_lines_nil : fgets_lines [] = [].
Proof. reflexivity. Qed.

Lemma fgets_lines_eof stream :
  fgets MAX_LINE stream = None → fgets_lines stream = [].
Proof. intros ->%fgets_none. reflexivity. Qed.

(** An induction principle that follows the calls of [fgets]. *)
Lemma fgets_ind (P : list ascii → Prop) :
  P [] →
  (∀ stream line rest,
     fgets MAX_LINE stream = Some (line, rest) → P rest → P stream) →
  ∀ stream, P stream.
Proof.
  intros Hnil Hstep stream.
  remember (length stream) as n eqn:Hn. revert stream Hn.
  induction n as [n IH] using lt_wf_ind. intros stream Hn.
  destruct (fgets MAX_LINE stream) as [[line rest]|] eqn:E.
  - apply (Hstep _ _ _ E). apply fgets_some in E as (<- & Hne & _).
    eapply IH; [|reflexivity]. subst n. rewrite length_app.
    destruct line; [done | simpl; lia].
  - apply fgets_none in E as ->. done.
Qed.

Lemma concat_fgets_lines stream : concat (fgets_lines stream) = stream.
Proof.
  induction stream as [|stream line rest E IH] using fgets_ind; [done |].
  rewrite (fgets_lines_cons _ _ _ E). simpl. rewrite IH.
  by apply fgets_some in E as (<- & _).
Qed.

Lemma fgets_store_cut room stream stored rest :
  fgets_store room stream = (stored, rest) →
  last stored = Some NL ∨ length stored = room ∨ rest = [].
Proof.
  revert room stored rest. induction stream as [|c stream IH];
    intros [|room] stored rest; cbn [fgets_store].
  - intros [= <- <-]. auto.
  - intros [= <- <-]. auto.
  - intros [= <- <-]. auto.
  - destruct (Ascii.eqb_spec c NL) as [->|Hc].
    + intros [= <- <-]. auto.
    + destruct (fgets_store room stream) as [st un] eqn:E. intros [= <- <-].
      destruct (IH _ _ _ E) as [H|[H|H]].
      * left. destruct st; [done |]. by rewrite last_cons_cons.
      * right. left. simpl. by rewrite H.
      * auto.
Qed.

Lemma fgets_cut stream line rest :
  fgets MAX_LINE stream = Some (line, rest) →
  last line = Some NL ∨ length line = 1023%nat ∨ rest = [].
Proof.
  unfold fgets. change (MAX_LINE - 1)%nat with 1023%nat.
  destruct stream as [|c stream]; [done |]. intros E0.
  assert (E : fgets_store 1023 (c :: stream) = (line, rest)) by congruence.
  by apply fgets_store_cut in E.
Qed.

(** The lines make up the input, none is longer than the buffer
    allows, and a line ends where a newline, the size of the buffer or
    the end of the input ends it. *)
Lemma fgets_lines_shape stream i line :
  fgets_lines stream !! i = Some line →
  (1 ≤ length line ≤ 1023)%nat ∧
  (last line = Some NL ∨ length line = 1023%nat ∨
   S i = length (fgets_lines stream)).
Proof.
  revert i. induction stream as [|stream l rest E IH] using fgets_ind;
    intros i; [done |].
  rewrite (fgets_lines_cons _ _ _ E). destruct i as [|i]; simpl.
  - intros [= ->]. destruct (fgets_some _ _ _ E) as (_ & Hne & Hlen).
    split; [destruct line; [done | simpl in *; lia] |].
    destruct (fgets_cut _ _ _ E) as [H|[H| ->]]; auto.
  - intros H. destruct (IH _ H) as [? [?|[?|?]]]; auto.
Qed.

Section Lines.

Variable times : Z.
Variable command : list string.
Variable environ : gmap string string.
Variable os : nat -> fate.

Local Notation "'run_for1'" := (run_for times command environ os).

(** As long as the parent is in the loop it has read one line per
    turn, and the lines still to come are those of the unread input. *)
Lemma run_for_lines n stdin s u :
  run_for1 n stdin = Running s u →
  ∃ consumed, fgets_lines stdin = consumed ++ fgets_lines u ∧
              length consumed = n.
Proof.
  unfold run_for. revert s u. induction n as [|n IH]; intros s u; simpl.
  - intros [= <- <-]. by exists [].
  - destruct (Nat.iter n _ _) as [s0 u0| |]; [|done..]. simpl.
    destruct (IH _ _ eq_refl) as (consumed & Hl & Hn).
    destruct (fgets MAX_LINE u0) as [[line rest]|] eqn:E; [|done].
    destruct (loop_body _ _ _ _ line s0); [|done..]. intros [= <- <-].
    exists (consumed ++ [line]). rewrite length_app. simpl.
    split; [|lia]. rewrite Hl, (fgets_lines_cons _ _ _ E).
    by rewrite <- app_assoc.
Qed.

Lemma run_for_next_line n stdin s u :
  run_for1 n stdin = Running s u →
  u = concat (drop n (fgets_lines stdin)) ∧
  match fgets MAX_LINE u with
  | Some (line, rest) =>
      fgets_lines stdin !! n = Some line ∧
      rest = concat (drop (S n) (fgets_lines stdin))
  | None => fgets_lines stdin !! n = None ∧ u = []
  end.
Proof.
  intros Hrun. destruct (run_for_lines _ _ _ _ Hrun) as (consumed & Hl & Hn).
  rewrite Hl. subst n. rewrite drop_app_length, concat_fgets_lines.
  split; [done |].
  destruct (fgets MAX_LINE u) as [[line rest]|] eqn:E.
  - rewrite (fgets_lines_cons _ _ _ E).
    rewrite list_lookup_middle by done. split; [done |].
    rewrite (cons_middle line), app_assoc.
    replace (S (length consumed)) with (length (consumed ++ [line]))
      by (rewrite length_app; simpl; lia).
    by rewrite drop_app_length, concat_fgets_lines.
  - pose proof E as ->%fgets_none. rewrite app_nil_r.
    split; [|done]. by apply lookup_ge_None.
Qed.

End Lines.

(** ** The loop against the scanner of the specification *)

Lemma is_marker_cstr fmt buffer : is_marker fmt (cstr buffer) = is_marker fmt buffer.
Proof. unfold is_marker, sscanf. by rewrite cstr_idemp. Qed.

Lemma scan_snoc lines line : scan (lines ++ [line]) = scan_line (scan lines) line.
Proof. unfold scan. by rewrite fold_left_app. Qed.

Lemma fed_within_refl texts : fed_within texts texts.
Proof. intros k text H. by exists text. Qed.

Lemma fed_within_trans a b c : fed_within a b → fed_within b c → fed_within a c.
Proof.
  intros Hab Hbc k text H. destruct (Hab _ _ H) as (t & Ht & Hp).
  destruct (Hbc _ _ Ht) as (u & Hu & Hq). exists u. split; [done |].
  by etrans.
Qed.

Lemma fed_within_app_r texts more : fed_within texts (texts ++ more).
Proof.
  intros k text H. exists text. split; [|done]. by apply lookup_app_l_Some.
Qed.

Lemma fed_within_snoc texts text more :
  fed_within (texts ++ [text]) (texts ++ [text ++ more]).
Proof.
  intros k t H. apply lookup_app_Some in H as [H|[Hk H]].
  - exists t. split; [by apply lookup_app_l_Some | done].
  - destruct (k - length texts)%nat as [|?] eqn:E; [|done].
    injection H as <-. exists (text ++ more). split; [|by apply prefix_app_r].
    replace k with (length texts) by lia. by rewrite list_lookup_middle.
Qed.

(** The scanner only ever extends what it has. *)
Lemma scan_line_grows sc line :
  fed_within (block_texts sc) (block_texts (scan_line sc line)).
Proof.
  unfold scan_line, block_texts. destruct sc as [done [[label text]|]]; simpl.
  - destruct (decide (is_marker end_ line = Some label)); simpl.
    + rewrite app_nil_r. apply fed_within_snoc.
    + apply fed_within_snoc.
  - destruct (is_marker begin line); simpl.
    + rewrite app_nil_r. apply fed_within_app_r.
    + apply fed_within_refl.
Qed.

Lemma scan_grows lines more :
  fed_within (block_texts (scan lines)) (block_texts (scan (lines ++ more))).
Proof.
  induction more as [|line more IH] using rev_ind.
  - rewrite app_nil_r. apply fed_within_refl.
  - rewrite app_assoc, scan_snoc. eapply fed_within_trans; [apply IH |].
    apply scan_line_grows.
Qed.

(** Every block the scanner finds starts with a BEGIN marker line. *)
Lemma scan_starts_at_begin lines :
  Forall (starts_at_begin lines) (block_texts (scan lines)).
Proof.
  induction lines as [|line lines IH] using rev_ind; [constructor |].
  rewrite scan_snoc.
  assert (Hmono : ∀ text, starts_at_begin lines text →
                          starts_at_begin (lines ++ [line]) text).
  { intros text (l & more & -> & Hin & Hm). exists l, more.
    split; [done |]. split; [|done]. apply elem_of_app. by left. }
  assert (Hext : ∀ text, starts_at_begin lines text →
                         starts_at_begin (lines ++ [line]) (text ++ line)).
  { intros text (l & more & -> & Hin & Hm). exists l, (more ++ line).
    split; [by rewrite app_assoc |]. split; [|done]. apply elem_of_app. by left. }
  unfold block_texts, scan_line in *.
  destruct (scan lines) as [done [[label text]|]]; simpl in *.
  - apply Forall_app in IH as [Hdone Htext].
    apply Forall_cons in Htext as [Htext _].
    destruct (decide (is_marker end_ line = Some label)); simpl.
    + rewrite app_nil_r. apply Forall_app. split.
      * eapply Forall_impl; [exact Hdone | exact Hmono].
      * constructor; [by apply Hext | constructor].
    + apply Forall_app. split.
      * eapply Forall_impl; [exact Hdone | exact Hmono].
      * constructor; [by apply Hext | constructor].
  - rewrite app_nil_r in IH.
    destruct (is_marker begin line) as [label|] eqn:E; simpl.
    + apply Forall_app. split.
      * eapply Forall_impl; [exact IH | exact Hmono].
      * constructor; [|constructor]. exists line, [].
        split; [by rewrite app_nil_r |]. split; [|by rewrite E].
        apply elem_of_app. right. left.
    + rewrite app_nil_r. eapply Forall_impl; [exact IH | exact Hmono].
Qed.

Section Refinement.

Variable times : Z.
Variable command : list string.
Variable environ : gmap string string.
Variable os : nat -> fate.

Local Notation "'loop_body1'" := (loop_body times command environ os).
Local Notation "'run_for1'" := (run_for times command environ os).

Lemma loop_body_agrees line s sc :
  wf times s → agrees s sc →
  match loop_body1 line s with
  | Next s' => agrees s' (scan_line sc (cstr line))
  | Return code s' =>
      map c_stdin (procs s') = block_texts (scan_line sc (cstr line)) ∨
      (map c_stdin (procs s') = block_texts sc ∧ sc_open sc = None ∧
       is_Some (is_marker begin line) ∧ code = EXIT_FAILURE ∧
       (pipe_fails (os (length (procs s'))) = true ∨
        fork_pid (os (length (procs s'))) = None))
  | Killed_by _ s' =>
      map c_stdin (procs s') = block_texts (scan_line sc (cstr line))
  end.
Proof.
  intros Hwf [Htexts Hopen]. destruct (Z.leb_spec 0 (f s)) as [Hf|Hf].
  - destruct Hopen as [text Hopen].
    destruct (wf_open _ _ Hwf Hf) as (ps & ch & Hps & Hfd & Hfin & Hlive).
    unfold block_texts in Htexts. rewrite Hopen, Hps, map_app in Htexts.
    simpl in Htexts. apply app_inj_tail in Htexts as [Hdone Htext].
    unfold scan_line. rewrite Hopen, is_marker_cstr.
    destruct (broken_pipe (os (length ps)) (length (c_stdin ch)) (strlen line))
      eqn:Hbp.
    { rewrite (loop_body_broken times command environ os line s ps ch
                 Hf Hps Hfd Hbp). simpl.
      rewrite map_app, Hdone, <- Htext. simpl.
      destruct (decide (is_marker end_ line = Some (blabel s)));
        unfold block_texts; simpl; by rewrite ?app_nil_r. }
    destruct (decide (is_marker end_ line = Some (blabel s))) as [Heq|Hne].
    + destruct (loop_body_end times command environ os line s ps ch
                  Hwf Hf Hps Hfd Hbp Heq) as (ch' & Hps' & Hin & _ & Hf').
      assert (Hnew : map c_stdin (ps ++ [ch']) =
                block_texts {| sc_done := sc_done sc ++ [text ++ cstr line];
                               sc_open := None |}).
      { unfold block_texts. simpl.
        rewrite map_app, app_nil_r, Hdone, <- Htext. simpl. by rewrite Hin. }
      destruct (loop_body1 line s) as [s'|code s'|sig s']; simpl in Hps';
        [| |done].
      * split; [by rewrite Hps' |].
        destruct (Z.leb_spec 0 (f s')); [lia | done].
      * left. by rewrite Hps', Hnew.
    + rewrite (loop_body_inside times command environ os line s ps ch
                 Hwf Hf Hps Hfd Hbp Hne).
      split; simpl.
      * unfold block_texts. simpl. rewrite map_app, Hdone, <- Htext. done.
      * destruct (Z.leb_spec 0 (f s)); [|lia]. by eexists.
  - pose proof (seek_begin_cases times command environ os line s Hf) as Hb.
    pose proof (seek_begin_good times command environ os line s Hwf) as Hg.
    unfold block_texts in Htexts. rewrite Hopen, app_nil_r in Htexts.
    unfold scan_line. rewrite Hopen, is_marker_cstr. unfold loop_body.
    destruct (seek_begin times command environ os line s) as [s1|code s1|sig s1];
      [| |done].
    + destruct Hb as [(Hno & Hf1 & Hps1 & _)
                     |(Hyes & Hf1 & Hfd1 & _ & ch1 & Hps1 & Hin1 & _)].
      * rewrite Hno. unfold seek_end.
        destruct (Z.leb_spec 0 (f s1)); [lia |]. split.
        -- unfold block_texts. by rewrite Hps1, Hopen, app_nil_r.
        -- destruct (Z.leb_spec 0 (f s1)); [lia | done].
      * rewrite Hyes.
        destruct (broken_pipe (os (length (procs s))) (length (c_stdin ch1))
                    (strlen line)) eqn:Hbp.
        { pose proof (loop_body_broken times command environ os line s1
                        (procs s) ch1 Hf1 Hps1 Hfd1 Hbp) as Hbody.
          unfold loop_body in Hbody. rewrite seek_begin_open in Hbody by done.
          rewrite Hbody. simpl. unfold block_texts. simpl.
          rewrite map_app, Htexts. simpl. by rewrite Hin1. }
        pose proof (loop_body_inside times command environ os line s1
                      (procs s) ch1 Hg Hf1 Hps1 Hfd1 Hbp
                      (begin_line_is_no_end _ _ _ Hyes)) as Hbody.
        unfold loop_body in Hbody. rewrite seek_begin_open in Hbody by done.
        rewrite Hbody. split; simpl.
        -- unfold block_texts. simpl. rewrite map_app, Htexts. simpl.
           by rewrite Hin1.
        -- destruct (Z.leb_spec 0 (f s1)); [|lia]. by eexists.
    + destruct Hb as (Hl & Hps1 & -> & Hos). right. rewrite Hps1.
      unfold block_texts. rewrite Hopen, app_nil_r. done.
Qed.

Lemma run_for_follows_scanner n stdin :
  follows_scanner os (fgets_lines stdin) (run_for1 n stdin).
Proof.
  pose proof (run_for_good times command environ os n stdin) as Hgood.
  unfold run_for in *. induction n as [|n IH]; simpl.
  { exists []. split; [done |]. split; [done |]. simpl. done. }
  simpl in Hgood.
  pose proof (run_for_good times command environ os n stdin) as Hwf.
  unfold run_for in Hwf.
  destruct (Nat.iter n _ _) as [s u|code eof s u|sig s u]; [|by apply IH..].
  specialize (IH Hwf). destruct IH as (consumed & Hl & Hag). cbn [turn].
  simpl in Hl.
  destruct (fgets MAX_LINE u) as [[line rest]|] eqn:E.
  - pose proof (loop_body_agrees line s _ Hwf Hag) as Hstep.
    rewrite (fgets_lines_cons _ _ _ E) in Hl.
    assert (Hl' : fgets_lines stdin = (consumed ++ [line]) ++ fgets_lines rest).
    { by rewrite <- app_assoc. }
    rewrite <- scan_snoc in Hstep.
    replace (map cstr consumed ++ [cstr line])
      with (map cstr (consumed ++ [line])) in Hstep by (by rewrite map_app).
    destruct (loop_body1 line s) as [s'|code s'|sig s'];
      exists (consumed ++ [line]); (split; [done |]); simpl;
      [done | |split; [by destruct consumed | done]].
    destruct Hstep as [Hfed|(Hfed & Hidle & Hm & -> & Hos)].
    + by left.
    + right. exists consumed, line. unfold no_child_for. simpl. done.
  - exists consumed. rewrite (fgets_lines_eof _ E), app_nil_r in Hl.
    simpl. rewrite (fgets_lines_eof _ E), app_nil_r. done.
Qed.

(** What the children were given is always within the blocks of the
    whole input. *)
Lemma follows_scanner_within lines c :
  follows_scanner os lines c →
  fed_within (map c_stdin (children c)) (block_texts (scan (map cstr lines))).
Proof.
  intros (read & -> & H). rewrite map_app.
  eapply fed_within_trans; [|apply scan_grows].
  destruct c as [s u|code [] s u|sig s u];
    unfold given_blocks, children in *; simpl in *.
  - destruct H as [-> _]. apply fed_within_refl.
  - destruct H as [[-> _] _]. apply fed_within_refl.
  - destruct H as [->|(fed & line & -> & -> & _)]; [apply fed_within_refl |].
    rewrite map_app. apply scan_grows.
  - destruct H as [_ ->]. apply fed_within_refl.
Qed.

End Refinement.

(** ** A child that is never waited for *)

Lemma pipe_closed_app j ps qs : pipe_closed j ps → pipe_closed j (ps ++ qs).
Proof.
  intros (ch & H & Hc). exists ch. split; [|done]. by apply lookup_app_l_Some.
Qed.

Lemma pipe_closed_alter g i j ps :
  (∀ ch, c_pipe_open ch = false → c_pipe_open (g ch) = false) →
  pipe_closed j ps → pipe_closed j (alter g i ps).
Proof.
  intros Hg (ch & H & Hc). destruct (decide (i = j)) as [->|Hne].
  - exists (g ch). rewrite list_lookup_alter_eq, H. split; [done | by apply Hg].
  - exists ch. by rewrite list_lookup_alter_ne.
Qed.

Lemma pipe_closed_handed j fd buf n ps :
  pipe_closed j ps → pipe_closed j (handed fd buf n ps).
Proof. by apply pipe_closed_alter. Qed.

Lemma pipe_closed_close j fd ps : pipe_closed j ps → pipe_closed j (close fd ps).
Proof. by apply pipe_closed_alter. Qed.

Lemma pipe_closed_reaped j fd status ps :
  pipe_closed j ps → pipe_closed j (reaped fd status ps).
Proof. by apply pipe_closed_alter. Qed.

Section Orphan.

Variable times : Z.
Variable command : list string.
Variable environ : gmap string string.

(** A pipe that is closed stays closed. *)
Lemma seek_begin_keeps_closed os j buffer s :
  pipe_closed j (procs s) →
  pipe_closed j (procs (flow_state (seek_begin times command environ os buffer s))).
Proof.
  intros H. unfold seek_begin. destruct (f s <? 0); [|done].
  destruct (sscanf buffer begin (blabel s)) as [n label].
  destruct (n =? 1); [|done].
  destruct (pipe_fails (os (length (procs s)))); [done |].
  destruct (fork_pid (os (length (procs s)))); [|done].
  simpl. by apply pipe_closed_app.
Qed.

Lemma seek_end_keeps_closed os j buffer s :
  pipe_closed j (procs s) →
  pipe_closed j (procs (flow_state (seek_end times os buffer s))).
Proof.
  intros H. unfold seek_end. destruct (0 <=? f s); [|done].
  pose proof (pipe_closed_handed j (pipefd s) buffer (strlen buffer) _ H) as Hw.
  pose proof (pipe_closed_close j (pipefd s) _ Hw) as Hc.
  unfold write. destruct (broken_pipe _ _ _); [done |]. cbv iota.
  destruct (sscanf buffer end_ []) as [n elabel].
  destruct ((n =? 1) && (strcmp (blabel s) elabel =? 0)); [|done].
  destruct (waitpid_loop _ _) as [status|]; [|done].
  pose proof (pipe_closed_reaped j (pipefd s) status _ Hc) as Hr.
  destruct (WIFEXITED status && (WEXITSTATUS status =? EXIT_SUCCESS)); [done |].
  destruct (negb (times =? 0)); [done |].
  destruct (WIFEXITED status); [done |].
  destruct (WIFSIGNALED status); done.
Qed.

Lemma turn_keeps_closed os j c :
  pipe_closed j (children c) →
  pipe_closed j (children (turn times command environ os c)).
Proof.
  destruct c as [s u|code eof s u|sig s u]; [|done..]. unfold children. simpl.
  intros H. destruct (fgets MAX_LINE u) as [[line rest]|]; [|done].
  unfold loop_body.
  pose proof (seek_begin_keeps_closed os j line s H) as Hb.
  destruct (seek_begin times command environ os line s) as [s1|code s1|sig s1];
    [|done..].
  pose proof (seek_end_keeps_closed os j line s1 Hb) as He.
  by destruct (seek_end times os line s1).
Qed.

Lemma seek_begin_same os os' j buffer s :
  same_but_wait j os os' →
  seek_begin times command environ os' buffer s =
  seek_begin times command environ os buffer s.
Proof.
  intros Hsame. unfold seek_begin.
  destruct (Hsame (length (procs s))) as (-> & -> & _). done.
Qed.

(** Seeking the end of the armour asks the system about one child
    only, and only when it closes that child's pipe. *)
Lemma seek_end_same os os' j buffer s :
  same_but_wait j os os' → wf times s →
  ¬ pipe_closed j (procs (flow_state (seek_end times os buffer s))) →
  seek_end times os' buffer s = seek_end times os buffer s.
Proof.
  intros Hsame Hwf Hopen.
  destruct (Z.lt_ge_cases (f s) 0) as [Hf|Hf].
  { unfold seek_end. destruct (Z.leb_spec 0 (f s)); [lia | done]. }
  destruct (wf_open _ _ Hwf Hf) as (ps & ch & Hps & Hfd & Hfin & Hlive).
  assert (Hbody : ∀ o, seek_end times o buffer s =
                       loop_body times command environ o buffer s).
  { intros o. unfold loop_body. by rewrite seek_begin_open. }
  assert (Hbp : ∀ before n, broken_pipe (os' (length ps)) before n =
                             broken_pipe (os (length ps)) before n).
  { intros before n. unfold broken_pipe.
    by destruct (Hsame (length ps)) as (_ & _ & -> & _). }
  destruct (broken_pipe (os (length ps)) (length (c_stdin ch)) (strlen buffer))
    eqn:Ebp.
  { rewrite !Hbody.
    rewrite (loop_body_broken times command environ os buffer s ps ch)
      by done.
    by rewrite (loop_body_broken times command environ os' buffer s ps ch)
      by (by rewrite ?Hbp). }
  destruct (decide (is_marker end_ buffer = Some (blabel s))) as [Heq|Hne].
  - destruct (decide (length ps = j)) as [Hj|Hj].
    + destruct Hopen. rewrite Hbody.
      destruct (loop_body_end times command environ os buffer s ps ch
                  Hwf Hf Hps Hfd Ebp Heq) as (ch' & -> & _ & Hclosed & _).
      exists ch'. subst j. by rewrite list_lookup_middle.
    + unfold seek_end. rewrite Hfd.
      destruct (Hsame (length ps)) as (_ & _ & _ & ->); done.
  - rewrite !Hbody.
    rewrite (loop_body_inside times command environ os buffer s ps ch)
      by done.
    by rewrite (loop_body_inside times command environ os' buffer s ps ch)
      by (by rewrite ?Hbp).
Qed.

Lemma turn_same os os' j c :
  same_but_wait j os os' → good times os c →
  ¬ pipe_closed j (children (turn times command environ os c)) →
  turn times command environ os' c = turn times command environ os c.
Proof.
  intros Hsame Hgood. destruct c as [s u|code eof s u|sig s u]; [|done..].
  simpl in Hgood. cbn [turn].
  destruct (fgets MAX_LINE u) as [[line rest]|]; [|done].
  unfold loop_body. rewrite (seek_begin_same os os' j) by done.
  pose proof (seek_begin_good times command environ os line s Hgood) as Hg.
  destruct (seek_begin times command environ os line s) as [s1|code s1|sig s1];
    [|done..].
  intros Hopen. rewrite (seek_end_same os os' j); [done.. |].
  intros Hc. apply Hopen. unfold children.
  by destruct (seek_end times os line s1).
Qed.

(** Up to the moment the pipe of child [j] is closed, the run does
    not depend on what [waitpid] would report for it. *)
Lemma run_for_same os os' j n stdin :
  same_but_wait j os os' →
  ¬ pipe_closed j (children (run_for times command environ os n stdin)) →
  run_for times command environ os' n stdin =
  run_for times command environ os n stdin.
Proof.
  intros Hsame. unfold run_for. induction n as [|n IH]; [done |]. simpl.
  intros Hopen. rewrite IH.
  - apply (turn_same os os' j); [done | apply run_for_good | done].
  - intros Hc. apply Hopen. by apply turn_keeps_closed.
Qed.

End Orphan.

(** * Outcomes and their aggregation *)

(** C2, as the code has it: every child that [main] forks finds
    XARMOUR_TIMES set to the decimal text of [times], the value the
    option loop leaves: the threshold given with -t, which is at least
    1, and 0 when no -t was given.  The variable is then the text 0,
    not unset and not empty. *)
Theorem C2_times_always_exported opts command environ os stdin ch :
  ch ∈ children (main opts command environ os stdin) →
  ∃ times,
    getopt_loop opts 0 = inr times ∧
    c_env ch !! "XARMOUR_TIMES" = Some (ld times) ∧
    ((∀ v b, opt_t v b ∉ opts) →
       c_env ch !! "XARMOUR_TIMES" = Some "0"%string) ∧
    ((∃ v b, opt_t v b ∈ opts) → 1 ≤ times ∧ ∃ b, opt_t times b ∈ opts).
Proof.
  unfold main. destruct (getopt_loop opts 0) as [code|times] eqn:E.
  { unfold children. simpl. intros H. by apply elem_of_nil in H. }
  destruct command as [|c0 command'].
  { unfold children. simpl. intros H. by apply elem_of_nil in H. }
  intros Hch. exists times.
  pose proof (good_knows_times times os _
    (xarmour_good times (c0 :: command') environ os stdin)) as Hall.
  rewrite Forall_forall in Hall. specialize (Hall ch Hch).
  unfold knows_times in Hall.
  apply getopt_loop_times in E.
  split; [done |]. split; [done |]. split.
  - intros Hno. destruct E as [[-> _]|[_ [b Hin]]].
    + by rewrite Hall.
    + by destruct (Hno times b).
  - intros (v & b & Hin). destruct E as [[_ Hno]|E]; [|done].
    by destruct (Hno v b).
Qed.

Lemma C2_times_always_exported_witness :
  ∃ ch, c_env ch !! "XARMOUR_TIMES" = Some "2"%string ∧
        ch ∈ children (main [opt_t 2 true] gpg ∅ (first_then_ok (exits 0))
                         (block "ONE" "b25l")).
Proof.
  assert (H : ∃ ch, children (main [opt_t 2 true] gpg ∅
                 (first_then_ok (exits 0)) (block "ONE" "b25l")) = [ch]).
  { vm_compute. eexists. reflexivity. }
  destruct H as [ch Hch]. exists ch.
  assert (Hin : ch ∈ children (main [opt_t 2 true] gpg ∅
                 (first_then_ok (exits 0)) (block "ONE" "b25l"))).
  { rewrite Hch. left. }
  destruct (C2_times_always_exported _ _ _ _ _ _ Hin)
    as (times & Ht & Henv & _ & _).
  injection Ht as <-. split; [exact Henv | exact Hin].
Defined.

(** C2 fails as stated: without -t the child still finds
    XARMOUR_TIMES in its environment, with the value 0. *)
Lemma C2_unset_threshold_is_exported_as_0 :
  ∃ ch,
    children (main [] gpg ∅ (first_then_ok (exits 0)) (block "ONE" "b25l"))
      = [ch] ∧
    c_env ch !! "XARMOUR_TIMES" = Some "0"%string ∧
    c_env ch !! "XARMOUR_TIMES" ≠ None ∧
    c_env ch !! "XARMOUR_TIMES" ≠ Some ""%string.
Proof.
  assert (H : Forall (λ ch, c_env ch !! "XARMOUR_TIMES" = Some "0"%string)
    (children (main [] gpg ∅ (first_then_ok (exits 0)) (block "ONE" "b25l")))).
  { vm_compute. repeat constructor. }
  assert (H1 : ∃ ch, children (main [] gpg ∅ (first_then_ok (exits 0))
                       (block "ONE" "b25l")) = [ch]).
  { vm_compute. eexists. reflexivity. }
  destruct H1 as [ch Hch]. exists ch. rewrite Hch in H.
  apply Forall_cons in H as [H _]. split; [exact Hch |]. clear Hch.
  rewrite H. split; [reflexivity |]. split; discriminate.
Qed.

(** Without threshold, a child that was reaped and did not exit 0 is
    the last child of the run: nothing is forked after it, [main]
    returns from inside the loop, with the child's exit code when it
    exited and with 128 plus the signal number when a signal killed
    it; and every child before it exited 0. *)
Lemma reaped_failure_ends_the_run command environ os stdin k status :
  status_of (xarmour 0 command environ os stdin) k = Some status →
  exit_ok status = false →
  let c := xarmour 0 command environ os stdin in
  length (children c) = S k ∧
  ended_at_eof c = false ∧
  (∀ code, status = W_EXITED code → exit_code c = Some code) ∧
  (∀ sig, status = W_SIGNALED sig → exit_code c = Some (128 + sig)) ∧
  (∀ j, (j < k)%nat → ∃ st, status_of c j = Some st ∧ exit_ok st = true).
Proof.
  intros Hk Hbad c. subst c.
  pose proof (xarmour_good 0 command environ os stdin) as Hgood.
  assert (Hno : ∀ ch ps, c_status ch = Some status →
                  none_failed 0 ps → ch ∈ ps → False).
  { intros ch ps Hst Hps Hin. specialize (Hps eq_refl).
    rewrite Forall_forall in Hps. destruct (Hps ch Hin) as [H|H].
    - congruence.
    - unfold exited_ok in H. rewrite Hst in H. congruence. }
  destruct (xarmour_ends 0 command environ os stdin)
    as [(code & eof & s & u & Hc)|(s & u & Hc)];
    rewrite Hc in *; unfold status_of, children in *; simpl in *;
    (destruct (procs s !! k) as [ch|] eqn:Ek; [|done]); simpl in Hk;
    assert (Hin : ch ∈ procs s) by (eapply list_elem_of_lookup_2; done).
  2:{ destruct Hgood as (_ & Hwf & _).
      destruct (Hno ch _ Hk (wf_strict _ _ Hwf) Hin). }
  inversion Hgood as [s0 Hwf|s0 Hwf|s0 ps ch0 Hps Hfin Henv Hnf
                     |s0 ps ch0 st0 _ Hps Hfin Henv Hnf Hpipe Hst Hok]; subst.
  - destruct (Hno ch _ Hk (wf_strict _ _ Hwf) Hin).
  - destruct (Hno ch _ Hk (wf_strict _ _ Hwf) Hin).
  - destruct (Hno ch _ Hk Hnf Hin).
  - rewrite Hps in Ek, Hin |- *.
    destruct (decide (k < length ps)%nat) as [Hlt|Hge].
    { rewrite lookup_app_l in Ek by done.
      destruct (Hno ch ps Hk Hnf). eapply list_elem_of_lookup_2. done. }
    assert (k = length ps) as ->.
    { apply lookup_lt_Some in Ek. rewrite length_app in Ek. simpl in Ek. lia. }
    rewrite list_lookup_middle in Ek by done. injection Ek as <-.
    assert (st0 = status) as -> by congruence.
    rewrite length_app. simpl. repeat split.
    + lia.
    + intros code' ->. done.
    + intros sig ->. simpl. f_equal. lia.
    + intros j Hj. rewrite lookup_app_l by done.
      destruct (ps !! j) as [chj|] eqn:Ej.
      2:{ apply lookup_ge_None in Ej. lia. }
      simpl. specialize (Hnf eq_refl). rewrite Forall_forall in Hnf, Hfin.
      assert (Hinj : chj ∈ ps) by (eapply list_elem_of_lookup_2; done).
      destruct (Hfin _ Hinj) as [_ [stj Hstj]].
      exists stj. split; [done |].
      destruct (Hnf _ Hinj) as [H|H]; [congruence |].
      unfold exited_ok in H. by rewrite Hstj in H.
Qed.

(** C3, where the code leaves it: without threshold, the child of the
    first of two blocks exits with code 7 when it has been given the
    BEGIN line of its block, 20 bytes, and no more.  The [write] of the
    next line raises SIGPIPE and the parent is ended by it: [main]
    returns no status, 7 or other, and the child is never waited for.
    The same holds when the child is gone before the first [write].
    When the same child takes all of its input before it exits with 7,
    [main] returns 7. *)
Theorem C3_child_exiting_early_ends_xarmour_by_SIGPIPE :
  let os := first_then_ok (exits_after 20 7) in
  let c := xarmour 0 gpg ∅ os two_blocks in
  wait_status (os O) = Some (W_EXITED 7) ∧
  signalled c = Some SIGPIPE ∧
  exit_code c = None ∧
  status_of c 0 = None ∧
  length (children c) = 1%nat ∧
  last_stdin c = Ln "-----BEGIN ONE-----" ++ Ln "b25l" ∧
  unread c = Ln "-----END ONE-----" ++ Ln "in between" ++ block "TWO" "dHdv" ∧
  signalled (xarmour 0 gpg ∅ (first_then_ok (exits_after 0 7)) two_blocks)
    = Some SIGPIPE ∧
  exit_code (xarmour 0 gpg ∅ (first_then_ok (exits 7)) two_blocks) = Some 7.
Proof. vm_compute. repeat split. Qed.

(** C4: with a threshold, a run that comes to the end of its input has
    read all of it and returns 0 when the blocks whose child exited 0
    are at least [times], and 1 when they are fewer. *)
Theorem C4_threshold_decides_at_end_of_input times command environ os stdin :
  times ≠ 0 →
  ended_at_eof (xarmour times command environ os stdin) = true →
  let c := xarmour times command environ os stdin in
  unread c = [] ∧
  (exit_code c = Some 0 ↔ times ≤ successes (children c)) ∧
  (exit_code c = Some 1 ↔ successes (children c) < times).
Proof.
  intros Ht Heof c. subst c. split; [by apply eof_all_read |].
  pose proof (xarmour_good times command environ os stdin) as Hgood.
  destruct (xarmour times command environ os stdin) as [s u|code eof s u|sig s u];
    [done | |done].
  simpl in Heof. subst eof. unfold children. simpl in *.
  inversion Hgood as [s0 Hwf| | |]; subst.
  unfold after_loop. rewrite <- (wf_count _ _ Hwf).
  destruct (Z.eqb_spec times 0) as [|_]; [done |]. simpl.
  unfold EXIT_FAILURE, EXIT_SUCCESS.
  destruct (Z.ltb_spec (count s) times) as [Hlt|Hge]; split; split;
    intros Hx; try lia; try done; injection Hx; lia.
Qed.

Lemma C4_threshold_decides_at_end_of_input_witness :
  let run t := xarmour t gpg ∅ (first_then_ok (exits 1)) three_blocks in
  (exit_code (run 2) = Some 0 ∧ length (children (run 2)) = 3%nat) ∧
  exit_code (run 3) = Some 1.
Proof.
  assert (H2 : ended_at_eof (xarmour 2 gpg ∅ (first_then_ok (exits 1))
                  three_blocks) = true) by (vm_compute; reflexivity).
  assert (H3 : ended_at_eof (xarmour 3 gpg ∅ (first_then_ok (exits 1))
                  three_blocks) = true) by (vm_compute; reflexivity).
  destruct (C4_threshold_decides_at_end_of_input 2 _ _ _ _ ltac:(lia) H2)
    as (_ & Hzero & _).
  destruct (C4_threshold_decides_at_end_of_input 3 _ _ _ _ ltac:(lia) H3)
    as (_ & _ & Hone).
  split; [split |].
  - apply Hzero. vm_compute. discriminate.
  - vm_compute. reflexivity.
  - apply Hone. vm_compute. reflexivity.
Defined.

(** C1, as the code has it.  A BEGIN marker read while no block is
    open, with [pipe] or [fork] failing, makes [main] return 1 in that
    turn of the loop, with or without threshold: no child is made and
    the rest of the input is left unread.  The END marker of the open
    block, once written, with [waitpid] failing, makes [main] return 1
    in that turn as well, with or without threshold.  When [waitpid]
    reports a status instead, it is recorded for the child, and with a
    threshold the parent stays in the loop whatever the status is, its
    count one more when the child exited 0 and unchanged otherwise.
    With a threshold, a run that ends before the end of its input and
    not by a signal has returned 1 after one of the three failures; and
    when none of the three occurs and no [write] raises SIGPIPE the
    run reads all its input and ends with the number of children that
    exited 0 as its count. *)
Theorem C1_threshold_tolerates_only_reaped_children times command environ os stdin :
  let run n := run_for times command environ os n stdin in
  let final := xarmour times command environ os stdin in
  (∀ n line rest L,
     in_loop (run n) = true → open_label (run n) = None →
     fgets MAX_LINE (unread (run n)) = Some (line, rest) →
     is_marker begin line = Some L →
     pipe_fails (os (length (children (run n)))) = true ∨
       fork_pid (os (length (children (run n)))) = None →
     final = run (S n) ∧ exit_code final = Some EXIT_FAILURE ∧
     ended_at_eof final = false ∧ unread final = rest ∧
     children final = children (run n)) ∧
  (∀ n line rest L k,
     open_label (run n) = Some L →
     fgets MAX_LINE (unread (run n)) = Some (line, rest) →
     is_marker end_ line = Some L →
     killed (run (S n)) = false →
     length (children (run n)) = S k →
     match wait_status (os k) with
     | None =>
         final = run (S n) ∧ exit_code final = Some EXIT_FAILURE ∧
         ended_at_eof final = false ∧ unread final = rest
     | Some status =>
         status_of (run (S n)) k = Some status ∧
         (times ≠ 0 →
            in_loop (run (S n)) = true ∧ unread (run (S n)) = rest ∧
            count (config_state (run (S n))) =
              count (config_state (run n)) + if exit_ok status then 1 else 0)
     end) ∧
  (times ≠ 0 →
     (ended_at_eof final = true →
        unread final = [] ∧
        count (config_state final) = successes (children final)) ∧
     (ended_at_eof final = false → killed final = false →
        exit_code final = Some EXIT_FAILURE ∧
        (pipe_fails (os (length (children final))) = true ∨
         fork_pid (os (length (children final))) = None ∨
         ∃ m, length (children final) = S m ∧ wait_status (os m) = None)) ∧
     ((∀ k, pipe_fails (os k) = false ∧ is_Some (fork_pid (os k)) ∧
            is_Some (wait_status (os k)) ∧ sigpipe_after (os k) = None) →
        ended_at_eof final = true)).
Proof.
  intros run final.
  assert (Hleft : ∀ n code, exit_code (run n) = Some code → final = run n).
  { intros n code Hn. apply run_for_settled. fold (run n).
    by destruct (run n). }
  split; [|split].
  - intros n line rest L Hin Hidle Hline Hm Hos.
    destruct (spawn_failure_turn times command environ os stdin n L line rest
                Hin Hidle Hline Hm Hos) as (Hcode & Heof & Hrest & Hch).
    fold (run (S n)) in Hcode, Heof, Hrest, Hch. fold (run n) in Hch.
    by rewrite (Hleft (S n) _ Hcode).
  - intros n line rest L k Hopen Hline Hend Halive Hk.
    pose proof (end_of_block_turn times command environ os stdin n L line rest k
                  Hopen Hline Hend Halive Hk) as H.
    cbv zeta in H. fold (run (S n)) in H. fold (run n) in H.
    destruct H as [Hrest H].
    destruct (wait_status (os k)) as [status|].
    + destruct H as (Hst & Hgo & _). split; [done |]. intros Ht.
      destruct (Hgo (or_introl Ht)) as [? ?]. done.
    + destruct H as [Hcode Heof]. by rewrite (Hleft (S n) _ Hcode).
  - intros Ht. subst final. clear Hleft run.
    pose proof (xarmour_good times command environ os stdin) as Hgood.
    assert (Hearly :
      ended_at_eof (xarmour times command environ os stdin) = false →
      killed (xarmour times command environ os stdin) = false →
      exit_code (xarmour times command environ os stdin) = Some EXIT_FAILURE ∧
      (pipe_fails (os (length (children
          (xarmour times command environ os stdin)))) = true ∨
       fork_pid (os (length (children
          (xarmour times command environ os stdin)))) = None ∨
       ∃ m, length (children (xarmour times command environ os stdin)) = S m ∧
            wait_status (os m) = None)).
    { destruct (xarmour_ends times command environ os stdin)
        as [(code & eof & s & u & Hc)|(s & u & Hc)]; rewrite Hc in *;
        [|done].
      unfold children. simpl in *. intros -> _.
      inversion Hgood as [|s0 Hwf Hf [Hp|Hp]
                         |s0 ps ch0 Hps Hfin Henv Hnf Hpipe Hst Hw
                         |s0 ps ch0 st0 Ht0]; subst; try done.
      - split; [done |]. by left.
      - split; [done |]. right. by left.
      - split; [done |]. right. right. exists (length ps).
        rewrite Hps, length_app. simpl. split; [lia | done]. }
    split; [|split; [done |]].
    + intros Heof. split; [by apply eof_all_read |].
      destruct (xarmour times command environ os stdin)
        as [s u|code eof s u|sig s u]; [done | |done].
      simpl in Heof. subst eof. unfold children. simpl in *.
      inversion Hgood as [s0 Hwf| | |]; subst. exact (wf_count _ _ Hwf).
    + intros Hos.
      destruct (ended_at_eof (xarmour times command environ os stdin)) eqn:E;
        [done |].
      destruct (killed (xarmour times command environ os stdin)) eqn:Ek.
      { destruct (xarmour times command environ os stdin)
          as [s u|code eof s u|sig s u]; try done.
        destruct Hgood as (_ & _ & _ & [gone Hgone]).
        destruct (Hos (pipefd s)) as (_ & _ & _ & Hnone). congruence. }
      destruct (Hearly eq_refl eq_refl) as [_ [H|[H|(m & _ & H)]]].
      * destruct (Hos (length (children
          (xarmour times command environ os stdin)))) as (Hp & _). congruence.
      * destruct (Hos (length (children
          (xarmour times command environ os stdin))))
          as (_ & [pid Hpid] & _). congruence.
      * destruct (Hos m) as (_ & _ & [st Hst] & _). congruence.
Qed.

Lemma C1_threshold_tolerates_only_reaped_children_witness :
  let os := first_then_ok (killed_by 9) in
  let c := xarmour 2 gpg ∅ os three_blocks in
  (in_loop (run_for 2 gpg ∅ os 4 three_blocks) = true ∧
   count (config_state (run_for 2 gpg ∅ os 4 three_blocks)) = 0 ∧
   status_of (run_for 2 gpg ∅ os 4 three_blocks) 0 = Some (W_SIGNALED 9)) ∧
  unread c = [] ∧ count (config_state c) = 2 ∧ length (children c) = 3%nat ∧
  exit_code (xarmour 2 gpg ∅ (first_then_ok wait_fails) three_blocks)
    = Some EXIT_FAILURE ∧
  exit_code (xarmour 0 gpg ∅ (first_then_ok fork_fails) three_blocks)
    = Some EXIT_FAILURE.
Proof.
  cbv zeta.
  destruct (C1_threshold_tolerates_only_reaped_children 2 gpg ∅
              (first_then_ok (killed_by 9)) three_blocks)
    as (_ & Hend & Hthr).
  destruct (Hthr ltac:(lia)) as (Heof & _ & _).
  destruct (Heof ltac:(vm_compute; reflexivity)) as [Hu Hc].
  pose proof (Hend 3%nat (Ln "-----END ONE-----")
                (block "TWO" "dHdv" ++ block "THREE" "dGhyZWU=") (B "ONE") O
                ltac:(vm_compute; reflexivity) ltac:(vm_compute; reflexivity)
                ltac:(vm_compute; reflexivity) ltac:(vm_compute; reflexivity)
                ltac:(vm_compute; reflexivity)) as Hreap.
  change (wait_status (first_then_ok (killed_by 9) 0))
    with (Some (W_SIGNALED 9)) in Hreap. cbv beta iota in Hreap.
  destruct Hreap as (Hst & Hgo). destruct (Hgo ltac:(lia)) as (Hin & _ & Hcnt).
  destruct (C1_threshold_tolerates_only_reaped_children 2 gpg ∅
              (first_then_ok wait_fails) three_blocks)
    as (_ & Hend' & _).
  pose proof (Hend' 3%nat (Ln "-----END ONE-----")
                (block "TWO" "dHdv" ++ block "THREE" "dGhyZWU=") (B "ONE") O
                ltac:(vm_compute; reflexivity) ltac:(vm_compute; reflexivity)
                ltac:(vm_compute; reflexivity) ltac:(vm_compute; reflexivity)
                ltac:(vm_compute; reflexivity)) as Hwait.
  change (wait_status (first_then_ok wait_fails 0)) with (@None wstatus) in Hwait.
  cbv beta iota in Hwait. destruct Hwait as (_ & Hwcode & _).
  destruct (C1_threshold_tolerates_only_reaped_children 0 gpg ∅
              (first_then_ok fork_fails) three_blocks)
    as (Hspawn & _ & _).
  destruct (Hspawn 1%nat (Ln "-----BEGIN ONE-----")
              (Ln "b25l" ++ Ln "-----END ONE-----" ++
               block "TWO" "dHdv" ++ block "THREE" "dGhyZWU=") (B "ONE")
              ltac:(vm_compute; reflexivity) ltac:(vm_compute; reflexivity)
              ltac:(vm_compute; reflexivity) ltac:(vm_compute; reflexivity)
              ltac:(right; vm_compute; reflexivity)) as (_ & Hscode & _).
  split; [split; [exact Hin | split; [|exact Hst]] |].
  - rewrite Hcnt. vm_compute. reflexivity.
  - split; [exact Hu |]. split; [rewrite Hc; vm_compute; reflexivity |].
    split; [vm_compute; reflexivity |]. split; [exact Hwcode | exact Hscode].
Defined.

(** C1 fails as stated: with a threshold of 2, a [waitpid] that fails
    for the first child, and likewise a [fork] or a [pipe] that fails,
    makes [main] return 1 at once.  The two blocks that follow are
    left unread and no child is made for them. *)
Lemma C1_wait_and_spawn_failures_end_the_run :
  let run first := xarmour 2 gpg ∅ (first_then_ok first) three_blocks in
  (exit_code (run wait_fails) = Some 1 ∧
   ended_at_eof (run wait_fails) = false ∧
   length (children (run wait_fails)) = 1%nat ∧
   unread (run wait_fails) = block "TWO" "dHdv" ++ block "THREE" "dGhyZWU=") ∧
  (exit_code (run fork_fails) = Some 1 ∧
   ended_at_eof (run fork_fails) = false ∧
   children (run fork_fails) = [] ∧
   unread (run fork_fails) ≠ []) ∧
  (exit_code (run pipe_fails_here) = Some 1 ∧
   ended_at_eof (run pipe_fails_here) = false ∧
   children (run pipe_fails_here) = [] ∧
   unread (run pipe_fails_here) ≠ []).
Proof. vm_compute. repeat split; discriminate. Qed.

(** * Blocks and their labels *)

(** C6: while a block with label [L] is open, the next line read
    leaves it open exactly when the line is not an END marker with the
    very label [L] and the parent outlives the [write] of the line;
    the pipe of the block's child is closed in that turn exactly when
    the line is an END marker with [L] and the [write] of it has
    returned.  Either way no child is added and the line, as the C
    string it is, is appended to what the child was given.  And a
    block only ever opens on a line that is a BEGIN marker, with that
    marker's label. *)
Theorem C6_only_the_same_label_closes times command environ os stdin n L line rest :
  let run := run_for times command environ os in
  open_label (run n stdin) = Some L →
  fgets MAX_LINE (unread (run n stdin)) = Some (line, rest) →
  (open_label (run (S n) stdin) = Some L ↔
     is_marker end_ line ≠ Some L ∧ killed (run (S n) stdin) = false) ∧
  (open_pipes (children (run (S n) stdin)) = O ↔
     is_marker end_ line = Some L ∧ killed (run (S n) stdin) = false) ∧
  length (children (run (S n) stdin)) = length (children (run n stdin)) ∧
  last_stdin (run (S n) stdin) = last_stdin (run n stdin) ++ cstr line ∧
  (∀ m L0 line0 rest0,
     open_label (run m stdin) = None →
     fgets MAX_LINE (unread (run m stdin)) = Some (line0, rest0) →
     open_label (run (S m) stdin) = Some L0 →
     is_marker begin line0 = Some L0).
Proof.
  intros run Hopen Hline. subst run.
  destruct (open_block_turn _ _ _ _ _ _ _ _ _ Hopen Hline) as (H1 & H2 & H3 & H4).
  split; [exact H1 |]. split; [exact H2 |]. split; [exact H3 |].
  split; [exact H4 |].
  intros m L0 line0 rest0. apply block_opens_on_begin.
Qed.

Lemma C6_only_the_same_label_closes_witness :
  let run n := run_for 0 gpg ∅ (first_then_ok (exits 0)) n nested in
  open_label (run 3%nat) = Some (B "ALPHA") ∧
  last_stdin (run 3%nat) = last_stdin (run 2%nat) ++ Ln "-----END BETA-----" ∧
  open_label (run 4%nat) = None ∧
  open_pipes (children (run 4%nat)) = O.
Proof.
  assert (Hopen2 : open_label (run_for 0 gpg ∅ (first_then_ok (exits 0)) 2 nested)
                     = Some (B "ALPHA")) by (vm_compute; reflexivity).
  assert (Hline2 : fgets MAX_LINE
            (unread (run_for 0 gpg ∅ (first_then_ok (exits 0)) 2 nested)) =
            Some (Ln "-----END BETA-----",
                  Ln "-----END ALPHA-----" ++ Ln "trailer"))
    by (vm_compute; reflexivity).
  destruct (C6_only_the_same_label_closes _ _ _ _ _ _ _ _ _ Hopen2 Hline2)
    as (Hstay & _ & _ & Hfed & _).
  assert (Hopen3 : open_label (run_for 0 gpg ∅ (first_then_ok (exits 0)) 3 nested)
                     = Some (B "ALPHA")).
  { apply Hstay. split; [vm_compute; discriminate | vm_compute; reflexivity]. }
  assert (Hline3 : fgets MAX_LINE
            (unread (run_for 0 gpg ∅ (first_then_ok (exits 0)) 3 nested)) =
            Some (Ln "-----END ALPHA-----", Ln "trailer"))
    by (vm_compute; reflexivity).
  destruct (C6_only_the_same_label_closes _ _ _ _ _ _ _ _ _ Hopen3 Hline3)
    as (Hstay3 & Hclose3 & _ & _ & _).
  split; [exact Hopen3 |]. split; [exact Hfed |]. split.
  - destruct (open_label (run_for 0 gpg ∅ (first_then_ok (exits 0)) 4 nested))
      as [L|] eqn:E; [|reflexivity].
    exfalso. revert E. vm_compute. discriminate.
  - apply Hclose3. split; vm_compute; reflexivity.
Defined.

(** C7: at every point of every run at most one child is not yet
    reaped and at most one pipe is open.  And while a block is open, a
    line that is a BEGIN marker makes no child and is appended, as the
    C string it is, to what the block's child was given; the same
    block is open after it, unless the [write] of the line ended the
    parent. *)
Theorem C7_one_block_one_child times command environ os stdin :
  let run n := run_for times command environ os n stdin in
  (∀ m, (active (children (run m)) ≤ 1)%nat ∧
        (open_pipes (children (run m)) ≤ 1)%nat) ∧
  (active (children (xarmour times command environ os stdin)) ≤ 1)%nat ∧
  (∀ n L line rest L',
     open_label (run n) = Some L →
     fgets MAX_LINE (unread (run n)) = Some (line, rest) →
     is_marker begin line = Some L' →
     (killed (run (S n)) = false → open_label (run (S n)) = Some L) ∧
     (killed (run (S n)) = true → signalled (run (S n)) = Some SIGPIPE) ∧
     length (children (run (S n))) = length (children (run n)) ∧
     last_stdin (run (S n)) = last_stdin (run n) ++ cstr line).
Proof.
  intros run. split; [|split].
  - intros m. apply (good_one_child times os), run_for_good.
  - apply (good_one_child times os), xarmour_good.
  - intros n L line rest L' Hopen Hline Hbegin. subst run. cbv beta in *.
    destruct (open_block_turn _ _ _ _ _ _ _ _ _ Hopen Hline)
      as (H1 & _ & H3 & H4).
    split; [|split; [|done]].
    + intros Halive. apply H1. split; [|done]. by eapply begin_line_is_no_end.
    + pose proof (run_for_good times command environ os (S n) stdin) as Hgood.
      destruct (run_for times command environ os (S n) stdin)
        as [s u|code eof s u|sig s u]; try done.
      destruct Hgood as [-> _]. done.
Qed.

Lemma C7_one_block_one_child_witness :
  let run n := run_for 0 gpg ∅ (first_then_ok (exits 0)) n nested in
  open_label (run 2%nat) = Some (B "ALPHA") ∧
  length (children (run 2%nat)) = 1%nat ∧
  last_stdin (run 2%nat) = Ln "-----BEGIN ALPHA-----" ++ Ln "-----BEGIN BETA-----".
Proof.
  assert (Hopen : open_label (run_for 0 gpg ∅ (first_then_ok (exits 0)) 1 nested)
                    = Some (B "ALPHA")) by (vm_compute; reflexivity).
  assert (Hline : fgets MAX_LINE
            (unread (run_for 0 gpg ∅ (first_then_ok (exits 0)) 1 nested)) =
            Some (Ln "-----BEGIN BETA-----",
                  Ln "-----END BETA-----" ++ Ln "-----END ALPHA-----" ++
                  Ln "trailer"))
    by (vm_compute; reflexivity).
  assert (Hbegin : is_marker begin (Ln "-----BEGIN BETA-----") = Some (B "BETA"))
    by (vm_compute; reflexivity).
  destruct (C7_one_block_one_child 0 gpg ∅ (first_then_ok (exits 0)) nested)
    as (_ & _ & Hnested).
  destruct (Hnested _ _ _ _ _ Hopen Hline Hbegin) as (Hstay & _ & Hlen & Hfed).
  split; [apply Hstay; vm_compute; reflexivity |]. split.
  - rewrite Hlen. vm_compute. reflexivity.
  - rewrite Hfed. vm_compute. reflexivity.
Defined.

(** C9, as the code has it: nothing of a long line is dropped.  The
    lines the loop works on are the pieces [fgets] cuts the input
    into: together they are the input, byte for byte; each has between
    1 and 1023 bytes and ends at a newline, at 1023 bytes or with the
    input; and turn [n] of the loop gives piece [n] to the loop body,
    leaving the pieces after it unread for the turns to come. *)
Theorem C9_long_lines_are_read_in_pieces times command environ os stdin :
  let lines := fgets_lines stdin in
  concat lines = stdin ∧
  (∀ i line, lines !! i = Some line →
     (1 ≤ length line ≤ 1023)%nat ∧
     (last line = Some NL ∨ length line = 1023%nat ∨ S i = length lines)) ∧
  (∀ n s u,
     run_for times command environ os n stdin = Running s u →
     u = concat (drop n lines) ∧
     run_for times command environ os (S n) stdin =
       match lines !! n with
       | None => Exited (after_loop times s) true s []
       | Some line =>
           match loop_body times command environ os line s with
           | Next s' => Running s' (concat (drop (S n) lines))
           | Return code s' => Exited code false s' (concat (drop (S n) lines))
           | Killed_by sig s' => Killed sig s' (concat (drop (S n) lines))
           end
       end).
Proof.
  intros lines. subst lines. split; [apply concat_fgets_lines |].
  split; [apply fgets_lines_shape |].
  intros n s u Hrun.
  destruct (run_for_next_line _ _ _ _ _ _ _ _ Hrun) as [Hu Hnext].
  split; [done |]. unfold run_for in *. simpl. rewrite Hrun. cbn [turn].
  destruct (fgets MAX_LINE u) as [[line rest]|].
  - destruct Hnext as [-> ->]. done.
  - destruct Hnext as [-> ->]. done.
Qed.

Lemma C9_long_lines_are_read_in_pieces_witness :
  fgets_lines long_line =
    [repeat "x"%char 1023; Ln "-----BEGIN ONE-----"; Ln "-----END ONE-----"] ∧
  unread (run_for 0 gpg ∅ (first_then_ok (exits 0)) 1 long_line) =
    Ln "-----BEGIN ONE-----" ++ Ln "-----END ONE-----".
Proof.
  destruct (C9_long_lines_are_read_in_pieces 0 gpg ∅ (first_then_ok (exits 0))
              long_line) as (_ & _ & Hturn).
  split; [vm_compute; reflexivity |].
  destruct (Hturn 1%nat
    (config_state (run_for 0 gpg ∅ (first_then_ok (exits 0)) 1 long_line))
    (unread (run_for 0 gpg ∅ (first_then_ok (exits 0)) 1 long_line))
    ltac:(vm_compute; reflexivity)) as [Hu _].
  rewrite Hu. vm_compute. reflexivity.
Defined.

(** C9 fails as stated: the first line of [long_line] has 1041 bytes,
    and the 18 bytes beyond the 1023 that fit the buffer are not
    discarded.  They are read as the next line, which is a BEGIN
    marker and makes a child. *)
Lemma C9_bytes_beyond_the_bound_are_processed :
  let c := xarmour 0 gpg ∅ (first_then_ok (exits 0)) long_line in
  fst (fgets_store 2000 long_line) =
    repeat "x"%char 1023 ++ Ln "-----BEGIN ONE-----" ∧
  map c_stdin (children c) =
    [Ln "-----BEGIN ONE-----" ++ Ln "-----END ONE-----"] ∧
  exit_code c = Some 0.
Proof. vm_compute. repeat split; reflexivity. Qed.

Lemma lines_without_NUL stdin :
  NUL ∉ stdin → map cstr (fgets_lines stdin) = fgets_lines stdin.
Proof.
  intros Hn. rewrite <- (concat_fgets_lines stdin) in Hn.
  induction (fgets_lines stdin) as [|line lines IH]; [done |].
  simpl in Hn. apply not_elem_of_app in Hn as [H1 H2].
  simpl. by rewrite cstr_id, IH.
Qed.

(** C5, as the code has it.  The lines are the pieces [fgets] cuts
    the input into, and of each the parent writes the C string, the
    bytes before the first NUL.  However the run ends, the lines read
    and the unread input make up the input, and what the children were
    given, child by child, is exactly the text of the blocks that the
    scanner of the specification finds in the C strings of the lines
    read, the BEGIN and END lines included, in the order read: every
    line read inside a block has been written before [main] looks at
    what [waitpid] reports.  The one exception is a run that ends on a
    BEGIN line for which [pipe] or [fork] failed: that line was written
    to no one.  When SIGPIPE ends the run, the last line read is the
    one whose [write] raised it: it was handed to [write] and is
    counted as given, and the child had hung up.  A block is a run of
    lines that starts with a BEGIN marker line, so that bytes outside
    the blocks are in no child's input.  On input without NUL bytes the lines are their own C
    strings, and a run that comes to the end of the input has given
    each child the very bytes of its block. *)
Theorem C5_children_are_given_their_blocks times command environ os stdin :
  let c := xarmour times command environ os stdin in
  let lines := fgets_lines stdin in
  let given := map c_stdin (children c) in
  concat lines = stdin ∧
  (∃ read,
     lines = read ++ fgets_lines (unread c) ∧
     concat read ++ unread c = stdin ∧
     (ended_at_eof c = true → read = lines) ∧
     (killed c = true →
        read ≠ [] ∧
        is_Some (sigpipe_after (os (length (children c) - 1)%nat))) ∧
     given_blocks os read c) ∧
  Forall (starts_at_begin (map cstr lines))
    (block_texts (scan (map cstr lines))) ∧
  fed_within given (block_texts (scan (map cstr lines))) ∧
  (NUL ∉ stdin →
     map cstr lines = lines ∧
     (ended_at_eof c = true → given = armoured_blocks stdin) ∧
     fed_within given (armoured_blocks stdin) ∧
     Forall (starts_at_begin lines) (armoured_blocks stdin)).
Proof.
  intros c lines given. subst c lines given.
  pose proof (run_for_follows_scanner times command environ os
                (S (length stdin)) stdin) as H.
  fold (xarmour times command environ os stdin) in H.
  pose proof (follows_scanner_within os _ _ H) as Hwithin.
  assert (Hread : ∃ read,
     fgets_lines stdin =
       read ++ fgets_lines (unread (xarmour times command environ os stdin)) ∧
     (ended_at_eof (xarmour times command environ os stdin) = true →
        read = fgets_lines stdin) ∧
     (killed (xarmour times command environ os stdin) = true →
        read ≠ [] ∧
        is_Some (sigpipe_after (os (length (children
          (xarmour times command environ os stdin)) - 1)%nat))) ∧
     given_blocks os read (xarmour times command environ os stdin)).
  { destruct H as (read & Hl & H). exists read. split; [done |].
    pose proof (xarmour_good times command environ os stdin) as Hgood.
    destruct (xarmour_ends times command environ os stdin)
      as [(code & eof & s & u & Hc)|(s & u & Hc)]; rewrite Hc in *.
    - destruct eof.
      + destruct H as [[H _] ->]. split; [done |]. split; [done |]. by left.
      + split; [done |]. split; [done | exact H].
    - destruct H as [Hne H]. split; [done |]. split; [|by left].
      intros _. split; [done |].
      destruct Hgood as (_ & Hwf & Hf & Hgone).
      destruct (wf_open _ _ Hwf Hf) as (ps & ch & Hps & Hfd & _).
      unfold children. simpl. rewrite Hps, length_app. simpl.
      by replace (length ps + 1 - 1)%nat with (pipefd s) by lia. }
  destruct Hread as (read & Hl & Heof & Hkill & Hgiven).
  split; [apply concat_fgets_lines |]. split; [|split; [|split]].
  - exists read. split; [done |]. split; [|done].
    transitivity (concat (fgets_lines stdin)); [|apply concat_fgets_lines].
    rewrite Hl, concat_app, concat_fgets_lines. done.
  - apply scan_starts_at_begin.
  - done.
  - intros Hn. unfold armoured_blocks.
    rewrite (lines_without_NUL _ Hn) in Hwithin.
    split; [by apply lines_without_NUL |]. split; [|split; [done |]].
    + intros Hend. clear Hl Heof Hkill Hgiven Hwithin.
      pose proof (run_for_follows_scanner times command environ os
                    (S (length stdin)) stdin) as (read' & _ & H').
      fold (xarmour times command environ os stdin) in H'.
      unfold children.
      destruct (xarmour times command environ os stdin)
        as [s u|code eof s u|sig s u]; try done.
      simpl in Hend. subst eof. destruct H' as [[H' _] ->]. simpl.
      by rewrite (lines_without_NUL _ Hn) in H'.
    + apply scan_starts_at_begin.
Qed.

Lemma C5_children_are_given_their_blocks_witness :
  map c_stdin (children (xarmour 2 gpg ∅ (first_then_ok (exits 1)) three_blocks))
    = [block "ONE" "b25l"; block "TWO" "dHdv"; block "THREE" "dGhyZWU="].
Proof.
  assert (Hn : NUL ∉ three_blocks).
  { apply (bool_decide_unpack _). vm_compute. exact I. }
  destruct (C5_children_are_given_their_blocks 2 gpg ∅
              (first_then_ok (exits 1)) three_blocks) as (_ & _ & _ & _ & Hclean).
  destruct (Hclean Hn) as (_ & Heof & _ & _).
  rewrite Heof; vm_compute; reflexivity.
Defined.

(** A run that returns when the first child has exited with 7 has
    written the whole of that child's block, END line included. *)
Example early_return_has_written_the_block :
  map c_stdin (children (xarmour 0 gpg ∅ (first_then_ok (exits 7)) two_blocks))
    = [block "ONE" "b25l"].
Proof. vm_compute. reflexivity. Qed.

(** C5 fails as stated on input with a NUL byte: of the line
    [ab NUL cd newline] inside the block the child is given the two
    bytes before the NUL only, so that its input is not the text of
    the block. *)
Lemma C5_bytes_after_a_NUL_are_not_written :
  let c := xarmour 0 gpg ∅ (first_then_ok (exits 0)) with_NUL in
  armoured_blocks with_NUL = [with_NUL] ∧
  map c_stdin (children c) =
    [Ln "-----BEGIN ONE-----" ++ B "ab" ++ Ln "-----END ONE-----"] ∧
  map c_stdin (children c) ≠ armoured_blocks with_NUL.
Proof. vm_compute. repeat split; discriminate. Qed.

(** C8: when the input ends while a block is open, [main] leaves the
    loop with the block's child as it is: its pipe still open, no
    [waitpid] done for it.  All children before it are closed and
    reaped, the count is the number of those that exited 0, and
    without threshold [main] returns 0.  Nothing depends on what
    [waitpid] would have reported for the child: the whole run is the
    same under any system that differs in that only. *)
Theorem C8_block_open_at_end_of_input times command environ os stdin :
  let c := xarmour times command environ os stdin in
  ended_at_eof c = true → 0 ≤ f (config_state c) →
  ∃ ps ch,
    children c = ps ++ [ch] ∧
    c_pipe_open ch = true ∧ c_status ch = None ∧
    Forall finished ps ∧
    unread c = [] ∧
    count (config_state c) = successes ps ∧
    exit_code c = Some (after_loop times (config_state c)) ∧
    (times = 0 → exit_code c = Some 0) ∧
    (∀ os', same_but_wait (length ps) os os' →
            xarmour times command environ os' stdin = c).
Proof.
  intros c Heof Hf.
  assert (Hu : unread c = []) by (by apply eof_all_read).
  pose proof (xarmour_good times command environ os stdin) as Hgood.
  fold c in Hgood.
  assert (Hsame : ∀ j os', same_but_wait j os os' →
            ¬ pipe_closed j (children c) →
            xarmour times command environ os' stdin = c).
  { intros j os' Hs Hopen. by apply (run_for_same _ _ _ os os' j). }
  clearbody c. destruct c as [s u|code eof s u|sig s u]; [done | |done].
  simpl in Heof, Hf, Hu. subst eof. unfold children in *. simpl in *.
  inversion Hgood as [s0 Hwf| | |]; subst.
  destruct (wf_open _ _ Hwf Hf) as (ps & ch & Hps & Hfd & Hfin & Hpipe & Hst).
  exists ps, ch. rewrite (wf_count _ _ Hwf), Hps.
  rewrite successes_app, successes_one. unfold exited_ok. rewrite Hst.
  repeat split; try done.
  - lia.
  - intros ->. done.
  - intros os' Hs. apply (Hsame (length ps)); [done |].
    intros (ch' & Hch' & Hclosed). rewrite Hps, list_lookup_middle in Hch' by done.
    congruence.
Qed.

Lemma C8_block_open_at_end_of_input_witness :
  let c := xarmour 0 gpg ∅ (first_then_ok (exits 0)) unterminated in
  exit_code c = Some 0 ∧
  xarmour 0 gpg ∅ (λ k, match k with 1%nat => wait_fails | _ => exits 0 end)
    unterminated = c.
Proof.
  destruct (C8_block_open_at_end_of_input 0 gpg ∅ (first_then_ok (exits 0))
              unterminated ltac:(vm_compute; reflexivity)
              ltac:(vm_compute; discriminate))
    as (ps & ch & Hps & _ & _ & _ & _ & _ & _ & Hzero & Hsame).
  split; [exact (Hzero eq_refl) |].
  apply Hsame.
  assert (Hlen : length (children (xarmour 0 gpg ∅ (first_then_ok (exits 0))
                   unterminated)) = 2%nat) by (vm_compute; reflexivity).
  rewrite Hps, length_app in Hlen. change (length [ch]) with 1%nat in Hlen.
  clear Hps Hzero Hsame.
  assert (length ps = 1%nat) as -> by lia. clear Hlen.
  intros [|[|k]]; cbn; repeat split; congruence.
Defined.




(** The END line of the claim, two dashes short, closes the block
    ALPHA, and a BEGIN line without dashes opens a block that only an
    END line without dashes closes. *)
Example short_markers_run :
  let run stdin := xarmour 0 gpg ∅ (first_then_ok (exits 0)) stdin in
  map c_stdin (children (run (Ln "-----BEGIN ALPHA-----" ++ Ln "YQ==" ++
                              Ln "-----END ALPHA--" ++ Ln "after"))) =
    [Ln "-----BEGIN ALPHA-----" ++ Ln "YQ==" ++ Ln "-----END ALPHA--"] ∧
  open_pipes (children (run (Ln "-----BEGIN ALPHA-----" ++ Ln "YQ==" ++
                             Ln "-----END ALPHA--" ++ Ln "after"))) = O ∧
  open_pipes (children (run (Ln "-----BEGIN ALPHA" ++ Ln "YQ==" ++
                             Ln "-----END ALPHA-----"))) = 1%nat ∧
  open_pipes (children (run (Ln "-----BEGIN ALPHA" ++ Ln "YQ==" ++
                             Ln "-----END ALPHA"))) = O.
Proof. vm_compute. repeat split; reflexivity. Qed.

(** * More of [main] *)

(** ** The books the parent keeps *)

Lemma open_pipes_finished_snoc ps ch :
  Forall finished ps →
  open_pipes (ps ++ [ch]) = if c_pipe_open ch then 1%nat else O.
Proof.
  intros Hfin. rewrite open_pipes_app, finished_not_open by done.
  unfold open_pipes. simpl. by destruct (c_pipe_open ch).
Qed.

Section BooksKept.

Variable times : Z.
Variable command : list string.
Variable environ : gmap string string.
Variable os : nat -> fate.

Local Notation "'child_ok1'" := (child_ok command environ os).
Local Notation "'books1'" := (books command environ os).

Lemma child_ok_ext ps ps' k ch :
  take k ps = take k ps' → child_ok1 ps k ch → child_ok1 ps' k ch.
Proof. intros Ht [? ? ? ? ? ? ? ?]. split; try done. by rewrite <- Ht. Qed.

Lemma children_ok_snoc ps ch' :
  (∀ k ch, ps !! k = Some ch → child_ok1 ps k ch) →
  child_ok1 ps (length ps) ch' →
  ∀ k ch, (ps ++ [ch']) !! k = Some ch → child_ok1 (ps ++ [ch']) k ch.
Proof.
  intros Hps Hch k ch Hk. apply lookup_app_Some in Hk as [Hk|[Hge Hk]].
  - apply (child_ok_ext ps); [|by apply Hps].
    apply lookup_lt_Some in Hk. rewrite take_app_le by lia. done.
  - destruct (k - length ps)%nat as [|?] eqn:E; [|done]. injection Hk as <-.
    assert (k = length ps) as -> by lia.
    apply (child_ok_ext ps); [|done]. by rewrite take_app_length, firstn_all.
Qed.

Lemma children_ok_snoc_inv ps ch :
  (∀ k c, (ps ++ [ch]) !! k = Some c → child_ok1 (ps ++ [ch]) k c) →
  (∀ k c, ps !! k = Some c → child_ok1 ps k c) ∧
  child_ok1 ps (length ps) ch.
Proof.
  intros H. split.
  - intros k c Hk. apply (child_ok_ext (ps ++ [ch])).
    + apply lookup_lt_Some in Hk. rewrite take_app_le by lia. done.
    + apply H. by apply lookup_app_l_Some.
  - apply (child_ok_ext (ps ++ [ch])).
    + by rewrite take_app_length, firstn_all.
    + apply H. by rewrite list_lookup_middle.
Qed.

Lemma labelled_fed data ch ch' :
  c_stdin ch' = c_stdin ch ++ data → c_env ch' = c_env ch →
  labelled ch → labelled ch'.
Proof.
  intros Hin Henv (line & more & label & Hs & Hm & He).
  exists line, (more ++ data), label. rewrite Hin, Henv, Hs, <- app_assoc. done.
Qed.

(** Seeking the start of the armour, with the child it makes. *)
Lemma seek_begin_child buffer s :
  f s < 0 →
  match seek_begin times command environ os buffer s with
  | Next s' =>
      count s' = count s ∧ index s' = index s ∧
      ((is_marker begin buffer = None ∧ f s' < 0 ∧ procs s' = procs s) ∨
       (∃ pid, fork_pid (os (length (procs s))) = Some pid ∧
               is_marker begin buffer = Some (blabel s') ∧
               0 ≤ f s' ∧ pipefd s' = length (procs s) ∧
               procs s' = procs s ++
                 [ {| c_pid := Z.pos pid; c_argv := command;
                      c_env := child_env times environ s (blabel s');
                      c_stdin := []; c_pipe_open := true;
                      c_status := None |} ]))
  | Return code s' =>
      count s' = count s ∧ index s' = index s ∧ procs s' = procs s
  | Killed_by _ _ => False
  end.
Proof.
  intros Hf. unfold seek_begin. destruct (Z.ltb_spec (f s) 0); [|lia].
  rewrite is_marker_begin.
  pose proof (sscanf_begin_cases buffer (blabel s)) as Hs.
  destruct (marker_label (B "-----BEGIN") (cstr buffer)) as [l|].
  - rewrite Hs. simpl.
    destruct (pipe_fails (os (length (procs s)))); [done |].
    destruct (fork_pid (os (length (procs s)))) as [pid|]; [|done].
    simpl. split; [done |]. split; [done |]. right. exists pid.
    split; [done |]. split; [done |]. split; [lia | done].
  - destruct (sscanf buffer begin (blabel s)) as [n label]. simpl in Hs.
    destruct Hs as [_ Hn]. destruct (Z.eqb_spec n 1); [done |].
    simpl. split; [done |]. split; [done |]. by left.
Qed.

(** The line that ends the open block, with what becomes of the
    block's child and of the counters. *)
Lemma loop_body_end_child buffer s ps ch :
  wf times s → 0 ≤ f s → procs s = ps ++ [ch] → pipefd s = length ps →
  broken_pipe (os (length ps)) (length (c_stdin ch)) (strlen buffer) = false →
  is_marker end_ buffer = Some (blabel s) →
  let s' := flow_state (loop_body times command environ os buffer s) in
  let fed := child_close (child_write (cstr buffer) ch) in
  procs s' = ps ++ [match wait_status (os (length ps)) with
                    | Some status => child_reap status fed
                    | None => fed
                    end] ∧
  index s' = index s + 1 ∧
  count s' = count s + match wait_status (os (length ps)) with
                       | Some status => if exit_ok status then 1 else 0
                       | None => 0
                       end.
Proof.
  intros Hwf Hf Hps Hfd Hbp Heq. cbv zeta.
  rewrite (loop_body_end_flow times command environ os buffer s ps ch)
    by done.
  destruct (wait_status (os (length ps))) as [status|]; [|simpl; split; [done | lia]].
  destruct (exit_ok status); [simpl; done |].
  destruct (negb (times =? 0)); simpl; split; (done || lia).
Qed.

Lemma child_env_index s label :
  child_env times environ s label !! "XARMOUR_INDEX"%string = Some (ld (index s)).
Proof.
  unfold child_env. rewrite !lookup_insert_ne by done. by rewrite lookup_insert_eq.
Qed.

Lemma child_env_count s label :
  child_env times environ s label !! "XARMOUR_COUNT"%string = Some (ld (count s)).
Proof.
  unfold child_env. rewrite !lookup_insert_ne by done. by rewrite lookup_insert_eq.
Qed.

Lemma child_env_label s label :
  child_env times environ s label !! "XARMOUR_LABEL"%string =
  Some (string_of_list_ascii label).
Proof. unfold child_env. by rewrite lookup_insert_eq. Qed.

Lemma child_env_inherit s label v :
  v ∉ XARMOUR → child_env times environ s label !! v = environ !! v.
Proof.
  unfold XARMOUR. rewrite !not_elem_of_cons. intros (? & ? & ? & ? & _).
  unfold child_env. by rewrite !lookup_insert_ne by done.
Qed.

Lemma child_ok_fed ps k ch data :
  child_ok1 ps k ch → c_pipe_open ch = true →
  child_ok1 ps k (child_write data ch).
Proof.
  intros [? ? ? ? ? ? ? ?] Hopen. split; simpl; try done.
  by apply (labelled_fed data ch).
Qed.

Lemma child_ok_closed ps k ch data :
  child_ok1 ps k ch → c_pipe_open ch = true →
  child_ok1 ps k
    match wait_status (os k) with
    | Some status => child_reap status (child_close (child_write data ch))
    | None => child_close (child_write data ch)
    end.
Proof.
  intros [? ? ? ? ? ? ? Hnone] Hopen.
  destruct (wait_status (os k)) as [status|] eqn:Ew; split; simpl; try done.
  - by apply (labelled_fed data ch).
  - by apply (labelled_fed data ch).
  - intros _. rewrite Ew. by apply Hnone.
Qed.

(** The loop body keeps the books. *)
Lemma loop_body_books buffer s :
  wf times s → books1 s →
  books1 (flow_state (loop_body times command environ os buffer s)).
Proof.
  intros Hwf [Hch Hcount Hindex].
  destruct (Z.lt_ge_cases (f s) 0) as [Hf|Hf].
  - pose proof (wf_idle _ _ Hwf Hf) as Hfin.
    rewrite (finished_not_open _ Hfin), Nat.sub_0_r in Hindex.
    pose proof (seek_begin_child buffer s Hf) as Hb.
    pose proof (seek_begin_good times command environ os buffer s Hwf) as Hg.
    unfold loop_body.
    destruct (seek_begin times command environ os buffer s) as [s1|code s1|sig s1];
      [| |done].
    + destruct Hb as (Hc1 & Hi1 & [(Hno & Hf1 & Hps1)
                                  |(pid & Hfork & Hyes & Hf1 & Hfd1 & Hps1)]).
      * unfold seek_end. destruct (Z.leb_spec 0 (f s1)); [lia |]. simpl.
        split.
        -- by rewrite Hps1.
        -- by rewrite Hc1, Hps1.
        -- by rewrite Hi1, Hps1, (finished_not_open _ Hfin), Nat.sub_0_r.
      * assert (Hbody : ∃ r,
          seek_end times os buffer s1 = r ∧
          flow_state r =
            {| f := f s1; blabel := blabel s1; index := index s1;
               count := count s1; pipefd := pipefd s1;
               procs := procs s ++
                 [child_write (cstr buffer)
                    {| c_pid := Z.pos pid; c_argv := command;
                       c_env := child_env times environ s (blabel s1);
                       c_stdin := []; c_pipe_open := true;
                       c_status := None |}] |}).
        { eexists. split; [done |].
          destruct (broken_pipe (os (length (procs s))) O (strlen buffer))
            eqn:Hbp.
          - pose proof (loop_body_broken times command environ os buffer s1
                          (procs s) _ Hf1 Hps1 Hfd1 Hbp) as Hbody.
            unfold loop_body in Hbody.
            rewrite seek_begin_open in Hbody by done. by rewrite Hbody.
          - pose proof (loop_body_inside times command environ os buffer s1
                          (procs s) _ Hg Hf1 Hps1 Hfd1 Hbp
                          (begin_line_is_no_end _ _ _ Hyes)) as Hbody.
            unfold loop_body in Hbody.
            rewrite seek_begin_open in Hbody by done. by rewrite Hbody. }
        destruct Hbody as (r & -> & ->). split; simpl.
        -- apply children_ok_snoc; [done |]. split; simpl.
           ++ done.
           ++ by rewrite Hfork.
           ++ by rewrite child_env_index, Hindex.
           ++ by rewrite child_env_count, Hcount, firstn_all.
           ++ apply child_env_inherit.
           ++ exists buffer, [], (blabel s1). simpl. rewrite app_nil_r.
              split; [done |]. split; [done |]. apply child_env_label.
           ++ done.
           ++ done.
        -- rewrite Hc1, Hcount, successes_app, successes_one. simpl. lia.
        -- rewrite Hi1, Hindex, length_app, open_pipes_finished_snoc by done.
           simpl. lia.
    + simpl. destruct Hb as (Hc1 & Hi1 & Hps1). split.
      * by rewrite Hps1.
      * by rewrite Hc1, Hps1.
      * by rewrite Hi1, Hps1, (finished_not_open _ Hfin), Nat.sub_0_r.
  - destruct (wf_open _ _ Hwf Hf) as (ps & ch & Hps & Hfd & Hfin & Hpipe & Hst).
    rewrite Hps in Hch, Hcount, Hindex.
    rewrite open_pipes_finished_snoc, Hpipe, length_app in Hindex by done.
    simpl in Hindex.
    rewrite successes_app, successes_one in Hcount.
    unfold exited_ok in Hcount. rewrite Hst in Hcount.
    destruct (children_ok_snoc_inv _ _ Hch) as [Hold Hlast].
    destruct (broken_pipe (os (length ps)) (length (c_stdin ch)) (strlen buffer))
      eqn:Hbp.
    { rewrite (loop_body_broken times command environ os buffer s ps ch)
        by done.
      simpl. split; simpl.
      * apply children_ok_snoc; [done |]. by apply child_ok_fed.
      * rewrite successes_app, successes_one. unfold exited_ok. simpl.
        rewrite Hst. lia.
      * rewrite Hindex, length_app, open_pipes_finished_snoc by done.
        simpl. rewrite Hpipe. lia. }
    destruct (decide (is_marker end_ buffer = Some (blabel s))) as [Heq|Hne].
    + destruct (loop_body_end_child buffer s ps ch Hwf Hf Hps Hfd Hbp Heq)
        as (Hps' & Hi' & Hc').
      split.
      * rewrite Hps'. apply children_ok_snoc; [done |].
        by apply child_ok_closed.
      * rewrite Hc', Hps', Hcount, successes_app, successes_one.
        unfold exited_ok.
        destruct (wait_status (os (length ps))) as [status|]; simpl.
        -- destruct (exit_ok status); lia.
        -- rewrite Hst. lia.
      * rewrite Hi', Hps', Hindex, length_app, open_pipes_finished_snoc by done.
        destruct (wait_status (os (length ps))); simpl; lia.
    + rewrite (loop_body_inside times command environ os buffer s ps ch)
        by done.
      simpl. split; simpl.
      * apply children_ok_snoc; [done |]. by apply child_ok_fed.
      * rewrite successes_app, successes_one. unfold exited_ok. simpl.
        rewrite Hst. lia.
      * rewrite Hindex, length_app, open_pipes_finished_snoc by done.
        simpl. rewrite Hpipe. lia.
Qed.

(** The books are right at every point of every run. *)
Lemma run_for_books n stdin :
  books1 (config_state (run_for times command environ os n stdin)).
Proof.
  pose proof (run_for_good times command environ os n stdin) as Hgood.
  unfold run_for in *. induction n as [|n IH]; simpl.
  { split; simpl; [done.. | ]. done. }
  pose proof (run_for_good times command environ os n stdin) as Hwf.
  unfold run_for in Hwf.
  destruct (Nat.iter n _ _) as [s u|code eof s u|sig s u]; [|by apply IH..].
  specialize (IH Hwf). simpl in IH. cbn [turn].
  destruct (fgets MAX_LINE u) as [[line rest]|]; [|done].
  pose proof (loop_body_books line s Hwf IH) as H.
  by destruct (loop_body times command environ os line s).
Qed.

Lemma xarmour_books stdin :
  books1 (config_state (xarmour times command environ os stdin)).
Proof. apply run_for_books. Qed.

End BooksKept.

(** ** The environment and the command of a child *)

Lemma marker_label_shaped kw s label :
  NUL ∉ s → marker_label kw s = Some label → label_shaped label.
Proof.
  intros Hs H. split; [|split; [|by eapply marker_label_no_NUL]].
  - unfold marker_label in H. destruct (strip_prefix kw s) as [s'|]; [|done].
    destruct (scan_not_spec 1000 DASH (skip_space s')) as (rest & _ & _ & Hlen & _).
    destruct (scan_not 1000 DASH (skip_space s')) as [|c l]; [done |].
    injection H as <-. simpl in *. lia.
  - unfold marker_label in H. destruct (strip_prefix kw s) as [s'|]; [|done].
    destruct (scan_not_spec 1000 DASH (skip_space s')) as (rest & _ & Hno & _).
    destruct (scan_not 1000 DASH (skip_space s')) as [|c l]; [done |].
    by injection H as <-.
Qed.

Lemma is_marker_begin_shaped line label :
  is_marker begin line = Some label → label_shaped label.
Proof.
  rewrite is_marker_begin. apply marker_label_shaped, cstr_no_NUL.
Qed.

(** X1: the [k]-th child made in a run, counting from 0, finds [k]
    in XARMOUR_INDEX. *)
Theorem X1_index_is_the_ordinal times command environ os stdin k ch :
  children (xarmour times command environ os stdin) !! k = Some ch →
  c_env ch !! "XARMOUR_INDEX"%string = Some (ld (Z.of_nat k)).
Proof.
  intros Hk.
  destruct (xarmour_books times command environ os stdin) as [Hch _ _].
  by destruct (Hch k ch Hk).
Qed.

Lemma X1_index_is_the_ordinal_witness :
  ∃ ch, children (xarmour 0 gpg ∅ (first_then_ok (exits 0)) two_blocks) !! 1%nat
          = Some ch ∧
        c_env ch !! "XARMOUR_INDEX"%string = Some "1"%string.
Proof.
  assert (H : ∃ ch, children (xarmour 0 gpg ∅ (first_then_ok (exits 0))
                      two_blocks) !! 1%nat = Some ch).
  { vm_compute. eexists. reflexivity. }
  destruct H as [ch Hch]. exists ch. split; [exact Hch |].
  exact (X1_index_is_the_ordinal _ _ _ _ _ _ _ Hch).
Defined.

(** X2: a child finds in XARMOUR_COUNT the number of children made
    before it that exited 0. *)
Theorem X2_count_is_the_successes_before times command environ os stdin k ch :
  children (xarmour times command environ os stdin) !! k = Some ch →
  c_env ch !! "XARMOUR_COUNT"%string =
    Some (ld (successes
                (take k (children (xarmour times command environ os stdin))))).
Proof.
  intros Hk.
  destruct (xarmour_books times command environ os stdin) as [Hch _ _].
  by destruct (Hch k ch Hk).
Qed.

Lemma X2_count_is_the_successes_before_witness :
  ∃ ch, children (xarmour 2 gpg ∅ (first_then_ok (exits 1)) three_blocks) !! 2%nat
          = Some ch ∧
        c_env ch !! "XARMOUR_COUNT"%string = Some "1"%string.
Proof.
  assert (H : ∃ ch, children (xarmour 2 gpg ∅ (first_then_ok (exits 1))
                      three_blocks) !! 2%nat = Some ch).
  { vm_compute. eexists. reflexivity. }
  destruct H as [ch Hch]. exists ch. split; [exact Hch |].
  rewrite (X2_count_is_the_successes_before _ _ _ _ _ _ _ Hch).
  clear Hch. vm_compute. reflexivity.
Defined.

Section Made.

Variable times : Z.
Variable command : list string.
Variable environ : gmap string string.
Variable os : nat -> fate.

(** What one pass through the loop body does to the children: nothing,
    or it hands the line to the youngest, or it makes a child for the
    BEGIN marker the line is and hands the line to it. *)
Lemma loop_body_procs buffer s :
  wf times s →
  let s' := flow_state (loop_body times command environ os buffer s) in
  procs s' = procs s ∨
  (∃ ps ch ch', procs s = ps ++ [ch] ∧ procs s' = ps ++ [ch'] ∧
     c_env ch' = c_env ch ∧ c_stdin ch' = c_stdin ch ++ cstr buffer) ∨
  (∃ ch' label, procs s' = procs s ++ [ch'] ∧
     is_marker begin buffer = Some label ∧
     c_env ch' !! "XARMOUR_LABEL"%string =
       Some (string_of_list_ascii label) ∧
     c_stdin ch' = cstr buffer).
Proof.
  intros Hwf. cbv zeta. destruct (Z.lt_ge_cases (f s) 0) as [Hf|Hf].
  - pose proof (seek_begin_child times command environ os buffer s Hf) as Hb.
    pose proof (seek_begin_good times command environ os buffer s Hwf) as Hg.
    unfold loop_body.
    destruct (seek_begin times command environ os buffer s) as [s1|code s1|sig s1];
      [| |done].
    + destruct Hb as (_ & _ & [(Hno & Hf1 & Hps1)
                              |(pid & Hfork & Hyes & Hf1 & Hfd1 & Hps1)]).
      * left. unfold seek_end. destruct (Z.leb_spec 0 (f s1)); [lia | done].
      * right. right.
        exists (child_write (cstr buffer)
                  {| c_pid := Z.pos pid; c_argv := command;
                     c_env := child_env times environ s (blabel s1);
                     c_stdin := []; c_pipe_open := true;
                     c_status := None |}), (blabel s1).
        split; [|split; [done | split; [apply child_env_label | done]]].
        destruct (broken_pipe (os (length (procs s))) O (strlen buffer))
          eqn:Hbp.
        -- pose proof (loop_body_broken times command environ os buffer s1
                         (procs s) _ Hf1 Hps1 Hfd1 Hbp) as Hbody.
           unfold loop_body in Hbody.
           rewrite seek_begin_open in Hbody by done. by rewrite Hbody.
        -- pose proof (loop_body_inside times command environ os buffer s1
                         (procs s) _ Hg Hf1 Hps1 Hfd1 Hbp
                         (begin_line_is_no_end _ _ _ Hyes)) as Hbody.
           unfold loop_body in Hbody.
           rewrite seek_begin_open in Hbody by done. by rewrite Hbody.
    + left. by destruct Hb as (_ & _ & Hps1).
  - destruct (wf_open _ _ Hwf Hf) as (ps & ch & Hps & Hfd & Hfin & Hlive).
    right. left. exists ps, ch.
    destruct (broken_pipe (os (length ps)) (length (c_stdin ch)) (strlen buffer))
      eqn:Hbp.
    { rewrite (loop_body_broken times command environ os buffer s ps ch)
        by done.
      by eexists. }
    destruct (decide (is_marker end_ buffer = Some (blabel s))) as [Heq|Hne].
    + destruct (loop_body_end_child times command environ os buffer s ps ch
                  Hwf Hf Hps Hfd Hbp Heq) as (-> & _).
      eexists. split; [done |]. split; [done |].
      by destruct (wait_status (os (length ps))).
    + rewrite (loop_body_inside times command environ os buffer s ps ch)
        by done.
      by eexists.
Qed.

(** Every child of a run was made in one turn of the loop, the turn
    that read the BEGIN marker whose label it was given, and that line
    is the first thing it was handed. *)
Lemma run_for_made n stdin k ch :
  children (run_for times command environ os n stdin) !! k = Some ch →
  ∃ m line label,
    length (children (run_for times command environ os m stdin)) = k ∧
    length (children (run_for times command environ os (S m) stdin)) = S k ∧
    fgets_lines stdin !! m = Some line ∧
    is_marker begin line = Some label ∧
    c_env ch !! "XARMOUR_LABEL"%string = Some (string_of_list_ascii label) ∧
    cstr line `prefix_of` c_stdin ch.
Proof.
  revert k ch. induction n as [|n IH]; intros k ch; [done |].
  pose proof (run_for_good times command environ os n stdin) as Hgood.
  pose proof (run_for_next_line times command environ os n stdin) as Hline.
  assert (Hnext : run_for times command environ os (S n) stdin =
            turn times command environ os
              (run_for times command environ os n stdin)) by done.
  destruct (run_for times command environ os n stdin)
    as [s u|code eof s u|sig s u] eqn:Hrun;
    [|rewrite Hnext; apply IH..].
  specialize (Hline s u eq_refl) as [_ Hline].
  cbn [turn] in Hnext.
  destruct (fgets MAX_LINE u) as [[line rest]|];
    [|rewrite Hnext; apply IH].
  destruct Hline as [Hline _].
  pose proof (loop_body_procs line s Hgood) as Hprocs. cbv zeta in Hprocs.
  assert (Hch : children (run_for times command environ os (S n) stdin) =
            procs (flow_state (loop_body times command environ os line s))).
  { rewrite Hnext. by destruct (loop_body times command environ os line s). }
  intros Hk.
  destruct Hprocs as [Hsame|[(ps & ch0 & ch' & Hps & Hps' & Henv & Hin)
                            |(ch' & label & Hps' & Hm & Henv & Hin)]].
  - apply IH. unfold children at 1. simpl. by rewrite <- Hsame, <- Hch.
  - rewrite Hch, Hps' in Hk.
    apply lookup_app_Some in Hk as [Hk|[Hge Hk]].
    + apply IH. unfold children. simpl. rewrite Hps.
      by apply lookup_app_l_Some.
    + destruct (k - length ps)%nat as [|?] eqn:E; [|done].
      injection Hk as <-. assert (k = length ps) as -> by lia.
      destruct (IH (length ps) ch0) as (m & l & lb & H1 & H2 & H3 & H4 & H5 & H6).
      { unfold children. simpl. by rewrite Hps, list_lookup_middle. }
      exists m, l, lb. rewrite Henv, Hin.
      repeat split; try done. by apply prefix_app_r.
  - rewrite Hch, Hps' in Hk.
    apply lookup_app_Some in Hk as [Hk|[Hge Hk]].
    + apply IH. by unfold children.
    + destruct (k - length (procs s))%nat as [|?] eqn:E; [|done].
      injection Hk as <-. assert (k = length (procs s)) as -> by lia.
      exists n, line, label. rewrite Hrun, Hch, Hps', length_app, Hin.
      unfold children. simpl. repeat split; try done. lia.
Qed.

End Made.

(** X3: every child was made in one turn of the loop: child number
    [k] in the turn in which the number of children went from [k] to
    [k + 1].  The line of the input read in that turn is a BEGIN
    marker; XARMOUR_LABEL in the child's environment is the label of
    that marker, 1 to 1000 bytes without dash or NUL; and that line is
    the first thing the child was given. *)
Theorem X3_label_is_the_label_of_the_block times command environ os stdin k ch :
  children (xarmour times command environ os stdin) !! k = Some ch →
  ∃ n line label,
    length (children (run_for times command environ os n stdin)) = k ∧
    length (children (run_for times command environ os (S n) stdin)) = S k ∧
    fgets_lines stdin !! n = Some line ∧
    is_marker begin line = Some label ∧
    c_env ch !! "XARMOUR_LABEL"%string = Some (string_of_list_ascii label) ∧
    label_shaped label ∧
    cstr line `prefix_of` c_stdin ch.
Proof.
  intros Hk.
  destruct (run_for_made times command environ os _ _ _ _ Hk)
    as (n & line & label & H1 & H2 & H3 & H4 & H5 & H6).
  exists n, line, label. repeat split; try done;
    by apply (is_marker_begin_shaped line).
Qed.

Lemma X3_label_is_the_label_of_the_block_witness :
  ∃ ch,
    children (xarmour 0 gpg ∅ (first_then_ok (exits 0))
                (Ln "preamble" ++ block "CERTIFICATE" "TUlJ")) !! O = Some ch ∧
    c_env ch !! "XARMOUR_LABEL"%string = Some "CERTIFICATE"%string.
Proof.
  assert (H : ∃ ch, children (xarmour 0 gpg ∅ (first_then_ok (exits 0))
                      (Ln "preamble" ++ block "CERTIFICATE" "TUlJ")) !! O
                    = Some ch).
  { vm_compute. eexists. reflexivity. }
  destruct H as (ch & Hch). exists ch. split; [exact Hch |].
  destruct (X3_label_is_the_label_of_the_block _ _ _ _ _ _ _ Hch)
    as (n & line & label & Hn & Hn' & Hline & Hm & He & _ & _).
  clear Hch. rewrite He. clear He.
  assert (n = 1%nat) as ->.
  { destruct n as [|[|[|[|[|n]]]]]; try reflexivity; exfalso.
    - revert Hn'. vm_compute. discriminate.
    - revert Hn. vm_compute. discriminate.
    - revert Hn. vm_compute. discriminate.
    - revert Hn. vm_compute. discriminate.
    - revert Hline. vm_compute. discriminate. }
  clear Hn Hn'.
  assert (Hl : fgets_lines (Ln "preamble" ++ block "CERTIFICATE" "TUlJ") !! 1%nat
               = Some (Ln "-----BEGIN CERTIFICATE-----"))
    by (vm_compute; reflexivity).
  rewrite Hl in Hline. injection Hline as <-.
  assert (Hm' : is_marker begin (Ln "-----BEGIN CERTIFICATE-----")
                = Some (B "CERTIFICATE")) by (vm_compute; reflexivity).
  rewrite Hm' in Hm. injection Hm as <-. reflexivity.
Defined.

(** X4: every child is made with the command line of the invocation
    and the process id [fork] returned, and finds every environment
    variable other than the four XARMOUR ones as the parent has it. *)
Theorem X4_command_and_inherited_environment times command environ os stdin k ch :
  children (xarmour times command environ os stdin) !! k = Some ch →
  c_argv ch = command ∧
  Some (c_pid ch) = Z.pos <$> fork_pid (os k) ∧
  ∀ v, v ∉ XARMOUR → c_env ch !! v = environ !! v.
Proof.
  intros Hk.
  destruct (xarmour_books times command environ os stdin) as [Hch _ _].
  by destruct (Hch k ch Hk).
Qed.

Lemma X4_command_and_inherited_environment_witness :
  ∃ ch, children (xarmour 0 gpg {[ "HOME"%string := "/root"%string ]}
                    (first_then_ok (exits 0)) two_blocks) !! 1%nat = Some ch ∧
        c_argv ch = gpg ∧ c_env ch !! "HOME"%string = Some "/root"%string.
Proof.
  assert (H : ∃ ch, children (xarmour 0 gpg {[ "HOME"%string := "/root"%string ]}
                      (first_then_ok (exits 0)) two_blocks) !! 1%nat = Some ch).
  { vm_compute. eexists. reflexivity. }
  destruct H as [ch Hch]. exists ch. split; [exact Hch |].
  destruct (X4_command_and_inherited_environment _ _ _ _ _ _ _ Hch)
    as (Hargv & _ & Henv).
  clear Hch. split; [exact Hargv |]. rewrite Henv.
  - apply lookup_singleton_eq.
  - unfold XARMOUR. rewrite !not_elem_of_cons. repeat split; try discriminate.
    apply not_elem_of_nil.
Defined.

(** X5: at every point of every run [index] is the number of
    children whose pipe has been closed, that is of blocks that came
    to their END line, and [count] the number of children that exited
    0; neither is above the number of lines read. *)
Theorem X5_index_and_count times command environ os stdin n :
  let s := config_state (run_for times command environ os n stdin) in
  index s = Z.of_nat (length (procs s) - open_pipes (procs s)) ∧
  count s = successes (procs s) ∧
  0 ≤ count s ≤ index s ∧ index s ≤ Z.of_nat n.
Proof.
  intros s. subst s.
  destruct (run_for_books times command environ os n stdin) as [_ Hc Hi].
  pose proof (counters_bounded times command environ os n stdin) as Hb.
  simpl in Hb. tauto.
Qed.

(** ** The status of a run *)

Section Status.

Variable times : Z.
Variable command : list string.
Variable environ : gmap string string.
Variable os : nat -> fate.

Local Notation "'xarmour1'" := (xarmour times command environ os).

(** When no [write] to any child raises SIGPIPE, no run is ended by
    a signal. *)
Lemma never_killed stdin :
  (∀ k, sigpipe_after (os k) = None) → killed (xarmour1 stdin) = false.
Proof.
  intros Hos. pose proof (xarmour_good times command environ os stdin) as Hgood.
  destruct (xarmour1 stdin) as [s u|code eof s u|sig s u]; try done.
  destruct Hgood as (_ & _ & _ & [gone Hgone]). by rewrite Hos in Hgone.
Qed.

(** A run in which [main] returns from inside the loop although the
    system lets every child be made and reaped has a child that did not
    exit 0, and no threshold. *)
Lemma early_return_cases stdin :
  ended_at_eof (xarmour1 stdin) = false →
  killed (xarmour1 stdin) = false →
  (exit_code (xarmour1 stdin) = Some EXIT_FAILURE ∧
   (pipe_fails (os (length (children (xarmour1 stdin)))) = true ∨
    fork_pid (os (length (children (xarmour1 stdin)))) = None)) ∨
  (exit_code (xarmour1 stdin) = Some EXIT_FAILURE ∧
   ∃ ps ch, children (xarmour1 stdin) = ps ++ [ch] ∧
            wait_status (os (length ps)) = None) ∨
  (times = 0 ∧
   ∃ ps ch status,
     children (xarmour1 stdin) = ps ++ [ch] ∧
     wait_status (os (length ps)) = Some status ∧
     c_status ch = Some status ∧ exit_ok status = false ∧
     Forall (λ c, c_status c = None ∨ exited_ok c = true) ps ∧
     exit_code (xarmour1 stdin) = Some (translated status)).
Proof.
  pose proof (xarmour_good times command environ os stdin) as Hgood.
  pose proof (xarmour_books times command environ os stdin) as [Hch _ _].
  destruct (xarmour_ends times command environ os stdin)
    as [(code & eof & s & u & Hc)|(s & u & Hc)]; rewrite Hc in *; [|done].
  unfold children. simpl in *. intros -> _.
  inversion Hgood as [|s0 Hwf Hf Hp|s0 ps ch0 Hps Hfin Henv Hnf Hpipe Hst Hw
                     |s0 ps ch0 st0 Ht0 Hps Hfin Henv Hnf Hpipe Hst Hok]; subst.
  - left. done.
  - right. left. split; [done |]. by exists ps, ch0.
  - right. right. split; [done |]. exists ps, ch0, st0.
    assert (Hk : procs s !! length ps = Some ch0).
    { rewrite Hps. by apply list_lookup_middle. }
    destruct (Hch _ _ Hk) as [_ _ _ _ _ _ Hstatus _].
    rewrite <- (Hstatus Hpipe), Hst. repeat split; try done. by apply Hnf.
Qed.

End Status.

(** X6: when the system makes every child, no [write] to a child
    raises SIGPIPE and every child exits 0, the run reads all its
    input; every block that came to its END line counts as a success;
    without threshold the status is 0; and on input without NUL bytes
    the command has been run once per block, on the text of the
    block. *)
Theorem X6_all_children_succeed times command environ os stdin :
  all_succeed os →
  let c := xarmour times command environ os stdin in
  ended_at_eof c = true ∧ unread c = [] ∧
  count (config_state c) = index (config_state c) ∧
  (times = 0 → exit_code c = Some 0) ∧
  (NUL ∉ stdin →
     map c_stdin (children c) = armoured_blocks stdin ∧
     Forall (λ ch, c_argv ch = command) (children c)).
Proof.
  intros Hos. cbv zeta.
  assert (Heof : ended_at_eof (xarmour times command environ os stdin) = true).
  { destruct (ended_at_eof _) eqn:E; [done |]. exfalso.
    assert (Halive : killed (xarmour times command environ os stdin) = false).
    { apply never_killed. intros k. by destruct (Hos k) as (_ & _ & ? & _). }
    destruct (early_return_cases times command environ os stdin E Halive)
      as [[_ [H|H]]|[(_ & ps & ch & _ & H)|(_ & ps & ch & st & _ & H & _ & Hbad & _)]].
    - destruct (Hos (length (children (xarmour times command environ os stdin))))
        as (Hp & _). congruence.
    - destruct (Hos (length (children (xarmour times command environ os stdin))))
        as (_ & [pid Hpid] & _). congruence.
    - destruct (Hos (length ps)) as (_ & _ & _ & st & Hst & _). congruence.
    - destruct (Hos (length ps)) as (_ & _ & _ & st' & Hst & Hok). congruence. }
  split; [done |]. split; [by apply eof_all_read |].
  pose proof (xarmour_good times command environ os stdin) as Hgood.
  pose proof (xarmour_books times command environ os stdin) as [Hch Hcount Hindex].
  pose proof (run_for_follows_scanner times command environ os
                (S (length stdin)) stdin) as Hscan.
  fold (xarmour times command environ os stdin) in Hscan.
  destruct Hscan as (read & _ & Hscan).
  destruct (xarmour times command environ os stdin) as [s u|code eof s u|sig s u];
    [done | |done].
  simpl in Heof. subst eof. unfold children. simpl in *.
  destruct Hscan as [Hscan ->].
  inversion Hgood as [s0 Hwf| | |]; subst.
  split; [|split].
  - rewrite Hcount, Hindex. unfold successes, open_pipes.
    assert (Hall : ∀ ch, ch ∈ procs s → exited_ok ch = negb (c_pipe_open ch)).
    { intros ch [k Hk]%list_elem_of_lookup_1.
      destruct (Hch k ch Hk) as [_ _ _ _ _ _ Hclosed Hopen].
      unfold exited_ok. destruct (c_pipe_open ch); simpl.
      - by rewrite Hopen.
      - rewrite Hclosed by done.
        destruct (Hos k) as (_ & _ & _ & st & -> & Hok). done. }
    clear -Hall. f_equal. induction (procs s) as [|ch ps IH]; [done |]. simpl.
    rewrite (Hall ch) by left.
    assert (IH' := IH (λ c Hc, Hall c (list_elem_of_further _ _ _ Hc))).
    pose proof (List.filter_length_le c_pipe_open ps) as Hle.
    destruct (c_pipe_open ch); simpl; lia.
  - intros ->. unfold after_loop. done.
  - intros Hn. rewrite (lines_without_NUL _ Hn) in Hscan.
    destruct Hscan as [Htexts _]. split; [done |].
    apply Forall_forall. intros ch [k Hk]%list_elem_of_lookup_1.
    by destruct (Hch k ch Hk).
Qed.

Lemma all_succeed_example : all_succeed (first_then_ok (exits 0)).
Proof. intros [|k]; simpl; repeat split; eauto. Qed.

Lemma X6_all_children_succeed_witness :
  let c := xarmour 0 gpg ∅ (first_then_ok (exits 0)) three_blocks in
  exit_code c = Some 0 ∧
  map c_stdin (children c) =
    [block "ONE" "b25l"; block "TWO" "dHdv"; block "THREE" "dGhyZWU="].
Proof.
  destruct (X6_all_children_succeed 0 gpg ∅ (first_then_ok (exits 0))
              three_blocks all_succeed_example)
    as (_ & _ & _ & Hzero & Hblocks).
  split; [exact (Hzero eq_refl) |].
  assert (Hn : NUL ∉ three_blocks).
  { apply (bool_decide_unpack _). vm_compute. exact I. }
  destruct (Hblocks Hn) as [-> _]. vm_compute. reflexivity.
Defined.

(** X7: with a threshold [main] returns 0 or 1 and nothing else,
    whatever the children do: every run ends, with [main] returning 0
    or 1 or with the parent ended by SIGPIPE, and when no [write] to a
    child raises SIGPIPE [main] returns 0 or 1. *)
Theorem X7_threshold_status_is_0_or_1 times command environ os stdin :
  times ≠ 0 →
  (exit_code (xarmour times command environ os stdin) = Some 0 ∨
   exit_code (xarmour times command environ os stdin) = Some 1 ∨
   signalled (xarmour times command environ os stdin) = Some SIGPIPE) ∧
  ((∀ k, sigpipe_after (os k) = None) →
     exit_code (xarmour times command environ os stdin) = Some 0 ∨
     exit_code (xarmour times command environ os stdin) = Some 1).
Proof.
  intros Ht.
  pose proof (xarmour_good times command environ os stdin) as Hgood.
  pose proof (never_killed times command environ os stdin) as Hnever.
  assert (Hret : ∀ code eof s u,
    xarmour times command environ os stdin = Exited code eof s u →
    code = 0 ∨ code = 1).
  { intros code eof s u Hc. rewrite Hc in Hgood. simpl in Hgood.
    inversion Hgood; subst; try (by right); try done.
    unfold after_loop. destruct (Z.eqb_spec times 0); [done |]. simpl.
    destruct (count s <? times); [by right | by left]. }
  destruct (xarmour_ends times command environ os stdin)
    as [(code & eof & s & u & Hc)|(s & u & Hc)].
  - destruct (Hret _ _ _ _ Hc) as [->| ->]; rewrite Hc; simpl; auto.
  - rewrite Hc in *. simpl. split; [auto |]. intros Hos.
    by specialize (Hnever Hos).
Qed.

Lemma X7_threshold_status_is_0_or_1_witness :
  exit_code (xarmour 1 gpg ∅ (first_then_ok (killed_by 9)) two_blocks) = Some 0.
Proof.
  destruct (X7_threshold_status_is_0_or_1 1 gpg ∅ (first_then_ok (killed_by 9))
              two_blocks ltac:(lia)) as [_ H].
  destruct (H ltac:(by intros [|k])) as [H0|H1]; [exact H0 |].
  exfalso. revert H1. vm_compute. discriminate.
Defined.

(** X8: without threshold, a child whose status is neither a normal
    exit nor death by a signal ends the run with EX_OSERR, 71, and no
    child is made after it. *)
Theorem X8_unrecognised_status_is_EX_OSERR command environ os stdin k :
  status_of (xarmour 0 command environ os stdin) k = Some W_OTHER →
  exit_code (xarmour 0 command environ os stdin) = Some 71 ∧
  ended_at_eof (xarmour 0 command environ os stdin) = false ∧
  length (children (xarmour 0 command environ os stdin)) = S k.
Proof.
  intros Hk.
  pose proof (xarmour_good 0 command environ os stdin) as Hgood.
  destruct (xarmour_ends 0 command environ os stdin)
    as [(code & eof & s & u & Hc)|(s & u & Hc)];
    rewrite Hc in *; unfold status_of, children in *; simpl in *;
    (destruct (procs s !! k) as [ch|] eqn:Ek; [|done]); simpl in Hk;
    assert (Hin : ch ∈ procs s) by (eapply list_elem_of_lookup_2; done);
    assert (Hno : ∀ ps, none_failed 0 ps → ch ∈ ps → False)
      by (intros ps Hps Hin'; specialize (Hps eq_refl);
          rewrite Forall_forall in Hps; destruct (Hps ch Hin') as [H|H];
          [congruence | unfold exited_ok in H; rewrite Hk in H; done]).
  2:{ destruct Hgood as (_ & Hwf & _).
      destruct (Hno _ (wf_strict _ _ Hwf) Hin). }
  inversion Hgood as [s0 Hwf|s0 Hwf|s0 ps ch0 Hps Hfin Henv Hnf
                     |s0 ps ch0 st0 _ Hps Hfin Henv Hnf Hpipe Hst Hok]; subst.
  - destruct (Hno _ (wf_strict _ _ Hwf) Hin).
  - destruct (Hno _ (wf_strict _ _ Hwf) Hin).
  - destruct (Hno _ Hnf Hin).
  - rewrite Hps in Ek, Hin |- *.
    destruct (decide (k < length ps)%nat) as [Hlt|Hge].
    { rewrite lookup_app_l in Ek by done.
      destruct (Hno ps Hnf). eapply list_elem_of_lookup_2. done. }
    assert (k = length ps) as ->.
    { apply lookup_lt_Some in Ek. rewrite length_app in Ek. simpl in Ek. lia. }
    rewrite list_lookup_middle in Ek by done. injection Ek as <-.
    assert (st0 = W_OTHER) as -> by congruence.
    rewrite length_app. simpl. split; [done |]. split; [done | lia].
Qed.

Lemma X8_unrecognised_status_is_EX_OSERR_witness :
  exit_code (xarmour 0 gpg ∅ (first_then_ok stopped) two_blocks) = Some 71 ∧
  length (children (xarmour 0 gpg ∅ (first_then_ok stopped) two_blocks)) = 1%nat.
Proof.
  destruct (X8_unrecognised_status_is_EX_OSERR gpg ∅ (first_then_ok stopped)
              two_blocks 0 ltac:(vm_compute; reflexivity)) as (H1 & _ & H2).
  split; [exact H1 | exact H2].
Defined.

(** X9: a signal that interrupts [waitpid] changes nothing: two
    systems that differ only in how often that happens give the same
    run. *)
Theorem X9_interrupted_waits_are_retried times command environ os os' stdin :
  same_but_eintr os os' →
  xarmour times command environ os' stdin =
  xarmour times command environ os stdin.
Proof.
  intros Hsame.
  assert (Hbegin : ∀ line s,
    seek_begin times command environ os' line s =
    seek_begin times command environ os line s).
  { intros line s. unfold seek_begin.
    by destruct (Hsame (length (procs s))) as (-> & -> & _). }
  assert (Hend : ∀ line s,
    seek_end times os' line s = seek_end times os line s).
  { intros line s. unfold seek_end, write, broken_pipe.
    destruct (sscanf line end_ []) as [n elabel].
    rewrite !waitpid_loop_final.
    by destruct (Hsame (pipefd s)) as (_ & _ & -> & ->). }
  assert (Hbody : ∀ line s,
    loop_body times command environ os' line s =
    loop_body times command environ os line s).
  { intros line s. unfold loop_body. rewrite Hbegin.
    destruct (seek_begin times command environ os line s); [|done..].
    apply Hend. }
  unfold xarmour, run_for.
  induction (S (length stdin)) as [|n IH]; [done |]. simpl. rewrite IH. clear IH.
  destruct (Nat.iter n _ _) as [s u|code eof s u|sig s u]; [|reflexivity..].
  cbn [turn].
  destruct (fgets MAX_LINE u) as [[line rest]|]; [|reflexivity].
  by rewrite Hbody.
Qed.

Lemma X9_interrupted_waits_are_retried_witness :
  xarmour 2 gpg ∅ (interrupted (exits 3)) three_blocks =
  xarmour 2 gpg ∅ (first_then_ok (exits 3)) three_blocks.
Proof.
  apply X9_interrupted_waits_are_retried. intros k. repeat split.
Defined.

(** ** Input without armour, and input with NUL bytes *)

Section NoArmour.

Variable times : Z.
Variable command : list string.
Variable environ : gmap string string.
Variable os : nat -> fate.

Lemma no_begin_no_child n stdin :
  (∀ line, line ∈ fgets_lines stdin → is_marker begin line = None) →
  match run_for times command environ os n stdin with
  | Running s _ => f s < 0 ∧ procs s = [] ∧ count s = 0
  | Exited code eof s _ =>
      eof = true ∧ procs s = [] ∧ count s = 0 ∧ code = after_loop times s
  | Killed _ _ _ => False
  end.
Proof.
  intros Hno. induction n as [|n IH].
  { simpl. repeat split; lia. }
  pose proof (run_for_next_line times command environ os n stdin) as Hline.
  unfold run_for in *. simpl.
  destruct (Nat.iter n _ _) as [s u|code eof s u|sig s u]; [|done..].
  destruct IH as (Hf & Hps & Hc). cbn [turn].
  destruct (Hline s u eq_refl) as [_ Hnext].
  destruct (fgets MAX_LINE u) as [[line rest]|]; [|done].
  destruct Hnext as [Hn _].
  assert (Hm : is_marker begin line = None).
  { apply Hno. eapply list_elem_of_lookup_2. exact Hn. }
  pose proof (seek_begin_child times command environ os line s Hf) as Hb.
  pose proof (seek_begin_cases times command environ os line s Hf) as Hb'.
  unfold loop_body.
  destruct (seek_begin times command environ os line s) as [s1|code s1|sig s1];
    [| |done].
  - destruct Hb as (Hc1 & _ & [(_ & Hf1 & Hps1)|(pid & _ & Hyes & _)]).
    + unfold seek_end. destruct (Z.leb_spec 0 (f s1)); [lia |].
      split; [done |]. split; congruence.
    + rewrite Hm in Hyes. done.
  - destruct Hb' as ([l Hl] & _). congruence.
Qed.

(** X10: on input in which no line is a BEGIN marker, the empty
    input included, no child is made; [main] reads to the end and
    returns 0 without threshold and 1 with one, as no success was
    counted. *)
Theorem X10_input_without_armour stdin :
  (∀ line, line ∈ fgets_lines stdin → is_marker begin line = None) →
  let c := xarmour times command environ os stdin in
  children c = [] ∧ ended_at_eof c = true ∧
  (times = 0 → exit_code c = Some 0) ∧
  (1 ≤ times → exit_code c = Some 1).
Proof.
  intros Hno. cbv zeta.
  pose proof (no_begin_no_child (S (length stdin)) stdin Hno) as H.
  fold (xarmour times command environ os stdin) in H.
  destruct (xarmour_ends times command environ os stdin)
    as [(code & eof & s & u & Hc)|(s & u & Hc)]; rewrite Hc in *; [|done].
  unfold children. simpl.
  destruct H as (-> & Hps & Hcount & ->). split; [done |]. split; [done |].
  unfold after_loop. rewrite Hcount. split.
  - intros ->. done.
  - intros Ht. destruct (Z.eqb_spec times 0); [lia |]. simpl.
    destruct (Z.ltb_spec 0 times); [done | lia].
Qed.

End NoArmour.

Lemma X10_input_without_armour_witness :
  (exit_code (xarmour 0 gpg ∅ (first_then_ok (exits 0)) plain_text) = Some 0 ∧
   exit_code (xarmour 2 gpg ∅ (first_then_ok (exits 0)) plain_text) = Some 1) ∧
  exit_code (xarmour 1 gpg ∅ (first_then_ok (exits 0)) []) = Some 1.
Proof.
  assert (Hplain : ∀ line, line ∈ fgets_lines plain_text →
                           is_marker begin line = None).
  { intros line Hin.
    assert (Hl : fgets_lines plain_text =
                   [Ln "Hello,"; Ln "--- no armour here ---"; B "bye"])
      by (vm_compute; reflexivity).
    rewrite Hl in Hin. clear Hl.
    repeat (apply elem_of_cons in Hin as [->|Hin]; [vm_compute; reflexivity |]).
    by apply elem_of_nil in Hin. }
  assert (Hempty : ∀ line, line ∈ fgets_lines [] → is_marker begin line = None).
  { intros line H. by apply elem_of_nil in H. }
  destruct (X10_input_without_armour 0 gpg ∅ (first_then_ok (exits 0))
              plain_text Hplain) as (_ & _ & H0 & _).
  destruct (X10_input_without_armour 2 gpg ∅ (first_then_ok (exits 0))
              plain_text Hplain) as (_ & _ & _ & H2).
  destruct (X10_input_without_armour 1 gpg ∅ (first_then_ok (exits 0))
              [] Hempty) as (_ & _ & _ & H1).
  split; [split |].
  - exact (H0 eq_refl).
  - apply H2. lia.
  - apply H1. lia.
Defined.

(** X11: for any input, NUL bytes or not, what the children are
    given is what the scanner finds in the lines of the input cut at
    their first NUL: that is all of it when [main] reads to the end,
    and a beginning of it for each child when it returns earlier. *)
Theorem X11_children_are_given_C_strings times command environ os stdin :
  let c := xarmour times command environ os stdin in
  let blocks := block_texts (scan (map cstr (fgets_lines stdin))) in
  (ended_at_eof c = true → map c_stdin (children c) = blocks) ∧
  fed_within (map c_stdin (children c)) blocks.
Proof.
  cbv zeta.
  pose proof (run_for_follows_scanner times command environ os
                (S (length stdin)) stdin) as H.
  fold (xarmour times command environ os stdin) in H.
  split; [|by apply (follows_scanner_within os)].
  destruct H as (read & _ & H). unfold children.
  destruct (xarmour times command environ os stdin)
    as [s u|code eof s u|sig s u]; try done.
  simpl. intros ->. by destruct H as [[H _] ->].
Qed.

(** ** Options, help and version *)

Lemma last_cons_some {A} (x : A) (l : list A) :
  last (x :: l) = Some (default x (last l)).
Proof.
  revert x. induction l as [|y l IH]; intros x; [done |].
  rewrite last_cons_cons, (IH y). simpl. done.
Qed.

Lemma last_cons_default {A} (x d : A) (l : list A) :
  default d (last (x :: l)) = default x (last l).
Proof. by rewrite last_cons_some. Qed.

(** X12: the option loop runs to its end exactly when every option
    is a -t with a clean value of at least 1; [times] is then the
    value of the last of them, and 0 when there is no option. *)
Theorem X12_option_loop_accepts_counts_only opts times :
  getopt_loop opts 0 = inr times ↔
  Forall valid_count opts ∧ times = default 0 (last (omap t_value opts)).
Proof.
  revert times. generalize 0. intros t0 times.
  revert t0. induction opts as [|o opts IH]; intros t0.
  - simpl. split.
    + intros [= <-]. split; [constructor | done].
    + intros [_ ->]. done.
  - destruct o as [v b| | |]; simpl.
    + destruct b; simpl.
      * destruct (Z.ltb_spec v 1) as [Hv|Hv].
        -- split; [done |]. intros [H _]. apply Forall_cons in H as [(v' & Hv' & ?) _].
           injection Hv' as ->. lia.
        -- rewrite IH, last_cons_default. split.
           ++ intros [H ->]. split; [|done]. constructor; [|done]. by exists v.
           ++ intros [H ->]. apply Forall_cons in H as [_ H]. done.
      * split; [done |]. intros [H _]. apply Forall_cons in H as [(v' & Hv' & ?) _].
        done.
    + split; [done |]. intros [H _]. apply Forall_cons in H as [(v' & Hv' & ?) _]. done.
    + split; [done |]. intros [H _]. apply Forall_cons in H as [(v' & Hv' & ?) _]. done.
    + split; [done |]. intros [H _]. apply Forall_cons in H as [(v' & Hv' & ?) _]. done.
Qed.

Lemma getopt_loop_io_refines name package_string opts t0 :
  match getopt_loop_io name package_string opts t0 with
  | inl (str, _, code) =>
      getopt_loop opts t0 = inl code ∧
      ((str = stdout ∧ code = 0) ∨ (str = stderr ∧ code = 1))
  | inr times => getopt_loop opts t0 = inr times
  end.
Proof.
  revert t0. induction opts as [|o opts IH]; intros t0; [done |].
  destruct o as [v b| | |]; simpl.
  - destruct (negb b || (v <? 1)); [|apply IH]. simpl. split; [done |]. by right.
  - split; [done |]. by left.
  - split; [done |]. by left.
  - split; [done |]. by right.
Qed.

(** X13: [main] reads its input only after the option loop has run
    to its end and when a command is given.  Otherwise it returns at
    once, no byte read and no child made, having printed one message:
    on standard output with status 0 (help or version asked for), or
    on standard error with status 1. *)
Theorem X13_main_before_the_loop name package_string opts command environ os stdin :
  match startup name package_string opts command with
  | inl (str, _, code) =>
      main opts command environ os stdin = Exited code false start stdin ∧
      ((str = stdout ∧ code = 0) ∨ (str = stderr ∧ code = 1))
  | inr times =>
      main opts command environ os stdin =
        xarmour times command environ os stdin ∧
      command ≠ [] ∧ (times = 0 ∨ 1 ≤ times)
  end.
Proof.
  unfold startup, main.
  pose proof (getopt_loop_io_refines name package_string opts 0) as H.
  destruct (getopt_loop_io name package_string opts 0) as [[[str text] code]|times].
  - destruct H as [-> H]. done.
  - rewrite H. destruct command as [|c0 command'].
    + split; [done |]. by right.
    + split; [done |]. split; [done |].
      apply getopt_loop_times in H as [[-> _]|[H _]]; [by left | by right].
Qed.

Lemma strrchr_some s c r :
  strrchr s c = Some r →
  ∃ pre, s = pre ++ r ∧ head r = Some c ∧ c ∉ drop 1 r.
Proof.
  revert r. induction s as [|x s IH]; intros r; simpl; [done |].
  destruct (strrchr s c) as [r'|] eqn:E.
  - intros [= <-]. destruct (IH _ eq_refl) as (pre & -> & Hh & Hn).
    by exists (x :: pre).
  - destruct (Ascii.eqb_spec x c) as [->|]; [|done]. intros [= <-].
    exists []. split; [done |]. split; [done |]. simpl. rewrite drop_0.
    clear IH. induction s as [|y s IHs]; [apply not_elem_of_nil |].
    simpl in E. destruct (strrchr s c); [done |].
    destruct (Ascii.eqb_spec y c); [done |].
    apply not_elem_of_cons. split; [congruence | by apply IHs].
Qed.

Lemma strrchr_none s c : strrchr s c = None → c ∉ s.
Proof.
  induction s as [|y s IH]; simpl; [intros _; apply not_elem_of_nil |].
  destruct (strrchr s c); [done |].
  destruct (Ascii.eqb_spec y c); [done |]. intros _.
  apply not_elem_of_cons. split; [congruence | by apply IH].
Qed.

(** X14: [help] returns the code it is given and prints on standard
    output exactly when that code is 0.  The name it prints is what
    follows the last slash of [name]: it holds no slash, and [name]
    is that name after nothing or after a path that ends in a slash. *)
Theorem X14_help_names_the_program name msg code :
  let n := program_name name in
  help name msg code =
    (if code =? 0 then stdout else stderr,
     help_text (default EmptyString msg) (string_of_list_ascii n), code) ∧
  ("/"%char ∉ n) ∧
  ∃ dir, name = dir ++ n ∧ (dir = [] ∨ last dir = Some "/"%char).
Proof.
  cbv zeta. split; [done |]. unfold program_name.
  destruct (strrchr name "/"%char) as [r|] eqn:E.
  - destruct (strrchr_some _ _ _ E) as (pre & -> & Hh & Hn).
    split; [done |]. destruct r as [|x r]; [done |]. injection Hh as ->.
    exists (pre ++ ["/"%char]). simpl. rewrite drop_0, <- app_assoc.
    split; [done |]. right. by rewrite last_snoc.
  - split; [by apply strrchr_none |]. exists []. split; [done | by left].
Qed.

(** X15: the two calls of [sscanf] return 1, 0 or EOF.  When they
    return 1 the label assigned has 1 to 1000 bytes, none a dash or a
    NUL, so that with its NUL it fits the 1024 bytes of [blabel] and
    [elabel]; otherwise the array is left as it was. *)
Theorem X15_sscanf_assigns_a_bounded_label buffer out :
  ((∃ label, sscanf buffer begin out = (1, label) ∧ label_shaped label) ∨
   sscanf buffer begin out = (0, out) ∨ sscanf buffer begin out = (EOF, out)) ∧
  ((∃ label, sscanf buffer end_ out = (1, label) ∧ label_shaped label) ∨
   sscanf buffer end_ out = (0, out) ∨ sscanf buffer end_ out = (EOF, out)).
Proof.
  assert (H : ∀ kw tail,
    (∃ label, sscanf buffer (marker_format kw tail) out = (1, label) ∧
              label_shaped label) ∨
    sscanf buffer (marker_format kw tail) out = (0, out) ∨
    sscanf buffer (marker_format kw tail) out = (EOF, out)).
  { intros kw tail. unfold sscanf.
    pose proof (sscanf_marker_format kw tail (cstr buffer) out) as H.
    destruct (marker_label kw (cstr buffer)) as [l|] eqn:El.
    - left. exists l. split; [done |].
      eapply marker_label_shaped; [apply cstr_no_NUL | done].
    - right. destruct (sscanf_from _ _ _ _) as [n l]. simpl in H.
      destruct H as [-> [-> | ->]]; auto. }
  rewrite begin_format, end_format. split; apply H.
Qed.

(** X16: a line the loop works on holds a newline nowhere but at its
    end. *)
Theorem X16_a_newline_ends_the_line stdin k line i :
  fgets_lines stdin !! k = Some line →
  line !! i = Some NL → S i = length line.
Proof.
  assert (Hstore : ∀ input room stored rest j,
    fgets_store room input = (stored, rest) →
    stored !! j = Some NL → S j = length stored).
  { intros input. induction input as [|c input IH]; intros [|room] stored rest j;
      cbn [fgets_store]; try (intros [= <- <-]; done).
    destruct (Ascii.eqb_spec c NL) as [->|Hc].
    - intros [= <- <-]. by destruct j.
    - destruct (fgets_store room input) as [st un] eqn:E. intros [= <- <-].
      destruct j as [|j]; simpl; [congruence |].
      intros H. f_equal. by eapply IH. }
  revert k. induction stdin as [|stream l rest E IH] using fgets_ind;
    intros k; [done |].
  rewrite (fgets_lines_cons _ _ _ E). destruct k as [|k]; simpl; [|apply IH].
  intros [= ->]. unfold fgets in E.
  destruct stream as [|c stream]; [done |].
  assert (E' : fgets_store (MAX_LINE - 1) (c :: stream) = (line, rest))
    by congruence.
  by eapply Hstore.
Qed.

Lemma X16_a_newline_ends_the_line_witness :
  S 19 = length (Ln "-----BEGIN ONE-----").
Proof.
  apply (X16_a_newline_ends_the_line two_blocks 0 (Ln "-----BEGIN ONE-----") 19).
  - vm_compute. reflexivity.
  - vm_compute. reflexivity.
Defined.

(** X17: with a threshold and a system under which no [pipe], [fork]
    or [waitpid] fails and no [write] to a child raises SIGPIPE, all
    blocks of the input are processed, however many children succeed
    and also when the threshold was reached long before: on input
    without NUL bytes there is one child per block, given the block's
    text. *)
Theorem X17_threshold_processes_every_block times command environ os stdin :
  times ≠ 0 →
  (∀ k, pipe_fails (os k) = false ∧ is_Some (fork_pid (os k)) ∧
        is_Some (wait_status (os k)) ∧ sigpipe_after (os k) = None) →
  NUL ∉ stdin →
  map c_stdin (children (xarmour times command environ os stdin)) =
    armoured_blocks stdin ∧
  unread (xarmour times command environ os stdin) = [] ∧
  ended_at_eof (xarmour times command environ os stdin) = true.
Proof.
  intros Ht Hos Hn.
  assert (Heof : ended_at_eof (xarmour times command environ os stdin) = true).
  { destruct (ended_at_eof _) eqn:E; [done |]. exfalso.
    assert (Halive : killed (xarmour times command environ os stdin) = false).
    { apply never_killed. intros k. by destruct (Hos k) as (_ & _ & _ & ?). }
    destruct (early_return_cases times command environ os stdin E Halive)
      as [[_ [H|H]]|[(_ & ps & ch & _ & H)|(H & _)]].
    - destruct (Hos (length (children (xarmour times command environ os stdin))))
        as (Hp & _). congruence.
    - destruct (Hos (length (children (xarmour times command environ os stdin))))
        as (_ & [pid Hpid] & _). congruence.
    - destruct (Hos (length ps)) as (_ & _ & [st Hst] & _). congruence.
    - done. }
  split; [|split; [by apply eof_all_read | done]].
  pose proof (run_for_follows_scanner times command environ os
                (S (length stdin)) stdin) as (read & _ & Hscan).
  fold (xarmour times command environ os stdin) in Hscan.
  destruct (xarmour times command environ os stdin) as [s u|code eof s u|sig s u];
    [done | |done].
  simpl in Heof. subst eof. unfold children. simpl in *.
  destruct Hscan as [[Hscan _] ->].
  by rewrite (lines_without_NUL _ Hn) in Hscan.
Qed.

Lemma X17_threshold_processes_every_block_witness :
  map c_stdin (children (xarmour 1 gpg ∅ (first_then_ok (exits 0)) three_blocks))
    = [block "ONE" "b25l"; block "TWO" "dHdv"; block "THREE" "dGhyZWU="].
Proof.
  assert (Hn : NUL ∉ three_blocks).
  { apply (bool_decide_unpack _). vm_compute. exact I. }
  assert (Hos : ∀ k, pipe_fails (first_then_ok (exits 0) k) = false ∧
                     is_Some (fork_pid (first_then_ok (exits 0) k)) ∧
                     is_Some (wait_status (first_then_ok (exits 0) k)) ∧
                     sigpipe_after (first_then_ok (exits 0) k) = None).
  { intros [|k]; simpl; repeat split; eauto. }
  destruct (X17_threshold_processes_every_block 1 gpg ∅
              (first_then_ok (exits 0)) three_blocks ltac:(lia) Hos Hn)
    as [-> _].
  vm_compute. reflexivity.
Defined.
